(** * Serialbox core: field map and serializer implementation

    A shallow embedding of [src/Core/FieldMap.cpp] and of the serializer
    implementation ([SerializerImpl]: constructor, [write], [read],
    JSON (de)serialisation of the meta-data, [updateMetaData] and the
    legacy [upgradeMetaData]), together with the properties the
    specification states about them.

    Conventions.
    - C++ exceptions are modelled by [result]; code that mutates [*this]
      or the disk runs in the monad [Exec], whose state survives an
      exception (as the members of an object survive a [throw]).
    - JSON values follow nlohmann::json: objects are key-sorted maps,
      modelled as association lists kept in key order.
    - The file system is a finite map from paths to files, with a log of
      the primitive operations performed on it.
    - The conversion of a double to an integer type that cannot hold it
      is undefined in C++; its result is a parameter ([FloatConversion]). *)

From Stdlib Require Import ZArith String List Ascii Sorted.
From Stdlib Require OrderedTypeEx.
From stdpp Require Import base option gmap strings list fin_maps.
From stdpp Require Import pretty.

Set Warnings "-register-all".

Local Open Scope string_scope.
Local Open Scope Z_scope.

(** ** Scalars *)

(** [static_cast<int>] of a 64-bit JSON integer: two's complement wrap to
    32 bits. *)
Definition wrap_int32 (z : Z) : Z :=
  let m := z mod 2 ^ 32 in
  if m <? 2 ^ 31 then m else m - 2 ^ 32.

(** A [double] is kept as its IEEE-754 binary64 bit pattern. *)
Definition float64 := Z.

(** The C++ cast [float(x)] of a double, kept symbolic: the properties below
    are about the type tag, never about the rounded value. *)
Inductive float32 := float_of_double (d : float64).

Definition wrap_int64 (z : Z) : Z :=
  let m := z mod 2 ^ 64 in
  if m <? 2 ^ 63 then m else m - 2 ^ 64.

(** The integral part of a double (truncation towards zero), read off the
    bit pattern. *)
Definition double_trunc (d : float64) : Z :=
  let e := Z.land (Z.shiftr d 52) 2047 in
  let m := Z.land d (2 ^ 52 - 1) in
  let mag :=
    if e =? 0 then 0
    else if 1075 <=? e then Z.shiftl (2 ^ 52 + m) (e - 1075)
         else Z.shiftr (2 ^ 52 + m) (1075 - e) in
  if Z.testbit d 63 then - mag else mag.

(** [static_cast<int>] and [static_cast<std::int64_t>] of a double whose
    integral part the target type cannot hold are undefined in C++: what
    such a conversion gives is left to the platform. *)
Class FloatConversion := {
  int_of_double_overflow : float64 -> Z;
  int64_of_double_overflow : float64 -> Z
}.

(** [static_cast<int>] of a double: its integral part when an [int] holds
    it. *)
Definition int_of_double `{!FloatConversion} (d : float64) : Z :=
  let t := double_trunc d in
  if (- 2 ^ 31 <=? t) && (t <? 2 ^ 31) then t else int_of_double_overflow d.

(** [static_cast<std::int64_t>] of a double. *)
Definition int64_of_double `{!FloatConversion} (d : float64) : Z :=
  let t := double_trunc d in
  if (- 2 ^ 63 <=? t) && (t <? 2 ^ 63) then t else int64_of_double_overflow d.

(** ** JSON values (nlohmann::json) *)

Inductive json :=
  | JNull
  | JBool (b : bool)
  | JInt (z : Z)
  | JFloat (d : float64)
  | JString (s : string)
  | JArray (l : list json)
  | JObject (o : list (string * json)).

Module Json.

(** [std::map::find] on the members of an object. *)
Fixpoint obj_get (k : string) (o : list (string * json)) : option json :=
  match o with
  | [] => None
  | (k', v) :: o' => if String.eqb k k' then Some v else obj_get k o'
  end.

(** [object[k] = v]: replace the member, or insert it in key order. *)
Fixpoint obj_set (k : string) (v : json) (o : list (string * json))
  : list (string * json) :=
  match o with
  | [] => [(k, v)]
  | (k', v') :: o' =>
      match String.compare k k' with
      | Eq => (k, v) :: o'
      | Lt => (k, v) :: (k', v') :: o'
      | Gt => (k', v') :: obj_set k v o'
      end
  end.

(** The order of [std::map<std::string, json>], and the members of an
    object as a list sorted by it. *)
Definition str_lt (a b : string) : Prop := String.compare a b = Lt.

Definition sorted_keys (o : list (string * json)) : Prop :=
  StronglySorted str_lt o.*1.

Definition sorted_keysb (ks : list string) : bool :=
  forallb (fun p => if String.compare p.1 p.2 is Lt then true else false)
    (zip ks (tail ks)).

(** A value as the parser builds it: the members of every object in key
    order. *)
Fixpoint well_formed (j : json) : bool :=
  match j with
  | JArray l => forallb well_formed l
  | JObject o =>
      sorted_keysb o.*1
      && (fix members (o : list (string * json)) : bool :=
            match o with
            | [] => true
            | (_, v) :: o' => well_formed v && members o'
            end) o
  | _ => true
  end.

Definition is_null (j : json) : bool :=
  match j with JNull => true | _ => false end.

(** [json::empty()]: null is empty, containers by their size, scalars
    never. *)
Definition empty (j : json) : bool :=
  match j with
  | JNull => true
  | JArray l => match l with [] => true | _ => false end
  | JObject o => match o with [] => true | _ => false end
  | _ => false
  end.

(** [json::size()]. *)
Definition size (j : json) : nat :=
  match j with
  | JNull => 0%nat
  | JArray l => length l
  | JObject o => length o
  | _ => 1%nat
  end.

(** [json::count(key)]: 0 on anything that is not an object. *)
Definition count (k : string) (j : json) : bool :=
  match j with
  | JObject o => match obj_get k o with Some _ => true | None => false end
  | _ => false
  end.

(** [j == "literal"] and [j != str]. *)
Definition eq_string (j : json) (s : string) : bool :=
  match j with JString s' => String.eqb s' s | _ => false end.

(** [j[k]] read for assignment below it: the member, null when new. *)
Definition member (k : string) (j : json) : json :=
  match j with
  | JObject o => default JNull (obj_get k o)
  | _ => JNull
  end.

(** [j[k] = v] on a node that is null or an object (the only nodes the
    modelled code assigns into): null becomes an object. *)
Definition assign (k : string) (v : json) (j : json) : json :=
  match j with
  | JObject o => JObject (obj_set k v o)
  | _ => JObject [(k, v)]
  end.

Definition is_string (j : json) : bool :=
  match j with JString _ => true | _ => false end.
Definition is_boolean (j : json) : bool :=
  match j with JBool _ => true | _ => false end.
Definition is_number_integer (j : json) : bool :=
  match j with JInt _ => true | _ => false end.
Definition is_number_float (j : json) : bool :=
  match j with JFloat _ => true | _ => false end.

End Json.

(** ** Errors *)

(** The [serialbox::Exception]s of the modelled code, one constructor per
    [throw] site (the message is given in the comment). *)
Inductive ExceptionKind :=
  | DirectoryMissing            (* cannot create Serializer: directory %s does not exist *)
  | SerializerNotWritable       (* serializer not open in write mode, ... *)
  | SerializerNotReadable       (* serializer not open in read mode, ... *)
  | FieldNotRegistered          (* field '%s' is not registerd within the Serializer *)
  | TypeMismatch                (* field '%s' has type '%s' but was registrered as type '%s' *)
  | ShapeMismatch               (* dimensions of field '%s' do not match regsitered ones *)
  | FieldAlreadyAtSavepoint     (* field '%s' already saved at savepoint '%s' *)
  | SavepointNotFound           (* savepoint '%s' does not exist *)
  | FieldNotAtSavepoint         (* raised by SavepointVector::getFieldID *)
  | MetadataNotFound            (* cannot create Serializer: MetaData-%s.json not found in %s *)
  | JsonParserError             (* JSON parser error: %s *)
  | VersionNodeMissing          (* node 'serialbox_version' not found *)
  | VersionMismatch             (* serialbox version of MetaData (%s) does not match ... *)
  | PrefixNodeMissing           (* node 'prefix' not found *)
  | PrefixMismatch              (* inconsistent prefixes: expected '%s' got '%s' *)
  | ErrorWhileParsing (inner : ExceptionKind)  (* error while parsing %s: %s *)
  | CannotOpenFile              (* cannot open file: %s *)
  | UpgradeReadOnly             (* old serialbox archives cannot be opened in 'Write' or 'Append' mode *)
  | UpgradeCannotOpen           (* upgrade failed: cannot open %s *)
  | UpgradeTypeInferenceFailure (* failed to upgrade: cannot deduce type of ... *)
  | FieldMapNoNode              (* cannot create FieldMap: no node 'field_map' *)
  | FieldMapIllFormed           (* cannot insert node '%s' in FieldMap: JSON node ill-formed: %s *)
  | FieldMapNodeExists          (* cannot insert node '%s' in FieldMap: node already exists *)
  | MetaInfoKeyExists           (* cannot add element with key '%s': element already exists *)
  | CodecError                  (* raised by a fromJSON of MetaInfoMap or SavepointVector *)
  | ArchiveError (msg : string) (* raised by the archive backend *).

Inductive Error :=
  | Exception (k : ExceptionKind)   (* serialbox::Exception *)
  | JsonException                   (* an exception or failed precondition of the JSON library *)
  | CheckFailed                     (* a failed CHECK_EQ / CHECK_NE *)
  | NullArchive                     (* archive_ dereferenced before it is constructed *).

Inductive result (A : Type) :=
  | Ok (a : A)
  | Err (e : Error).
Arguments Ok {A} a.
Arguments Err {A} e.

#[global] Instance result_ret : MRet result := fun A a => Ok a.
#[global] Instance result_bind : MBind result := fun A B f r =>
  match r with Ok a => f a | Err e => Err e end.
#[global] Instance result_fmap : FMap result := fun A B f r =>
  match r with Ok a => Ok (f a) | Err e => Err e end.

Module JsonAccess.
Import Json.

(** [const operator[](key)]: the key must exist in an object. *)
Definition at_key (k : string) (j : json) : result json :=
  match j with
  | JObject o => match obj_get k o with Some v => Ok v | None => Err JsonException end
  | _ => Err JsonException
  end.

(** [const operator[](idx)]: the index must exist in an array. *)
Definition at_index (i : nat) (j : json) : result json :=
  match j with
  | JArray l => match l !! i with Some v => Ok v | None => Err JsonException end
  | _ => Err JsonException
  end.

(** Conversion to [std::string]. *)
Definition to_string (j : json) : result string :=
  match j with JString s => Ok s | _ => Err JsonException end.

(** Conversion to [int] (numbers only): a stored integer is narrowed, a
    stored double is converted by [static_cast<int>]. *)
Definition to_int `{!FloatConversion} (j : json) : result Z :=
  match j with
  | JInt z => Ok (wrap_int32 z)
  | JFloat d => Ok (int_of_double d)
  | _ => Err JsonException
  end.

(** Conversion to a 64-bit file offset. *)
Definition to_int64 `{!FloatConversion} (j : json) : result Z :=
  match j with
  | JInt z => Ok (wrap_int64 z)
  | JFloat d => Ok (int64_of_double d)
  | _ => Err JsonException
  end.

(** A [begin()..end()] loop whose body starts with [it.key()]: null and
    empty containers give no iteration, an object gives its members in
    key order, anything else throws at the first [it.key()]. *)
Definition items (j : json) : result (list (string * json)) :=
  match j with
  | JNull => Ok []
  | JObject o => Ok o
  | JArray [] => Ok []
  | _ => Err JsonException
  end.

(** A loop [for i < j.size()] over [j[i]] on a const node: the elements
    of an array; nothing when the size is 0. *)
Definition elements (j : json) : result (list json) :=
  match j with
  | JNull => Ok []
  | JArray l => Ok l
  | JObject [] => Ok []
  | _ => Err JsonException
  end.

(** Non-const [operator[](key)]: null becomes an object, a missing key is
    created with value null. Returns the member and the updated node. *)
Definition subscript_key (k : string) (j : json) : result (json * json) :=
  match j with
  | JNull => Ok (JNull, JObject [(k, JNull)])
  | JObject o =>
      match obj_get k o with
      | Some v => Ok (v, j)
      | None => Ok (JNull, JObject (obj_set k JNull o))
      end
  | _ => Err JsonException
  end.

End JsonAccess.

(** ** Data model *)

Inductive OpenModeKind := Read | Write | Append.

Inductive TypeID := Boolean | Int32 | Int64 | Float32 | Float64 | String_.

#[global] Instance OpenModeKind_eq_dec : EqDecision OpenModeKind.
Proof. solve_decision. Defined.
#[global] Instance TypeID_eq_dec : EqDecision TypeID.
Proof. solve_decision. Defined.

(** A meta-info value: a scalar with its type tag. *)
Inductive MetaInfoValue :=
  | VBool (b : bool)
  | VInt32 (z : Z)
  | VInt64 (z : Z)
  | VFloat32 (f : float32)
  | VFloat64 (d : float64)
  | VString (s : string).

Definition MetaInfoValue_type (v : MetaInfoValue) : TypeID :=
  match v with
  | VBool _ => Boolean
  | VInt32 _ => Int32
  | VInt64 _ => Int64
  | VFloat32 _ => Float32
  | VFloat64 _ => Float64
  | VString _ => String_
  end.

#[global] Instance float32_eq_dec : EqDecision float32.
Proof. unfold float64. solve_decision. Defined.
#[global] Instance MetaInfoValue_eq_dec : EqDecision MetaInfoValue.
Proof. unfold float64. solve_decision. Defined.

Abbreviation MetaInfoMap := (gmap string MetaInfoValue).

Module MetaInfoMap.
(** Modelled from the spec: MetaInfoMap.h is not part of the sources.
    "insert(k, v): returns true if inserted; false if k already present;
    never throws on duplicate". *)
Definition insert (k : string) (v : MetaInfoValue) (m : MetaInfoMap)
  : bool * MetaInfoMap :=
  match m !! k with
  | Some _ => (false, m)
  | None => (true, <[k := v]> m)
  end.
End MetaInfoMap.

Record FieldMetaInfo := {
  fmi_type : TypeID;
  fmi_dims : list Z;
  fmi_metaInfo : MetaInfoMap;
}.

#[global] Instance FieldMetaInfo_eq_dec : EqDecision FieldMetaInfo.
Proof. solve_decision. Defined.

Abbreviation FieldMap := (gmap string FieldMetaInfo).

Record SavepointImpl := {
  sp_name : string;
  sp_metaInfo : MetaInfoMap;
}.

#[global] Instance SavepointImpl_eq_dec : EqDecision SavepointImpl.
Proof. solve_decision. Defined.

Record FieldID := {
  fid_name : string;
  fid_id : Z;
}.

#[global] Instance FieldID_eq_dec : EqDecision FieldID.
Proof. solve_decision. Defined.

(** The caller's view of a tensor: element type, shape, and the elements
    as the contiguous little-endian buffer the archive stores. *)
Record StorageView := {
  view_type : TypeID;
  view_dims : list Z;
  view_data : list Byte.byte;
}.

(** *** Savepoint vector *)

(** Modelled from the spec: SavepointVector.h is not part of the sources.
    "An ordered list of unique SPs plus, per SP, an ordered mapping from
    field name to a stable Field Identifier": the list of the savepoints,
    each with its fields. *)
Abbreviation SavepointVector := (list (SavepointImpl * gmap string FieldID)).

Module SavepointVector.

Definition empty : SavepointVector := [].

Definition savepoints (sv : SavepointVector) : list SavepointImpl := sv.*1.

Fixpoint find_from (i : Z) (sp : SavepointImpl) (sv : SavepointVector) : Z :=
  match sv with
  | [] => -1
  | x :: sv' => if bool_decide (x.1 = sp) then i else find_from (i + 1) sp sv'
  end.

(** Modelled from the spec: "find(sp) -> index or -1: linear scan
    comparing by (name, meta)". *)
Definition find (sp : SavepointImpl) (sv : SavepointVector) : Z :=
  find_from 0 sp sv.

(** Modelled from the spec: "insert(sp): if found, returns its existing
    index and does not modify the fields map; otherwise appends and
    returns the new index". *)
Definition insert (sp : SavepointImpl) (sv : SavepointVector)
  : Z * SavepointVector :=
  let idx := find sp sv in
  if idx =? -1 then (Z.of_nat (length sv), (sv ++ [(sp, ∅)])%list)
  else (idx, sv).

(** The fields of the savepoint at an index (none outside the vector). *)
Definition fields_at (idx : Z) (sv : SavepointVector) : gmap string FieldID :=
  if idx <? 0 then ∅ else from_option snd ∅ (sv !! Z.to_nat idx).

(** Modelled from the spec: "hasField(i, name): per-entry field-name ->
    FieldID map". *)
Definition hasField (idx : Z) (name : string) (sv : SavepointVector) : bool :=
  match fields_at idx sv !! name with Some _ => true | None => false end.

(** Modelled from the spec: "addField rejects duplicates at the same
    savepoint with FieldAlreadyAtSavepoint". *)
Definition addField (idx : Z) (fid : FieldID) (sv : SavepointVector)
  : result unit * SavepointVector :=
  if hasField idx (fid_name fid) sv then (Err (Exception FieldAlreadyAtSavepoint), sv)
  else if idx <? 0 then (Ok (), sv)
  else (Ok (), alter (fun e => (e.1, <[fid_name fid := fid]> e.2)) (Z.to_nat idx) sv).

(** Modelled from the spec: "fid = SV.getFieldID(idx, name); else
    FieldNotAtSavepoint". *)
Definition getFieldID (idx : Z) (name : string) (sv : SavepointVector)
  : result FieldID :=
  match fields_at idx sv !! name with
  | Some fid => Ok fid
  | None => Err (Exception FieldNotAtSavepoint)
  end.

End SavepointVector.

(** *** The disk *)

(** A path is a directory and a file name ([directory / name]). *)
Abbreviation Path := (string * string)%type.

Inductive FileData :=
  | FileJson (j : json)             (* the text of a JSON document *)
  | FileBytes (b : list Byte.byte)  (* anything else; [FileBytes []] is an empty file *).

Record File := {
  file_data : FileData;
  file_mtime : Z;
}.

Inductive FsOp :=
  | OpOpenTrunc (p : Path)
  | OpOpenAppend (p : Path)
  | OpWrite (p : Path) (d : FileData)
  | OpRename (src dst : Path)
  | OpMkdir (d : string).

Record FileSystem := {
  fs_dirs : gset string;
  fs_files : gmap Path File;
  fs_no_write : gset Path;   (* files that cannot be opened for writing *)
  fs_no_read : gset Path;    (* files that cannot be opened for reading *)
  fs_clock : Z;
  fs_log : list FsOp;        (* the operations performed so far *)
}.

Module Fs.

(** [boost::filesystem::exists]. *)
Definition exists_file (p : Path) (fs : FileSystem) : bool :=
  match fs_files fs !! p with Some _ => true | None => false end.

Definition exists_dir (d : string) (fs : FileSystem) : bool :=
  bool_decide (d ∈ fs_dirs fs).

(** [boost::filesystem::last_write_time] of an existing file. *)
Definition last_write_time (p : Path) (fs : FileSystem) : Z :=
  match fs_files fs !! p with Some f => file_mtime f | None => 0 end.

Definition put (p : Path) (d : FileData) (op : FsOp) (fs : FileSystem) : FileSystem :=
  {| fs_dirs := fs_dirs fs;
     fs_files := <[p := {| file_data := d; file_mtime := fs_clock fs |}]> (fs_files fs);
     fs_no_write := fs_no_write fs;
     fs_no_read := fs_no_read fs;
     fs_clock := fs_clock fs + 1;
     fs_log := fs_log fs ++ [op] |}.

(** [std::ofstream fs(p, out | trunc)]: on success the file exists and is
    empty; [None] when [is_open()] is false. *)
Definition open_trunc (p : Path) (fs : FileSystem) : option FileSystem :=
  if bool_decide (p ∈ fs_no_write fs) || negb (exists_dir p.1 fs) then None
  else Some (put p (FileBytes []) (OpOpenTrunc p) fs).

(** [fs << text << std::endl; fs.close()] on a stream opened with
    [open_trunc]. *)
Definition write (p : Path) (d : FileData) (fs : FileSystem) : FileSystem :=
  put p d (OpWrite p d) fs.

(** [std::ifstream ifs(p)]: the contents, [None] when [is_open()] is
    false. *)
Definition open_read (p : Path) (fs : FileSystem) : option FileData :=
  if bool_decide (p ∈ fs_no_read fs) then None
  else file_data <$> fs_files fs !! p.

(** [stream >> json]: parsing succeeds on the text of a document. *)
Definition parse (d : option FileData) : option json :=
  match d with Some (FileJson j) => Some j | _ => None end.

(** [rename(src, dst)], replacing [dst]. *)
Definition rename (src dst : Path) (fs : FileSystem) : option FileSystem :=
  match fs_files fs !! src with
  | Some f =>
      if bool_decide (dst ∈ fs_no_write fs) then None
      else Some {| fs_dirs := fs_dirs fs;
                   fs_files := <[dst := f]> (delete src (fs_files fs));
                   fs_no_write := fs_no_write fs;
                   fs_no_read := fs_no_read fs;
                   fs_clock := fs_clock fs;
                   fs_log := fs_log fs ++ [OpRename src dst] |}
  | None => None
  end.

End Fs.

(** *** Binary archive state *)

Record FileOffsetType := {
  offset : Z;
  checksum : string;
}.

Abbreviation FieldOffsetTable := (list FileOffsetType).
Abbreviation FieldTable := (gmap string (list FileOffsetType)).

Record BinaryArchive := {
  ba_mode : OpenModeKind;
  ba_directory : string;
  ba_prefix : string;
  fieldTable : FieldTable;
}.

(** [BinaryArchive(mode, directory, prefix, skipMetaData = true)] as the
    upgrade constructs it: "Construct archive but don't parse the
    meta-data". *)
Definition BinaryArchive_new (mode : OpenModeKind) (directory prefix : string)
  : BinaryArchive :=
  {| ba_mode := mode; ba_directory := directory; ba_prefix := prefix;
     fieldTable := ∅ |}.

Definition set_fieldTable (t : FieldTable) (a : BinaryArchive) : BinaryArchive :=
  {| ba_mode := ba_mode a; ba_directory := ba_directory a;
     ba_prefix := ba_prefix a; fieldTable := t |}.

(** ** Collaborators that are not part of the sources

    Their code is absent; the serializer is verified for every
    implementation of these interfaces. *)

(** JSON codecs of the meta-info map, the savepoint vector and the field
    meta-info ([toJSON] members, [fromJSON] members that fill the object in
    place, and the [FieldMetaInfo(const json&)] constructor). *)
Class Codecs := {
  MetaInfoMap_toJSON : MetaInfoMap -> json;
  MetaInfoMap_fromJSON : json -> MetaInfoMap -> result unit * MetaInfoMap;
  SavepointVector_toJSON : SavepointVector -> json;
  SavepointVector_fromJSON : json -> SavepointVector -> result unit * SavepointVector;
  FieldMetaInfo_toJSON : FieldMetaInfo -> json;
  FieldMetaInfo_fromJSON : json -> result FieldMetaInfo;
}.

(** The archive backend ([Archive] interface and [ArchiveFactory]); a
    failure carries the message of the exception. *)
Class ArchiveOps := {
  Archive_create : string -> OpenModeKind -> string -> string -> FileSystem ->
                   (string + BinaryArchive) * FileSystem;
  Archive_write : StorageView -> string -> BinaryArchive -> FileSystem ->
                  (string + FieldID) * BinaryArchive * FileSystem;
  Archive_read : StorageView -> FieldID -> BinaryArchive -> FileSystem ->
                 (string + list Byte.byte) * BinaryArchive * FileSystem;
  Archive_updateMetaData : BinaryArchive -> FileSystem ->
                           (string + unit) * BinaryArchive * FileSystem;
  Archive_clear : BinaryArchive -> FileSystem -> BinaryArchive * FileSystem;
}.

(** [Version.h]: the version macros and [Version::match]. *)
Class VersionInfo := {
  SERIALBOX_VERSION_MAJOR : Z;
  SERIALBOX_VERSION_MINOR : Z;
  SERIALBOX_VERSION_PATCH : Z;
  Version_match : Z -> bool;
}.

(** ** Core/FieldMap.cpp *)

Module FieldMap.
Section WithCodecs.
Context `{!Codecs}.

(** Modelled from the spec: FieldMap.h is not part of the sources.
    "insert: succeeds if the key is absent, or if the key is present with
    an FM structurally equal to the supplied one (idempotent
    re-registration). Any other mismatch fails". The result is the
    success flag the caller tests. *)
Definition insert (name : string) (info : FieldMetaInfo) (self : FieldMap)
  : bool * FieldMap :=
  match self !! name with
  | None => (true, <[name := info]> self)
  | Some info' => (bool_decide (info' = info), self)
  end.

(** [insert(it.key(), it.value())]: the field meta-info is constructed
    from the JSON node first, which may throw. *)
Definition insert_json (name : string) (node : json) (self : FieldMap)
  : result bool * FieldMap :=
  match FieldMetaInfo_fromJSON node with
  | Ok info => let '(b, self') := insert name info self in (Ok b, self')
  | Err e => (Err e, self)
  end.

(** [FieldMap::toJSON]. *)
Definition toJSON (self : FieldMap) : json :=
  let jsonNode := JNull in
  if (size self =? 0)%nat then jsonNode
  else
    foldl (fun jsonNode it =>
             Json.assign "field_map"
               (Json.assign it.1 (FieldMetaInfo_toJSON it.2)
                  (Json.member "field_map" jsonNode))
               jsonNode)
          jsonNode (map_to_list self).

(** The members [toJSON] stores under "field_map" for the fields [l],
    starting from the members [o]. *)
Definition members_of (l : list (string * FieldMetaInfo)) (o : list (string * json))
  : list (string * json) :=
  foldl (fun o it => Json.obj_set it.1 (FieldMetaInfo_toJSON it.2) o) o l.

(** The loop of [FieldMap::fromJSON] over the members of
    [jsonNode["field_map"]]. *)
Fixpoint fromJSON_loop (its : list (string * json)) (self : FieldMap)
  : result unit * FieldMap :=
  match its with
  | [] => (Ok (), self)
  | (key, value) :: rest =>
      match insert_json key value self with
      | (Err (Exception _), self') => (Err (Exception FieldMapIllFormed), self')
      | (Err e, self') => (Err e, self')
      | (Ok false, self') => (Err (Exception FieldMapNodeExists), self')
      | (Ok true, self') => fromJSON_loop rest self'
      end
  end.

(** [FieldMap::fromJSON]. *)
Definition fromJSON (jsonNode : json) (self : FieldMap) : result unit * FieldMap :=
  let self := (∅ : FieldMap) in
  if Json.is_null jsonNode || Json.empty jsonNode then (Ok (), self)
  else if negb (Json.count "field_map" jsonNode) then
    (Err (Exception FieldMapNoNode), self)
  else
    match JsonAccess.at_key "field_map" jsonNode ≫= JsonAccess.items with
    | Err e => (Err e, self)
    | Ok its => fromJSON_loop its self
    end.

End WithCodecs.
End FieldMap.

(** ** Core/SerializerImpl.cpp *)

Record SerializerImpl := {
  mode_ : OpenModeKind;
  directory_ : string;
  prefix_ : string;
  metaDataFile_ : Path;
  savepointVector_ : SavepointVector;
  fieldMap_ : FieldMap;
  globalMetaInfo_ : MetaInfoMap;
  archive_ : option BinaryArchive;
}.

Definition set_savepointVector (sv : SavepointVector) (s : SerializerImpl) :=
  {| mode_ := mode_ s; directory_ := directory_ s; prefix_ := prefix_ s;
     metaDataFile_ := metaDataFile_ s; savepointVector_ := sv;
     fieldMap_ := fieldMap_ s; globalMetaInfo_ := globalMetaInfo_ s;
     archive_ := archive_ s |}.

Definition set_fieldMap (fm : FieldMap) (s : SerializerImpl) :=
  {| mode_ := mode_ s; directory_ := directory_ s; prefix_ := prefix_ s;
     metaDataFile_ := metaDataFile_ s; savepointVector_ := savepointVector_ s;
     fieldMap_ := fm; globalMetaInfo_ := globalMetaInfo_ s;
     archive_ := archive_ s |}.

Definition set_globalMetaInfo (m : MetaInfoMap) (s : SerializerImpl) :=
  {| mode_ := mode_ s; directory_ := directory_ s; prefix_ := prefix_ s;
     metaDataFile_ := metaDataFile_ s; savepointVector_ := savepointVector_ s;
     fieldMap_ := fieldMap_ s; globalMetaInfo_ := m;
     archive_ := archive_ s |}.

Definition set_archive (a : option BinaryArchive) (s : SerializerImpl) :=
  {| mode_ := mode_ s; directory_ := directory_ s; prefix_ := prefix_ s;
     metaDataFile_ := metaDataFile_ s; savepointVector_ := savepointVector_ s;
     fieldMap_ := fieldMap_ s; globalMetaInfo_ := globalMetaInfo_ s;
     archive_ := a |}.

(** The object and the disk it works on. *)
Record World := {
  this : SerializerImpl;
  disk : FileSystem;
}.

(** A member function: it may throw, and the state it leaves behind is
    there in either case. *)
Definition Exec (A : Type) : Type := World -> result A * World.

#[global] Instance Exec_ret : MRet Exec := fun A a w => (Ok a, w).
#[global] Instance Exec_bind : MBind Exec := fun A B f m w =>
  match m w with
  | (Ok a, w') => f a w'
  | (Err e, w') => (Err e, w')
  end.

Definition throw {A} (e : Error) : Exec A := fun w => (Err e, w).
Definition get_this : Exec SerializerImpl := fun w => (Ok (this w), w).
Definition modify_this (f : SerializerImpl -> SerializerImpl) : Exec unit :=
  fun w => (Ok (), {| this := f (this w); disk := disk w |}).

Definition lift {A} (r : result A) : Exec A := fun w => (r, w).

(** A call of a method [f] of a member object, read with [get] and
    written back with [set]. *)
Definition on_member {S A} (get : SerializerImpl -> S)
    (set : S -> SerializerImpl -> SerializerImpl) (f : S -> result A * S) : Exec A :=
  fun w =>
    let '(r, m) := f (get (this w)) in
    (r, {| this := set m (this w); disk := disk w |}).

(** [try { body } catch(Exception& e) { throw Exception(wrap e) }]. *)
Definition rethrow {A} (wrap : ExceptionKind -> ExceptionKind) (body : Exec A) : Exec A :=
  fun w =>
    match body w with
    | (Err (Exception k), w') => (Err (Exception (wrap k)), w')
    | r => r
    end.

(** [try { body } catch(Exception& e) { LOG(WARNING) }]. *)
Definition try_catch_log (body : Exec unit) : Exec unit :=
  fun w =>
    match body w with
    | (Err (Exception _), w') => (Ok (), w')
    | r => r
    end.

Section SerializerImpl.
Context `{!FloatConversion, !Codecs, !ArchiveOps, !VersionInfo}.

(** *** Calls into the archive through [archive_] *)

Definition raise_archive {A} (r : string + A) : result A :=
  match r with
  | inl msg => Err (Exception (ArchiveError msg))
  | inr a => Ok a
  end.

Definition with_archive {A}
    (f : BinaryArchive -> FileSystem -> (string + A) * BinaryArchive * FileSystem)
  : Exec A :=
  fun w =>
    match archive_ (this w) with
    | None => (Err NullArchive, w)
    | Some a =>
        let '(r, a', fs') := f a (disk w) in
        (raise_archive r, {| this := set_archive (Some a') (this w); disk := fs' |})
    end.

Definition archive_write (storageView : StorageView) (name : string) : Exec FieldID :=
  with_archive (Archive_write storageView name).

Definition archive_read (storageView : StorageView) (fieldID : FieldID)
  : Exec (list Byte.byte) :=
  with_archive (Archive_read storageView fieldID).

Definition archive_updateMetaData : Exec unit :=
  with_archive Archive_updateMetaData.

Definition archive_clear : Exec unit :=
  with_archive (fun a fs => let '(a', fs') := Archive_clear a fs in (inr (), a', fs')).

(** *** [SerializerImpl::clear] *)
Definition clear : Exec unit :=
  modify_this (set_savepointVector SavepointVector.empty);;
  modify_this (set_fieldMap ∅);;
  modify_this (set_globalMetaInfo ∅);;
  archive_clear.

(** *** [SerializerImpl::checkStorageView] *)

(** [a.size() != b.size() || !std::equal(a.begin(), a.end(), b.begin())] *)
Definition dims_differ (a b : list Z) : bool :=
  negb (length a =? length b)%nat || negb (forallb (fun p => p.1 =? p.2) (zip a b)).

Definition checkStorageView (name : string) (storageView : StorageView) : Exec unit :=
  s ← get_this;
  match fieldMap_ s !! name with
  | None => throw (Exception FieldNotRegistered)
  | Some fieldInfo =>
      if negb (bool_decide (fmi_type fieldInfo = view_type storageView)) then
        throw (Exception TypeMismatch)
      else if dims_differ (view_dims storageView) (fmi_dims fieldInfo) then
        throw (Exception ShapeMismatch)
      else mret ()
  end.

(** *** [SerializerImpl::toJSON] *)
Definition toJSON (s : SerializerImpl) : json :=
  let jsonNode := JNull in
  let jsonNode :=
    Json.assign "serialbox_version"
      (JInt (100 * SERIALBOX_VERSION_MAJOR + 10 * SERIALBOX_VERSION_MINOR
             + SERIALBOX_VERSION_PATCH)) jsonNode in
  let jsonNode := Json.assign "prefix" (JString (prefix_ s)) jsonNode in
  let jsonNode :=
    Json.assign "global_meta_info" (MetaInfoMap_toJSON (globalMetaInfo_ s)) jsonNode in
  let jsonNode :=
    Json.assign "savepoint_vector" (SavepointVector_toJSON (savepointVector_ s)) jsonNode in
  let jsonNode := Json.assign "field_map" (FieldMap.toJSON (fieldMap_ s)) jsonNode in
  jsonNode.

(** *** [SerializerImpl::updateMetaData] *)

(** [std::ofstream fs(file, out | trunc); if(!fs.is_open()) throw ...;
    fs << text << std::endl; fs.close()]. *)
Definition overwrite_file (file : Path) (d : FileData) : Exec unit :=
  fun w =>
    match Fs.open_trunc file (disk w) with
    | None => (Err (Exception CannotOpenFile), w)
    | Some fs1 => (Ok (), {| this := this w; disk := Fs.write file d fs1 |})
    end.

Definition updateMetaData : Exec unit :=
  s ← get_this;
  let jsonNode := toJSON s in
  overwrite_file (metaDataFile_ s) (FileJson jsonNode);;
  archive_updateMetaData.

(** *** [SerializerImpl::write] *)
Definition write (name : string) (savepoint : SavepointImpl)
    (storageView : StorageView) : Exec unit :=
  s ← get_this;
  if bool_decide (mode_ s = Read) then throw (Exception SerializerNotWritable)
  else
    (* 1) consistency checks *)
    checkStorageView name storageView;;
    (* 2) locate the savepoint and register it if necessary *)
    savepointIdx ←
      (let savepointIdx := SavepointVector.find savepoint (savepointVector_ s) in
       if savepointIdx =? -1 then
         let '(idx, sv) := SavepointVector.insert savepoint (savepointVector_ s) in
         modify_this (set_savepointVector sv);; mret idx
       else mret savepointIdx);
    (* 3) can the field be added to the savepoint? *)
    s ← get_this;
    if SavepointVector.hasField savepointIdx name (savepointVector_ s) then
      throw (Exception FieldAlreadyAtSavepoint)
    else
      (* 4) data serialisation by the archive *)
      fieldID ← archive_write storageView name;
      (* 5) register the FieldID within the savepoint *)
      on_member savepointVector_ set_savepointVector
        (SavepointVector.addField savepointIdx fieldID);;
      (* 6) update the meta-data on disk *)
      updateMetaData.

(** *** [SerializerImpl::read] *)
Definition read (name : string) (savepoint : SavepointImpl)
    (storageView : StorageView) : Exec (list Byte.byte) :=
  s ← get_this;
  if negb (bool_decide (mode_ s = Read)) then throw (Exception SerializerNotReadable)
  else
    checkStorageView name storageView;;
    let savepointIdx := SavepointVector.find savepoint (savepointVector_ s) in
    if savepointIdx =? -1 then throw (Exception SavepointNotFound)
    else
      fieldID ← lift (SavepointVector.getFieldID savepointIdx name (savepointVector_ s));
      archive_read storageView fieldID.

(** *** [SerializerImpl::constructMetaDataFromJson] *)

(** The body of the [try] block. *)
Definition parseMetaData (jsonNode : json) : Exec unit :=
  if negb (Json.count "serialbox_version" jsonNode) then
    throw (Exception VersionNodeMissing)
  else
    serialboxVersion ←
      lift (JsonAccess.at_key "serialbox_version" jsonNode ≫= JsonAccess.to_int);
    if negb (Version_match serialboxVersion) then throw (Exception VersionMismatch)
    else if negb (Json.count "prefix" jsonNode) then throw (Exception PrefixNodeMissing)
    else
      s ← get_this;
      if negb (Json.eq_string (Json.member "prefix" jsonNode) (prefix_ s)) then
        throw (Exception PrefixMismatch)
      else
        (if Json.count "global_meta_info" jsonNode then
           on_member globalMetaInfo_ set_globalMetaInfo
             (MetaInfoMap_fromJSON (Json.member "global_meta_info" jsonNode))
         else mret ());;
        (if Json.count "savepoint_vector" jsonNode then
           on_member savepointVector_ set_savepointVector
             (SavepointVector_fromJSON (Json.member "savepoint_vector" jsonNode))
         else mret ());;
        (if Json.count "field_map" jsonNode then
           on_member fieldMap_ set_fieldMap
             (FieldMap.fromJSON (Json.member "field_map" jsonNode))
         else mret ()).

Definition constructMetaDataFromJson : Exec unit :=
  fun w =>
    let s := this w in
    if negb (Fs.exists_file (metaDataFile_ s) (disk w)) then
      if negb (bool_decide (mode_ s = Read)) then (Ok (), w)
      else (Err (Exception MetadataNotFound), w)
    else
      match Fs.parse (Fs.open_read (metaDataFile_ s) (disk w)) with
      | None => (Err (Exception JsonParserError), w)
      | Some jsonNode => rethrow ErrorWhileParsing (parseMetaData jsonNode) w
      end.

(** *** [SerializerImpl::constructArchive] *)
Definition constructArchive (archiveName : string) : Exec unit :=
  fun w =>
    let s := this w in
    let '(r, fs') := Archive_create archiveName (mode_ s) (directory_ s) (prefix_ s) (disk w) in
    match raise_archive r with
    | Ok a => (Ok (), {| this := set_archive (Some a) s; disk := fs' |})
    | Err e => (Err e, {| this := s; disk := fs' |})
    end.

(** *** [SerializerImpl::upgradeMetaData] *)

(** "Try to guess the precision of the floating point type": the
    non-const accesses [oldJson["FieldsTable"][0]["__elementtype"]] may
    create the member, so the document is returned as well. *)
Definition deduceFloatType (oldJson : json) : result (TypeID * json) :=
  if Json.count "FieldsTable" oldJson
     && (0 <? Json.size (Json.member "FieldsTable" oldJson))%nat then
    match Json.member "FieldsTable" oldJson with
    | JArray (entry :: rest) =>
        '(elementtype, entry') ← JsonAccess.subscript_key "__elementtype" entry;
        Ok (if Json.eq_string elementtype "float" then Float32 else Float64,
            Json.assign "FieldsTable" (JArray (entry' :: rest)) oldJson)
    | _ => Err JsonException
    end
  else Ok (Float64, oldJson).

(** The chain [is_string / is_boolean / is_number_integer /
    is_number_float / else throw] that types a legacy value. *)
Definition deduceValue (floatType : TypeID) (value : json) : result MetaInfoValue :=
  if Json.is_string value then
    match value with JString s => Ok (VString s) | _ => Err JsonException end
  else if Json.is_boolean value then
    match value with JBool b => Ok (VBool b) | _ => Err JsonException end
  else if Json.is_number_integer value then
    v ← JsonAccess.to_int value; Ok (VInt32 v)
  else if Json.is_number_float value then
    match value with
    | JFloat d =>
        if bool_decide (floatType = Float32) then Ok (VFloat32 (float_of_double d))
        else Ok (VFloat64 d)
    | _ => Err JsonException
    end
  else Err (Exception UpgradeTypeInferenceFailure).

(** Modelled from the spec: [addGlobalMetaInfo] and
    [SavepointImpl::addMetaInfo] are declared in headers that are not part
    of the sources. Meta-info map "insert (fails if key exists)"; the
    failure is raised as an exception. *)
Definition addMetaInfo (key : string) (value : MetaInfoValue) (m : MetaInfoMap)
  : result unit * MetaInfoMap :=
  match MetaInfoMap.insert key value m with
  | (true, m') => (Ok (), m')
  | (false, m') => (Err (Exception MetaInfoKeyExists), m')
  end.

(** The loop over [oldJson["GlobalMetainfo"]], and the one over a
    savepoint's entry of the offset table: keys starting with "__" are
    skipped. *)
Fixpoint upgradeMetaInfo (floatType : TypeID) (its : list (string * json))
    (m : MetaInfoMap) : result unit * MetaInfoMap :=
  match its with
  | [] => (Ok (), m)
  | (key, value) :: rest =>
      if negb (String.prefix "__" key) then
        match deduceValue floatType value with
        | Err e => (Err e, m)
        | Ok v =>
            match addMetaInfo key v m with
            | (Ok _, m') => upgradeMetaInfo floatType rest m'
            | (Err e, m') => (Err e, m')
            end
        end
      else upgradeMetaInfo floatType rest m
  end.

(** "Iterate field meta-info": every key of the entry is inserted. *)
Fixpoint upgradeFieldMetaInfo (floatType : TypeID) (its : list (string * json))
    (metaInfo : MetaInfoMap) : result MetaInfoMap :=
  match its with
  | [] => Ok metaInfo
  | (key, value) :: rest =>
      v ← deduceValue floatType value;
      upgradeFieldMetaInfo floatType rest (MetaInfoMap.insert key v metaInfo).2
  end.

Definition translateElementType (elementtype : string) : TypeID :=
  let type := Float64 in
  if String.eqb elementtype "int" then Int32
  else if String.eqb elementtype "float" then Float32
  else if String.eqb elementtype "double" then Float64
  else type.

(** One entry of the fields table, up to the call of [fieldMap_.insert]. *)
Definition upgradeFieldInfo (floatType : TypeID) (fieldInfo : json)
  : result (string * FieldMetaInfo) :=
  name ← JsonAccess.at_key "__name" fieldInfo ≫= JsonAccess.to_string;
  elementtype ← JsonAccess.at_key "__elementtype" fieldInfo ≫= JsonAccess.to_string;
  let type := translateElementType elementtype in
  isize ← JsonAccess.at_key "__isize" fieldInfo ≫= JsonAccess.to_int;
  jsize ← JsonAccess.at_key "__jsize" fieldInfo ≫= JsonAccess.to_int;
  ksize ← JsonAccess.at_key "__ksize" fieldInfo ≫= JsonAccess.to_int;
  let dims := [isize; jsize; ksize] in
  dims ← (if Json.count "__lsize" fieldInfo then
            lsize ← JsonAccess.at_key "__lsize" fieldInfo ≫= JsonAccess.to_int;
            Ok (dims ++ [lsize])%list
          else Ok dims);
  its ← JsonAccess.items fieldInfo;
  metaInfo ← upgradeFieldMetaInfo floatType its ∅;
  Ok (name, {| fmi_type := type; fmi_dims := dims; fmi_metaInfo := metaInfo |}).

(** The loop over [oldJson["FieldsTable"]]. *)
Fixpoint upgradeFieldsTable (floatType : TypeID) (fieldsTable : list json)
    (fm : FieldMap) : result unit * FieldMap :=
  match fieldsTable with
  | [] => (Ok (), fm)
  | fieldInfo :: rest =>
      match upgradeFieldInfo floatType fieldInfo with
      | Err e => (Err e, fm)
      | Ok (name, info) =>
          upgradeFieldsTable floatType rest (FieldMap.insert name info fm).2
      end
  end.

(** "Check if field has already been serialized by comparing the
    checksum": the first index with that checksum. *)
Fixpoint findChecksum (i : Z) (c : string) (t : FieldOffsetTable) : option Z :=
  match t with
  | [] => None
  | e :: t' => if String.eqb c (checksum e) then Some i else findChecksum (i + 1) c t'
  end.

(** One member of [__offsets]: the id of the field and the updated field
    table ("this mimics the write operation of the Binary archive"). *)
Definition upgradeOffset (fieldname : string) (fileOffset : FileOffsetType)
    (fieldTable : FieldTable) : result (FieldID * FieldTable) :=
  match fieldTable !! fieldname with
  | Some fieldOffsetTable =>
      match findChecksum 0 (checksum fileOffset) fieldOffsetTable with
      | Some i => Ok ({| fid_name := fieldname; fid_id := i |}, fieldTable)
      | None =>
          if offset fileOffset =? 0 then Err CheckFailed
          else Ok ({| fid_name := fieldname;
                      fid_id := Z.of_nat (length fieldOffsetTable) |},
                   <[fieldname := (fieldOffsetTable ++ [fileOffset])%list]> fieldTable)
      end
  | None =>
      if negb (offset fileOffset =? 0) then Err CheckFailed
      else Ok ({| fid_name := fieldname; fid_id := 0 |},
               <[fieldname := [fileOffset]]> fieldTable)
  end.

(** The loop over [offsetTableEntry["__offsets"]]. *)
Fixpoint upgradeOffsets (savepointIdx : Z) (its : list (string * json))
    (st : SavepointVector * FieldTable) : result unit * (SavepointVector * FieldTable) :=
  match its with
  | [] => (Ok (), st)
  | (fieldname, value) :: rest =>
      match (off ← JsonAccess.at_index 0 value ≫= JsonAccess.to_int64;
             chk ← JsonAccess.at_index 1 value ≫= JsonAccess.to_string;
             upgradeOffset fieldname {| offset := off; checksum := chk |} st.2) with
      | Err e => (Err e, st)
      | Ok (fieldID, fieldTable') =>
          match SavepointVector.addField savepointIdx fieldID st.1 with
          | (Ok _, sv') => upgradeOffsets savepointIdx rest (sv', fieldTable')
          | (Err e, sv') => (Err e, (sv', fieldTable'))
          end
      end
  end.

(** The savepoint built from an entry of the offset table. *)
Definition upgradeSavepoint (floatType : TypeID) (offsetTableEntry : json)
  : result SavepointImpl :=
  name ← JsonAccess.at_key "__name" offsetTableEntry ≫= JsonAccess.to_string;
  its ← JsonAccess.items offsetTableEntry;
  match upgradeMetaInfo floatType its ∅ with
  | (Ok _, m) => Ok {| sp_name := name; sp_metaInfo := m |}
  | (Err e, _) => Err e
  end.

(** The loop over [oldJson["OffsetTable"]]. *)
Fixpoint upgradeOffsetTable (floatType : TypeID) (offsetTable : list json)
    (st : SavepointVector * FieldTable) : result unit * (SavepointVector * FieldTable) :=
  match offsetTable with
  | [] => (Ok (), st)
  | offsetTableEntry :: rest =>
      match upgradeSavepoint floatType offsetTableEntry with
      | Err e => (Err e, st)
      | Ok savepoint =>
          let '(savepointIdx, sv) := SavepointVector.insert savepoint st.1 in
          if savepointIdx =? -1 then (Err CheckFailed, (sv, st.2))
          else
            match JsonAccess.at_key "__offsets" offsetTableEntry ≫= JsonAccess.items with
            | Err e => (Err e, (sv, st.2))
            | Ok its =>
                match upgradeOffsets savepointIdx its (sv, st.2) with
                | (Ok _, st') => upgradeOffsetTable floatType rest st'
                | r => r
                end
            end
      end
  end.

(** "Upgrade MetaInfo". *)
Definition upgradeGlobalMetaInfo (floatType : TypeID) (oldJson : json) : Exec unit :=
  if Json.count "GlobalMetainfo" oldJson then
    its ← lift (JsonAccess.items (Json.member "GlobalMetainfo" oldJson));
    on_member globalMetaInfo_ set_globalMetaInfo (upgradeMetaInfo floatType its)
  else mret ().

(** "Upgrade FieldsTable". *)
Definition upgradeFields (floatType : TypeID) (oldJson : json) : Exec unit :=
  if Json.count "FieldsTable" oldJson then
    fieldsTable ← lift (JsonAccess.elements (Json.member "FieldsTable" oldJson));
    on_member fieldMap_ set_fieldMap (upgradeFieldsTable floatType fieldsTable)
  else mret ().

(** "Upgrade SavepointVector and ArchiveMetaData": the archive is
    constructed, and the loop works on the savepoint vector and on the
    field table of the archive. *)
Definition upgradeSavepoints (floatType : TypeID) (oldJson : json) : Exec unit :=
  s ← get_this;
  modify_this (set_archive
                 (Some (BinaryArchive_new (mode_ s) (directory_ s) (prefix_ s))));;
  if Json.count "OffsetTable" oldJson then
    offsetTable ← lift (JsonAccess.elements (Json.member "OffsetTable" oldJson));
    on_member
      (fun s => (savepointVector_ s, from_option fieldTable ∅ (archive_ s)))
      (fun st s =>
         set_archive (set_fieldTable st.2 <$> archive_ s)
           (set_savepointVector st.1 s))
      (upgradeOffsetTable floatType offsetTable)
  else mret ().

(** The upgrade of the parsed legacy document. *)
Definition upgradeFromJson (oldJson : json) : Exec unit :=
  '(globalMetaInfoFloatType, oldJson) ← lift (deduceFloatType oldJson);
  upgradeGlobalMetaInfo globalMetaInfoFloatType oldJson;;
  upgradeFields globalMetaInfoFloatType oldJson;;
  upgradeSavepoints globalMetaInfoFloatType oldJson.

Definition oldMetaDataFile (s : SerializerImpl) : Path :=
  (directory_ s, (prefix_ s ++ ".json")%string).

(** "Check if upgrade is necessary": the legacy document exists, and the
    archive has not been upgraded already. *)
Definition upgradeNecessary (s : SerializerImpl) (fs : FileSystem) : bool :=
  if negb (Fs.exists_file (oldMetaDataFile s) fs) then false
  else if Fs.exists_file (metaDataFile_ s) fs
          && (Fs.last_write_time (oldMetaDataFile s) fs
              <? Fs.last_write_time (metaDataFile_ s) fs) then false
  else true.

Definition upgradeMetaData : Exec bool :=
  fun w =>
    let s := this w in
    if negb (upgradeNecessary s (disk w)) then (Ok false, w)
    else if negb (bool_decide (mode_ s = Read)) then (Err (Exception UpgradeReadOnly), w)
    else
      match Fs.open_read (oldMetaDataFile s) (disk w) with
      | None => (Err (Exception UpgradeCannotOpen), w)
      | Some d =>
          match Fs.parse (Some d) with
          | None => (Err JsonException, w)
          | Some oldJson =>
              (upgradeFromJson oldJson;;
               try_catch_log updateMetaData;;
               mret true) w
          end
      end.

(** *** The constructor *)

Definition initial (mode : OpenModeKind) (directory prefix : string) : SerializerImpl :=
  {| mode_ := mode; directory_ := directory; prefix_ := prefix;
     metaDataFile_ := (directory, ("MetaData-" ++ prefix ++ ".json")%string);
     savepointVector_ := SavepointVector.empty; fieldMap_ := ∅;
     globalMetaInfo_ := ∅; archive_ := None |}.

(** "Validate integrity of directory". *)
Definition checkDirectory : Exec unit :=
  fun w =>
    if bool_decide (mode_ (this w) = Read)
       && negb (Fs.exists_dir (directory_ (this w)) (disk w))
    then (Err (Exception DirectoryMissing), w) else (Ok (), w).

(** "If mode is writing drop all files". *)
Definition clearIfWriting : Exec unit :=
  s ← get_this;
  if bool_decide (mode_ s = Write) then clear else mret ().

Definition construct (archiveName : string) : Exec unit :=
  checkDirectory;;
  upgraded ← upgradeMetaData;
  (if negb upgraded then
     constructMetaDataFromJson;;
     constructArchive archiveName
   else mret ());;
  clearIfWriting.

(** [SerializerImpl(mode, directory, prefix, archiveName)]: the object is
    there only when the constructor returns. *)
Definition SerializerImpl_new (mode : OpenModeKind) (directory prefix archiveName : string)
    (fs : FileSystem) : result SerializerImpl * FileSystem :=
  match construct archiveName {| this := initial mode directory prefix; disk := fs |} with
  | (Ok _, w) => (Ok (this w), disk w)
  | (Err e, w) => (Err e, disk w)
  end.

End SerializerImpl.

(** ** Notions used by the properties *)

(** The errors [write] raises before it changes anything: the mode
    rejection, the storage-view checks and the duplicate field. *)
Definition is_rejection (e : Error) : bool :=
  match e with
  | Exception SerializerNotWritable
  | Exception FieldNotRegistered
  | Exception TypeMismatch
  | Exception ShapeMismatch
  | Exception FieldAlreadyAtSavepoint => true
  | _ => false
  end.

(** The archive answers a write with the FieldID of the field written
    (specification: "return FieldID (name, k)"). *)
Definition archive_names_field `{!ArchiveOps} : Prop :=
  forall view name a fs fid a' fs',
    Archive_write view name a fs = (inr fid, a', fs') -> fid_name fid = name.

(** The discipline of an atomic rewrite of [target], read off the log of
    the disk: the file is replaced by renaming a sibling temporary file
    over it, and is never opened for writing or written itself. *)
Definition rewritten_by_rename (target : Path) (log : list FsOp) : Prop :=
  (exists tmp, tmp <> target /\ tmp.1 = target.1 /\ (OpRename tmp target ∈ log))
  /\ (OpOpenTrunc target ∉ log)
  /\ forall d, OpWrite target d ∉ log.

(** The value a legacy JSON float gets under the deduced float type. *)
Definition float_value (floatType : TypeID) (d : float64) : MetaInfoValue :=
  if bool_decide (floatType = Float32) then VFloat32 (float_of_double d)
  else VFloat64 d.

(** ** The remaining functions of SerializerImpl.cpp *)

Module internal.

(** [internal::vecToString] on a vector of [int]: [ss << vec[i]] prints the
    decimal form. *)
Definition vecToString (vec : list Z) : string :=
  let ss := "" in
  if negb (bool_decide (vec = [])) then
    let ss :=
      foldl (fun ss i => ss +:+ pretty (default 0 (vec !! i)) +:+ ", ")
            ss (seq 0 (length vec - 1)) in
    ss +:+ pretty (default 0 (last vec))
  else ss.

End internal.

(** [SerializerImpl::fieldnames]: the keys of the field map, in the order
    of its iteration. *)
Definition fieldnames (s : SerializerImpl) : list string :=
  foldl (fun fields it => (fields ++ [it.1])%list) [] (map_to_list (fieldMap_ s)).

(** ** Further notions used by the properties *)

(** The typing of a legacy value, by the kind of its JSON value: "string ->
    String, boolean -> Boolean, integer -> Int32, float -> inferred tag";
    no type for null, arrays and objects. *)
Definition typed_legacy_value (floatType : TypeID) (value : json) : option MetaInfoValue :=
  match value with
  | JString s => Some (VString s)
  | JBool b => Some (VBool b)
  | JInt z => Some (VInt32 (wrap_int32 z))
  | JFloat d => Some (float_value floatType d)
  | _ => None
  end.

(** The field meta-info a member of "field_map" stands for, when its JSON
    node is well-formed. *)
Definition decoded_member `{!Codecs} (node : json) : option FieldMetaInfo :=
  match FieldMetaInfo_fromJSON node with
  | Ok info => Some info
  | Err _ => None
  end.

(** Every FieldID recorded in a savepoint vector is filed under its own
    name and is an index into the offset table of that field. *)
Definition field_ids_resolve (sv : SavepointVector) (t : FieldTable) : Prop :=
  forall sp fields name fid,
    (sp, fields) ∈ sv -> fields !! name = Some fid ->
    fid_name fid = name
    /\ 0 <= fid_id fid
    /\ exists offsets, t !! name = Some offsets
                       /\ (Z.to_nat (fid_id fid) < length offsets)%nat.

(** The checksums of an offset table are pairwise distinct. *)
Definition unique_checksums (t : FieldTable) : Prop :=
  forall name offsets, t !! name = Some offsets -> NoDup (checksum <$> offsets).

(** ** A reference instantiation of the absent collaborators

    The binary archive, the JSON codecs and the version rule as the
    specification describes them. The serializer is run on them for the
    concrete scenarios below. *)

Module Reference.

(** *** Binary archive (specification, section 4.4) *)

Definition hex_digit (n : N) : ascii :=
  nth (N.to_nat n) (list_ascii_of_string "0123456789abcdef") "0"%char.

Definition hex_byte (b : Byte.byte) : string :=
  let n := Byte.to_N b in
  String (hex_digit (n / 16)) (String (hex_digit (n mod 16)) EmptyString).

(** Modelled from the spec: the digest algorithm is not part of the
    sources. "A strong digest rendered as lowercase hexadecimal",
    idealised as the hexadecimal rendering of the payload itself, which
    has no collisions. *)
Definition digest (B : list Byte.byte) : string :=
  String.concat "" (map hex_byte B).

Definition dataFile (a : BinaryArchive) (name : string) : Path :=
  (ba_directory a, (ba_prefix a ++ "_" ++ name ++ ".dat")%string).

Definition archiveMetaDataFile (directory prefix : string) : Path :=
  (directory, ("ArchiveMetaData-" ++ prefix ++ ".json")%string).

Definition file_bytes (p : Path) (fs : FileSystem) : list Byte.byte :=
  match fs_files fs !! p with
  | Some {| file_data := FileBytes b |} => b
  | _ => []
  end.

(** Open for append, write the buffer at the end of the file. *)
Definition append (p : Path) (B : list Byte.byte) (fs : FileSystem) : option FileSystem :=
  if bool_decide (p ∈ fs_no_write fs) || negb (Fs.exists_dir p.1 fs) then None
  else Some (Fs.put p (FileBytes (file_bytes p fs ++ B)) (OpOpenAppend p) fs).

(** Modelled from the spec: BinaryArchive.cpp is not part of the sources.
    "Write(view, name)": digest the buffer; on a checksum already in the
    field's table return its index without writing; otherwise append the
    buffer to the data file, record [(offset, checksum)] and return the
    new last index. *)
Definition BinaryArchive_write (view : StorageView) (name : string) (a : BinaryArchive)
    (fs : FileSystem) : (string + FieldID) * BinaryArchive * FileSystem :=
  let B := view_data view in
  let c := digest B in
  let T := default [] (fieldTable a !! name) in
  match findChecksum 0 c T with
  | Some k => (inr {| fid_name := name; fid_id := k |}, a, fs)
  | None =>
      match append (dataFile a name) B fs with
      | None => (inl "IOError", a, fs)
      | Some fs' =>
          let entry := {| offset := Z.of_nat (length (file_bytes (dataFile a name) fs));
                          checksum := c |} in
          (inr {| fid_name := name; fid_id := Z.of_nat (length T) |},
           set_fieldTable (<[name := (T ++ [entry])%list]> (fieldTable a)) a, fs')
      end
  end.

(** Modelled from the spec: "Read(view, FieldID)": resolve the table
    entry (ArchiveEntryNotFound), read the view's byte count at the offset
    (ShortRead), verify the digest (ChecksumMismatch). *)
Definition BinaryArchive_read (view : StorageView) (fid : FieldID) (a : BinaryArchive)
    (fs : FileSystem) : (string + list Byte.byte) * BinaryArchive * FileSystem :=
  let T := default [] (fieldTable a !! fid_name fid) in
  match (if fid_id fid <? 0 then None else T !! Z.to_nat (fid_id fid)) with
  | None => (inl "ArchiveEntryNotFound", a, fs)
  | Some e =>
      let n := length (view_data view) in
      let B := take n (drop (Z.to_nat (offset e)) (file_bytes (dataFile a (fid_name fid)) fs)) in
      if negb (length B =? n)%nat then (inl "ShortRead", a, fs)
      else if negb (String.eqb (digest B) (checksum e)) then (inl "ChecksumMismatch", a, fs)
      else (inr B, a, fs)
  end.

Definition offsets_toJSON (T : FieldOffsetTable) : json :=
  JArray (map (fun e => JArray [JInt (offset e); JString (checksum e)]) T).

(** Modelled from the spec: the archive metadata document,
    [{ "archive_name": "Binary", "archive_version": <int>,
       "fields_table": { "<fieldname>": [[offset, "checksum"], ...] } }]. *)
Definition BinaryArchive_toJSON (a : BinaryArchive) : json :=
  JObject
    [("archive_name", JString "Binary");
     ("archive_version", JInt 0);
     ("fields_table",
      JObject (foldl (fun o it => Json.obj_set it.1 (offsets_toJSON it.2) o) []
                 (map_to_list (fieldTable a))))].

(** Modelled from the spec: "each metadata JSON file is rewritten by (a)
    writing to a sibling temporary file, (b) flushing, and (c) renaming
    over the target". *)
Definition BinaryArchive_updateMetaData (a : BinaryArchive) (fs : FileSystem)
  : (string + unit) * BinaryArchive * FileSystem :=
  let target := archiveMetaDataFile (ba_directory a) (ba_prefix a) in
  let tmp := (target.1, (target.2 ++ ".tmp")%string) in
  match Fs.open_trunc tmp fs with
  | None => (inl "IOError", a, fs)
  | Some fs1 =>
      let fs2 := Fs.write tmp (FileJson (BinaryArchive_toJSON a)) fs1 in
      match Fs.rename tmp target fs2 with
      | None => (inl "IOError", a, fs2)
      | Some fs3 => (inr (), a, fs3)
      end
  end.

(** Modelled from the spec: "Clear: truncate per-field data files and
    empty T". *)
Definition BinaryArchive_clear (a : BinaryArchive) (fs : FileSystem) : BinaryArchive * FileSystem :=
  (set_fieldTable ∅ a,
   foldl (fun fs it =>
            default fs (Fs.open_trunc (dataFile a it.1) fs))
         fs (map_to_list (fieldTable a))).

Definition offsets_fromJSON (j : json) : option FieldOffsetTable :=
  match j with
  | JArray l =>
      mapM (fun e =>
              match e with
              | JArray [JInt o; JString c] => Some {| offset := o; checksum := c |}
              | _ => None
              end) l
  | _ => None
  end.

Definition fieldTable_fromJSON (j : json) : option FieldTable :=
  match Json.member "fields_table" j with
  | JObject o =>
      list_to_map <$> mapM (fun it => pair it.1 <$> offsets_fromJSON it.2) o
  | JNull => Some ∅
  | _ => None
  end.

Definition mkdir (d : string) (fs : FileSystem) : FileSystem :=
  {| fs_dirs := {[d]} ∪ fs_dirs fs; fs_files := fs_files fs;
     fs_no_write := fs_no_write fs; fs_no_read := fs_no_read fs;
     fs_clock := fs_clock fs; fs_log := fs_log fs ++ [OpMkdir d] |}.

(** Modelled from the spec: the open modes. "Read: directory must exist";
    "Write: directory is created if absent"; "Append: directory must
    exist; metadata is parsed if present, else created empty". Only the
    "Binary" archive is known to the factory. *)
Definition ArchiveFactory_create (archiveName : string) (mode : OpenModeKind)
    (directory prefix : string) (fs : FileSystem)
  : (string + BinaryArchive) * FileSystem :=
  if negb (String.eqb archiveName "Binary") then (inl "unknown archive", fs)
  else
    let fs' := if bool_decide (mode = Write) && negb (Fs.exists_dir directory fs)
               then mkdir directory fs else fs in
    if negb (Fs.exists_dir directory fs') then (inl "DirectoryMissing", fs')
    else
      match Fs.open_read (archiveMetaDataFile directory prefix) fs' with
      | None =>
          if bool_decide (mode = Read) then (inl "MetadataNotFound", fs')
          else (inr (BinaryArchive_new mode directory prefix), fs')
      | Some d =>
          match Fs.parse (Some d) ≫= fieldTable_fromJSON with
          | None => (inl "MetadataCorrupt", fs')
          | Some t => (inr (set_fieldTable t (BinaryArchive_new mode directory prefix)), fs')
          end
      end.

#[export] Instance archiveOps : ArchiveOps :=
  {| Archive_create := ArchiveFactory_create;
     Archive_write := BinaryArchive_write;
     Archive_read := BinaryArchive_read;
     Archive_updateMetaData := BinaryArchive_updateMetaData;
     Archive_clear := BinaryArchive_clear |}.

(** *** JSON codecs (specification, sections 4.3 and 6) *)

Definition type_tag (t : TypeID) : string :=
  match t with
  | Boolean => "Boolean" | Int32 => "Int32" | Int64 => "Int64"
  | Float32 => "Float32" | Float64 => "Float64" | String_ => "String"
  end.

Definition type_of_tag (s : string) : option TypeID :=
  List.find (fun t => String.eqb (type_tag t) s)
    [Boolean; Int32; Int64; Float32; Float64; String_].

(** Modelled from the spec: MetaInfoMap.cpp is not part of the sources.
    "M.toJSON encodes each value as [ "<type-tag>", <json-value> ],
    preserving the element tag explicitly". *)
Definition value_toJSON (v : MetaInfoValue) : json :=
  JArray [JString (type_tag (MetaInfoValue_type v));
          match v with
          | VBool b => JBool b
          | VInt32 z | VInt64 z => JInt z
          | VFloat32 (float_of_double d) | VFloat64 d => JFloat d
          | VString s => JString s
          end].

Definition value_fromJSON (j : json) : option MetaInfoValue :=
  match j with
  | JArray [JString tag; payload] =>
      match type_of_tag tag, payload with
      | Some Boolean, JBool b => Some (VBool b)
      | Some Int32, JInt z => Some (VInt32 z)
      | Some Int64, JInt z => Some (VInt64 z)
      | Some Float32, JFloat d => Some (VFloat32 (float_of_double d))
      | Some Float64, JFloat d => Some (VFloat64 d)
      | Some String_, JString s => Some (VString s)
      | _, _ => None
      end
  | _ => None
  end.

Definition metaInfo_toJSON (m : MetaInfoMap) : json :=
  foldl (fun j it => Json.assign it.1 (value_toJSON it.2) j) JNull (map_to_list m).

Definition decoded {A} (o : option A) : result A :=
  match o with Some a => Ok a | None => Err (Exception CodecError) end.

Definition metaInfo_decode (j : json) : result MetaInfoMap :=
  its ← JsonAccess.items j;
  list_to_map <$> decoded (mapM (fun it => pair it.1 <$> value_fromJSON it.2) its).

Definition in_place {S} (r : result S) (self : S) : result unit * S :=
  match r with Ok x => (Ok (), x) | Err e => (Err e, self) end.

Definition metaInfo_fromJSON (j : json) (self : MetaInfoMap) : result unit * MetaInfoMap :=
  in_place (metaInfo_decode j) ∅.

(** Modelled from the spec: FieldMetaInfo.cpp is not part of the sources,
    and the spec fixes no layout for FM.toJSON; the three components
    "(type, dims, meta)" are stored under their names. *)
Definition fieldMetaInfo_toJSON (x : FieldMetaInfo) : json :=
  JObject [("dims", JArray (map JInt (fmi_dims x)));
           ("meta_info", metaInfo_toJSON (fmi_metaInfo x));
           ("type", JString (type_tag (fmi_type x)))].

Definition fieldMetaInfo_fromJSON (j : json) : result FieldMetaInfo :=
  match j with
  | JObject [("dims", JArray ds); ("meta_info", mi); ("type", JString tag)] =>
      dims ← decoded (mapM (fun d => match d with JInt z => Some z | _ => None end) ds);
      meta ← metaInfo_decode mi;
      type ← decoded (type_of_tag tag);
      Ok {| fmi_type := type; fmi_dims := dims; fmi_metaInfo := meta |}
  | _ => Err (Exception CodecError)
  end.

Definition savepoint_toJSON (sp : SavepointImpl) : json :=
  JObject [("meta_info", metaInfo_toJSON (sp_metaInfo sp)); ("name", JString (sp_name sp))].

Definition fields_toJSON (f : gmap string FieldID) : json :=
  foldl (fun j it => Json.assign it.1 (JArray [JInt (fid_id it.2)]) j) JNull (map_to_list f).

(** Modelled from the spec: "JSON form is an ordered array of objects
    { "savepoint": SP.toJSON(), "fields": { name: [id], ... } }; array
    position defines the stable index". *)
Definition savepointVector_toJSON (sv : SavepointVector) : json :=
  JArray (map (fun it => JObject [("fields", fields_toJSON it.2);
                                  ("savepoint", savepoint_toJSON it.1)]) sv).

Definition savepoint_decode (j : json) : result SavepointImpl :=
  match j with
  | JObject [("meta_info", mi); ("name", JString n)] =>
      m ← metaInfo_decode mi; Ok {| sp_name := n; sp_metaInfo := m |}
  | _ => Err (Exception CodecError)
  end.

Definition fields_decode (j : json) : result (gmap string FieldID) :=
  its ← JsonAccess.items j;
  list_to_map <$>
    decoded (mapM (fun it => match it.2 with
                             | JArray [JInt i] => Some (it.1, {| fid_name := it.1; fid_id := i |})
                             | _ => None
                             end) its).

Fixpoint savepointVector_decode (l : list json) : result SavepointVector :=
  match l with
  | [] => Ok SavepointVector.empty
  | JObject [("fields", f); ("savepoint", sp)] :: rest =>
      sp ← savepoint_decode sp;
      f ← fields_decode f;
      sv ← savepointVector_decode rest;
      Ok ((sp, f) :: sv)
  | _ => Err (Exception CodecError)
  end.

Definition savepointVector_fromJSON (j : json) (self : SavepointVector)
  : result unit * SavepointVector :=
  in_place (JsonAccess.elements j ≫= savepointVector_decode) SavepointVector.empty.

#[export] Instance codecs : Codecs :=
  {| MetaInfoMap_toJSON := metaInfo_toJSON;
     MetaInfoMap_fromJSON := metaInfo_fromJSON;
     SavepointVector_toJSON := savepointVector_toJSON;
     SavepointVector_fromJSON := savepointVector_fromJSON;
     FieldMetaInfo_toJSON := fieldMetaInfo_toJSON;
     FieldMetaInfo_fromJSON := fieldMetaInfo_fromJSON |}.

(** Modelled from the spec: Version.h is not part of the sources. The
    version is "100*major + 10*minor + patch"; the compatibility rule is the
    one of the version-gate scenario, "a library compatible only with
    >= 200". *)
#[export] Instance versionInfo : VersionInfo :=
  {| SERIALBOX_VERSION_MAJOR := 2;
     SERIALBOX_VERSION_MINOR := 0;
     SERIALBOX_VERSION_PATCH := 0;
     Version_match := fun v => 200 <=? v |}.

(** The conversion of an out-of-range double on x86-64 ([cvttsd2si]):
    the smallest integer of the target type. *)
#[export] Instance floatConversion : FloatConversion :=
  {| int_of_double_overflow := fun _ => - 2 ^ 31;
     int64_of_double_overflow := fun _ => - 2 ^ 63 |}.

End Reference.

(** ** Concrete scenarios *)

Module Scenario.
Import Reference.

Definition emptyDisk : FileSystem :=
  {| fs_dirs := {["d"]}; fs_files := ∅; fs_no_write := ∅; fs_no_read := ∅;
     fs_clock := 0; fs_log := [] |}.

(** A Float32 field [f] of shape [2], the savepoint [s1], and the view
    holding [1.0, 2.0]. *)
Definition f_info : FieldMetaInfo :=
  {| fmi_type := Float32; fmi_dims := [2]; fmi_metaInfo := ∅ |}.

Definition fields : FieldMap := {["f" := f_info]}.

Definition s1 : SavepointImpl := {| sp_name := "s1"; sp_metaInfo := ∅ |}.

Definition view12 : StorageView :=
  {| view_type := Float32; view_dims := [2];
     view_data := [Byte.x00; Byte.x00; Byte.x80; Byte.x3f;
                   Byte.x00; Byte.x00; Byte.x00; Byte.x40] |}.

(** A serializer opened in a given mode on directory [d] with prefix [p],
    with [f] registered and nothing written yet. *)
Definition opened (mode : OpenModeKind) : SerializerImpl :=
  set_archive (Some (BinaryArchive_new mode "d" "p"))
    (set_fieldMap fields (initial mode "d" "p")).

Definition appending : World := {| this := opened Append; disk := emptyDisk |}.

(** The same, on a disk where the meta-data file cannot be opened for
    writing. *)
Definition protectedDisk : FileSystem :=
  {| fs_dirs := {["d"]}; fs_files := ∅;
     fs_no_write := {[("d", "MetaData-p.json")]}; fs_no_read := ∅;
     fs_clock := 0; fs_log := [] |}.

Definition appendingProtected : World :=
  {| this := opened Append; disk := protectedDisk |}.

(** After [f] has been written at [s1]. *)
Definition written : World := (write "f" s1 view12 appending).2.

(** The archive reopened for reading. *)
Definition reopened : result SerializerImpl * FileSystem :=
  SerializerImpl_new Read "d" "p" "Binary" (disk written).

Definition reading : World :=
  {| this := match reopened.1 with Ok s => s | Err _ => initial Read "d" "p" end;
     disk := reopened.2 |}.

(** Meta-data documents for the checks of the parser: without a version,
    with the version 1 of the version-gate scenario, and with another
    prefix. *)
Definition docNoVersion : json := JObject [("prefix", JString "p")].
Definition docVersion1 : json :=
  JObject [("prefix", JString "p"); ("serialbox_version", JInt 1)].
Definition docOtherPrefix : json :=
  JObject [("prefix", JString "q"); ("serialbox_version", JInt 200)].

(** Doubles that an [int] cannot hold: 4294967496.5, 1e10 and -1e10; and
    a meta-data document of another prefix whose version is such a
    double. *)
Definition beyondInt : float64 := 4751297607086112768.
Definition tenBillion : float64 := 4756540486875873280.
Definition minusTenBillion : float64 := 13979912523730649088.

Definition docVersionBeyondInt : json :=
  JObject [("prefix", JString "q"); ("serialbox_version", JFloat beyondInt)].

Definition file (d : FileData) (mtime : Z) : File :=
  {| file_data := d; file_mtime := mtime |}.

Definition metaDataDisk (doc : json) : FileSystem :=
  {| fs_dirs := {["d"]};
     fs_files := {[("d", "MetaData-p.json") := file (FileJson doc) 0]};
     fs_no_write := ∅; fs_no_read := ∅; fs_clock := 1; fs_log := [] |}.

Definition opening (mode : OpenModeKind) (fs : FileSystem) : World :=
  {| this := initial mode "d" "p"; disk := fs |}.

(** The legacy archive of the upgrade scenario: one field [u] of shape
    [2,2,1] and element type "double", one savepoint [sp0] referencing [u]
    at offset 0 with checksum [h]; 0.5 and 1.5 as untagged floats. *)
Definition half : float64 := 4602678819172646912.
Definition oneAndHalf : float64 := 4609434218613702656.

Definition legacyField (name elementtype : string) : json :=
  JObject [("__elementtype", JString elementtype);
           ("__isize", JInt 2); ("__jsize", JInt 2); ("__ksize", JInt 1);
           ("__name", JString name)].

Definition legacyDoc : json :=
  JObject
    [("FieldsTable", JArray [legacyField "u" "double"]);
     ("GlobalMetainfo", JObject [("__format", JString "Ser"); ("dt", JFloat half)]);
     ("OffsetTable",
      JArray [JObject [("__id", JInt 0); ("__name", JString "sp0");
                       ("__offsets", JObject [("u", JArray [JInt 0; JString "h"])]);
                       ("time", JFloat oneAndHalf)]])].

(** The same with a second field of element type "float". *)
Definition legacyMixedDoc : json :=
  JObject
    [("FieldsTable", JArray [legacyField "u" "double"; legacyField "v" "float"]);
     ("GlobalMetainfo", JObject [("__format", JString "Ser"); ("dt", JFloat half)]);
     ("OffsetTable", JArray [])].

(** A legacy archive whose only field has element type "float". *)
Definition legacyFloatDoc : json :=
  JObject
    [("FieldsTable", JArray [legacyField "v" "float"]);
     ("GlobalMetainfo", JObject [("__format", JString "Ser"); ("dt", JFloat half)]);
     ("OffsetTable", JArray [])].

Definition legacyDisk (doc : json) : FileSystem :=
  {| fs_dirs := {["d"]};
     fs_files := {[("d", "p.json") := file (FileJson doc) 0]};
     fs_no_write := ∅; fs_no_read := ∅; fs_clock := 1; fs_log := [] |}.

(** The legacy archive on a medium without write permission. *)
Definition legacyDiskProtected : FileSystem :=
  {| fs_dirs := {["d"]};
     fs_files := {[("d", "p.json") := file (FileJson legacyDoc) 0]};
     fs_no_write := {[("d", "MetaData-p.json")]}; fs_no_read := ∅;
     fs_clock := 1; fs_log := [] |}.

(** A directory that holds both the legacy document and a meta-data file
    written after it. *)
Definition upgradedDisk : FileSystem :=
  {| fs_dirs := {["d"]};
     fs_files := {[("d", "p.json") := file (FileJson legacyDoc) 0;
                   ("d", "MetaData-p.json") :=
                     file (FileJson (toJSON (opened Append))) 1]};
     fs_no_write := ∅; fs_no_read := ∅; fs_clock := 2; fs_log := [] |}.

End Scenario.

(** ** Further scenarios *)

Module MoreScenarios.
Import Reference Scenario.

Definition s2 : SavepointImpl := {| sp_name := "s2"; sp_metaInfo := ∅ |}.

(** A view of another shape than the registered one. *)
Definition view3 : StorageView :=
  {| view_type := Float32; view_dims := [3]; view_data := [] |}.

(** A field-map document whose second member is not the JSON form of a
    field meta-info. *)
Definition illFormedFields : list (string * json) :=
  [("f", fieldMetaInfo_toJSON f_info); ("g", JNull)].

Definition illFormedDoc : json := JObject [("field_map", JObject illFormedFields)].

(** The legacy archive with an array in its global meta-info. *)
Definition legacyUntypedDoc : json :=
  JObject
    [("FieldsTable", JArray [legacyField "u" "double"]);
     ("GlobalMetainfo",
      JObject [("__format", JString "Ser"); ("dt", JFloat half);
               ("grid", JArray [JInt 1; JInt 2])]);
     ("OffsetTable", JArray [])].

(** A legacy archive whose field has doubles that an [int] cannot hold
    as its sizes. *)
Definition legacyBeyondIntDoc : json :=
  JObject
    [("FieldsTable",
      JArray [JObject [("__elementtype", JString "double");
                       ("__isize", JFloat tenBillion);
                       ("__jsize", JFloat minusTenBillion);
                       ("__ksize", JFloat beyondInt);
                       ("__name", JString "u")]]);
     ("GlobalMetainfo", JObject []);
     ("OffsetTable", JArray [])].

(** The field table after the first payload of [u], and the offsets of a
    second payload and of the first one again. *)
Definition tableOfU : FieldTable := {["u" := [{| offset := 0; checksum := "h" |}]]}.
Definition secondPayload : FileOffsetType := {| offset := 32; checksum := "k" |}.
Definition firstPayloadAgain : FileOffsetType := {| offset := 0; checksum := "h" |}.

End MoreScenarios.

(** * Properties *)

(** ** JSON objects *)

Section JsonFacts.
Import Json.

Lemma str_lt_trans a b c : str_lt a b -> str_lt b c -> str_lt a c.
Proof.
  unfold str_lt. intros Hab Hbc.
  apply OrderedTypeEx.String_as_OT.cmp_lt.
  eapply OrderedTypeEx.String_as_OT.lt_trans;
    apply OrderedTypeEx.String_as_OT.cmp_lt; eassumption.
Qed.

Lemma str_lt_irrefl a : ~ str_lt a a.
Proof.
  unfold str_lt. intros H.
  assert (String.compare a a = Eq) as E
    by (apply OrderedTypeEx.String_as_OT.cmp_eq; reflexivity).
  congruence.
Qed.

Lemma compare_Eq_eq a b : String.compare a b = Eq <-> a = b.
Proof. apply OrderedTypeEx.String_as_OT.cmp_eq. Qed.

Lemma compare_Gt_lt a b : String.compare a b = Gt -> str_lt b a.
Proof.
  unfold str_lt. intros H. rewrite String.compare_antisym, H. reflexivity.
Qed.

Lemma sorted_keys_NoDup o : sorted_keys o -> NoDup o.*1.
Proof.
  unfold sorted_keys. induction 1 as [|k ks Hs IH Hall]; constructor; [|done].
  intros Hin. rewrite Forall_forall in Hall.
  exact (str_lt_irrefl k (Hall k Hin)).
Qed.

Lemma obj_get_set_eq k v o : obj_get k (obj_set k v o) = Some v.
Proof.
  induction o as [|[k' v'] o IH]; simpl.
  - by rewrite String.eqb_refl.
  - destruct (String.compare k k') eqn:E; simpl.
    + by rewrite String.eqb_refl.
    + by rewrite String.eqb_refl.
    + destruct (String.eqb_spec k k') as [->|_]; [|done].
      assert (String.compare k' k' = Eq) by (by apply compare_Eq_eq). congruence.
Qed.

Lemma obj_get_set_ne k k' v o : k <> k' -> obj_get k' (obj_set k v o) = obj_get k' o.
Proof.
  intros Hne. induction o as [|[k0 v0] o IH]; simpl.
  - destruct (String.eqb_spec k' k); congruence.
  - destruct (String.compare k k0) eqn:E; simpl.
    + apply compare_Eq_eq in E as <-.
      destruct (String.eqb_spec k' k); congruence.
    + destruct (String.eqb_spec k' k); congruence.
    + by rewrite IH.
Qed.

Lemma obj_set_keys k v o x : x ∈ (obj_set k v o).*1 -> x = k \/ x ∈ o.*1.
Proof.
  induction o as [|[k0 v0] o IH]; simpl.
  - rewrite list_elem_of_singleton. auto.
  - destruct (String.compare k k0) eqn:E; simpl; rewrite ?elem_of_cons.
    + apply compare_Eq_eq in E as <-. intros [->|Hx]; auto.
    + intros [->|[->|Hx]]; auto.
    + intros [->|Hx]; auto. apply IH in Hx as [->|Hx]; auto.
Qed.

Lemma obj_set_sorted k v o : sorted_keys o -> sorted_keys (obj_set k v o).
Proof.
  unfold sorted_keys. induction o as [|[k0 v0] o IH]; simpl; intros Hs.
  - repeat constructor.
  - inversion Hs as [|? ? Hs' Hall]; subst.
    destruct (String.compare k k0) eqn:E; simpl.
    + apply compare_Eq_eq in E as <-. by constructor.
    + constructor; [done|]. constructor; [done|].
      eapply Forall_impl; [exact Hall|]. intros y Hy. by eapply str_lt_trans.
    + constructor; [by apply IH|].
      rewrite Forall_forall. intros y Hy.
      apply obj_set_keys in Hy as [->|Hy].
      * by apply compare_Gt_lt.
      * rewrite Forall_forall in Hall. by apply Hall.
Qed.

Lemma obj_get_elem_of k v o : NoDup o.*1 -> (k, v) ∈ o -> obj_get k o = Some v.
Proof.
  induction o as [|[k0 v0] o IH]; simpl; intros Hnd Hin.
  - by apply elem_of_nil in Hin.
  - inversion Hnd as [|? ? Hnotin Hnd']; subst.
    apply elem_of_cons in Hin as [[= -> ->]|Hin].
    + by rewrite String.eqb_refl.
    + destruct (String.eqb_spec k k0) as [->|_]; [|by apply IH].
      exfalso. apply Hnotin. apply list_elem_of_fmap. by exists (k0, v).
Qed.

Lemma obj_get_Some_elem_of k v o : obj_get k o = Some v -> (k, v) ∈ o.
Proof.
  induction o as [|[k0 v0] o IH]; simpl; [done|].
  destruct (String.eqb_spec k k0) as [->|_].
  - intros [= ->]. apply elem_of_cons. by left.
  - intros H. apply elem_of_cons. right. by apply IH.
Qed.

End JsonFacts.

(** ** Conversions of JSON numbers *)

Section ConversionFacts.
Context `{!FloatConversion}.

(** A double whose integral part an [int] holds converts to it, whatever
    the platform; the platform only decides the others. *)
Lemma to_int_float (d : float64) :
  (- 2 ^ 31 <= double_trunc d < 2 ^ 31 ->
     JsonAccess.to_int (JFloat d) = Ok (double_trunc d))
  /\ (~ - 2 ^ 31 <= double_trunc d < 2 ^ 31 ->
       JsonAccess.to_int (JFloat d) = Ok (int_of_double_overflow d)).
Proof.
  unfold JsonAccess.to_int, int_of_double. split; intros Hr.
  - rewrite (proj2 (Z.leb_le _ _)), (proj2 (Z.ltb_lt _ _)) by lia. done.
  - destruct (- 2 ^ 31 <=? double_trunc d) eqn:Hlo; [|done].
    destruct (double_trunc d <? 2 ^ 31) eqn:Hhi; [|done].
    apply Z.leb_le in Hlo. apply Z.ltb_lt in Hhi. lia.
Qed.

Lemma to_int64_float (d : float64) :
  (- 2 ^ 63 <= double_trunc d < 2 ^ 63 ->
     JsonAccess.to_int64 (JFloat d) = Ok (double_trunc d))
  /\ (~ - 2 ^ 63 <= double_trunc d < 2 ^ 63 ->
       JsonAccess.to_int64 (JFloat d) = Ok (int64_of_double_overflow d)).
Proof.
  unfold JsonAccess.to_int64, int64_of_double. split; intros Hr.
  - rewrite (proj2 (Z.leb_le _ _)), (proj2 (Z.ltb_lt _ _)) by lia. done.
  - destruct (- 2 ^ 63 <=? double_trunc d) eqn:Hlo; [|done].
    destruct (double_trunc d <? 2 ^ 63) eqn:Hhi; [|done].
    apply Z.leb_le in Hlo. apply Z.ltb_lt in Hhi. lia.
Qed.

End ConversionFacts.

(** ** The field map and its JSON form *)

Section FieldMapFacts.
Context `{!Codecs}.
Import FieldMap.

Lemma toJSON_loop_object l o :
  foldl (fun jsonNode (it : string * FieldMetaInfo) =>
           Json.assign "field_map"
             (Json.assign it.1 (FieldMetaInfo_toJSON it.2) (Json.member "field_map" jsonNode))
             jsonNode)
        (JObject [("field_map", JObject o)]) l
  = JObject [("field_map", JObject (members_of l o))].
Proof.
  revert o. induction l as [|[k x] l IH]; intros o; [done|].
  simpl. apply IH.
Qed.

Lemma toJSON_nonempty (fm : FieldMap) :
  fm <> ∅ ->
  FieldMap.toJSON fm = JObject [("field_map", JObject (members_of (map_to_list fm) []))].
Proof.
  intros Hne. unfold FieldMap.toJSON.
  destruct (size fm =? 0)%nat eqn:E.
  - apply Nat.eqb_eq in E. by apply map_size_empty_iff in E.
  - destruct (map_to_list fm) as [|[k x] l] eqn:El.
    + by apply map_to_list_empty_iff in El.
    + simpl. apply toJSON_loop_object.
Qed.

Lemma toJSON_empty : FieldMap.toJSON (∅ : FieldMap) = JNull.
Proof. unfold FieldMap.toJSON. by rewrite map_size_empty. Qed.

Lemma members_of_sorted l o : Json.sorted_keys o -> Json.sorted_keys (members_of l o).
Proof.
  revert o. induction l as [|[k x] l IH]; intros o Ho; [done|].
  simpl. apply IH. by apply obj_set_sorted.
Qed.

Lemma members_of_notin l o k :
  k ∉ l.*1 -> Json.obj_get k (members_of l o) = Json.obj_get k o.
Proof.
  revert o. induction l as [|[k' x] l IH]; intros o Hk; [done|].
  simpl in *. apply not_elem_of_cons in Hk as [Hne Hk].
  rewrite IH by done. by apply obj_get_set_ne.
Qed.

Lemma members_of_in l o k x :
  NoDup l.*1 -> (k, x) ∈ l ->
  Json.obj_get k (members_of l o) = Some (FieldMetaInfo_toJSON x).
Proof.
  revert o. induction l as [|[k' x'] l IH]; intros o Hnd Hin.
  - by apply elem_of_nil in Hin.
  - simpl in *. inversion Hnd as [|? ? Hnotin Hnd']; subst.
    apply elem_of_cons in Hin as [[= -> ->]|Hin].
    + rewrite members_of_notin by done. apply obj_get_set_eq.
    + by apply IH.
Qed.

(** What [FieldMap::toJSON] stores under "field_map": the JSON form of each
    field, by name. *)
Lemma members_of_lookup (fm : FieldMap) k :
  Json.obj_get k (members_of (map_to_list fm) []) = FieldMetaInfo_toJSON <$> fm !! k.
Proof.
  destruct (fm !! k) as [x|] eqn:E; simpl.
  - apply members_of_in; [apply NoDup_fst_map_to_list|].
    by apply elem_of_map_to_list.
  - rewrite members_of_notin; [done|].
    intros Hin. apply list_elem_of_fmap in Hin as [[k' x] [-> Hin]].
    apply elem_of_map_to_list in Hin. simpl in *. congruence.
Qed.

Lemma fromJSON_loop_decodes (fm : FieldMap) its acc :
  NoDup its.*1 ->
  (forall k v, (k, v) ∈ its ->
     acc !! k = None /\ exists x, FieldMetaInfo_fromJSON v = Ok x /\ fm !! k = Some x) ->
  acc ⊆ fm ->
  exists m, FieldMap.fromJSON_loop its acc = (Ok (), m)
            /\ m ⊆ fm /\ acc ⊆ m /\ forall k, k ∈ its.*1 -> is_Some (m !! k).
Proof.
  revert acc. induction its as [|[k v] its IH]; intros acc Hnd Hits Hacc.
  - exists acc. split_and!; [done..|]. intros k Hk. by apply elem_of_nil in Hk.
  - simpl in *. inversion Hnd as [|? ? Hnotin Hnd']; subst.
    destruct (Hits k v) as (Hfresh & x & Hx & Hfm); [apply elem_of_cons; by left|].
    unfold FieldMap.insert_json, FieldMap.insert. rewrite Hx, Hfresh.
    destruct (IH (<[k := x]> acc)) as (m & Hm & Hsub & Hacc' & Hdom); [done| |..].
    + intros k' v' Hin.
      destruct (Hits k' v') as (Hfresh' & x' & Hx' & Hfm'); [apply elem_of_cons; by right|].
      split; [|by eauto].
      rewrite lookup_insert_ne; [done|].
      intros ->. apply Hnotin. apply list_elem_of_fmap. by exists (k', v').
    + by apply insert_subseteq_l.
    + exists m. split_and!; [done|done| |].
      * etrans; [|exact Hacc']. by apply insert_subseteq.
      * intros k' Hk'. apply elem_of_cons in Hk' as [->|Hk']; [|by apply Hdom].
        exists x. eapply lookup_weaken; [|exact Hacc']. apply lookup_insert_eq.
Qed.

(** C8: for every field map [fm], the empty one included, whose field
    meta-infos survive their own JSON round trip, [fromJSON (toJSON fm)]
    rebuilds a field map equal to [fm] (whatever the receiving map held
    before), and [toJSON] stores the JSON form of each field under the
    top-level "field_map" key, by field name. *)
Theorem FieldMap_json_roundtrip (fm self : FieldMap) :
  (forall k x, fm !! k = Some x ->
     FieldMetaInfo_fromJSON (FieldMetaInfo_toJSON x) = Ok x) ->
  FieldMap.fromJSON (FieldMap.toJSON fm) self = (Ok (), fm)
  /\ forall k x, fm !! k = Some x ->
       JsonAccess.at_key "field_map" (FieldMap.toJSON fm) ≫= JsonAccess.at_key k
       = Ok (FieldMetaInfo_toJSON x).
Proof.
  intros Hrt. destruct (decide (fm = ∅)) as [->|Hne].
  { rewrite toJSON_empty. split; [done|]. intros k x Hk. by rewrite lookup_empty in Hk. }
  rewrite toJSON_nonempty by done.
  set (o := members_of (map_to_list fm) []).
  assert (Json.sorted_keys o) as Hsorted by (apply members_of_sorted; constructor).
  split.
  - unfold FieldMap.fromJSON. simpl.
    destruct (fromJSON_loop_decodes fm o ∅) as (m & Hm & Hsub & _ & Hdom).
    + by apply sorted_keys_NoDup.
    + intros k v Hin. split; [apply lookup_empty|].
      apply obj_get_elem_of in Hin; [|by apply sorted_keys_NoDup].
      unfold o in Hin. rewrite members_of_lookup in Hin.
      destruct (fm !! k) as [x|] eqn:E; [|done].
      simpl in Hin. injection Hin as <-. exists x. split; [by eapply Hrt|done].
    + apply map_empty_subseteq.
    + rewrite Hm. f_equal. apply map_eq. intros k.
      destruct (fm !! k) as [x|] eqn:E.
      * destruct (Hdom k) as [y Hy].
        { apply list_elem_of_fmap. exists (k, FieldMetaInfo_toJSON x). split; [done|].
          apply obj_get_Some_elem_of. unfold o. by rewrite members_of_lookup, E. }
        rewrite Hy. f_equal. pose proof (lookup_weaken _ _ _ _ Hy Hsub). congruence.
      * destruct (m !! k) as [y|] eqn:Ey; [|done].
        pose proof (lookup_weaken _ _ _ _ Ey Hsub). congruence.
  - intros k x Hk. simpl.
    unfold o. by rewrite members_of_lookup, Hk.
Qed.

(** C9, as amended: a JSON document that is neither null nor empty and has
    no top-level "field_map" key is rejected with "no node 'field_map'" and
    leaves the field map cleared; a null or empty document is accepted and
    gives the empty field map. *)
Theorem fromJSON_without_field_map (jsonNode : json) (self : FieldMap) :
  Json.count "field_map" jsonNode = false ->
  FieldMap.fromJSON jsonNode self =
    (if Json.is_null jsonNode || Json.empty jsonNode then Ok ()
     else Err (Exception FieldMapNoNode), ∅).
Proof.
  intros Hcount. unfold FieldMap.fromJSON. rewrite Hcount. simpl.
  by destruct (Json.is_null jsonNode || Json.empty jsonNode).
Qed.

End FieldMapFacts.

Lemma FieldMap_json_roundtrip_witness :
  (forall k x, Scenario.fields !! k = Some x ->
     @FieldMetaInfo_fromJSON Reference.codecs
       (@FieldMetaInfo_toJSON Reference.codecs x) = Ok x)
  /\ @FieldMap.fromJSON Reference.codecs
       (@FieldMap.toJSON Reference.codecs Scenario.fields) ∅
     = (Ok (), Scenario.fields).
Proof.
  assert (forall k x, Scenario.fields !! k = Some x ->
            @FieldMetaInfo_fromJSON Reference.codecs
              (@FieldMetaInfo_toJSON Reference.codecs x) = Ok x) as Hrt.
  { intros k x Hk. unfold Scenario.fields in Hk.
    apply lookup_singleton_Some in Hk as [_ <-]. reflexivity. }
  split; [exact Hrt|].
  exact (proj1 (@FieldMap_json_roundtrip Reference.codecs Scenario.fields ∅ Hrt)).
Defined.

Lemma fromJSON_without_field_map_witness :
  Json.count "field_map" (JObject [("fields", JNull)]) = false
  /\ @FieldMap.fromJSON Reference.codecs (JObject [("fields", JNull)]) ∅
     = (Err (Exception FieldMapNoNode), ∅).
Proof.
  split; [reflexivity|].
  exact (@fromJSON_without_field_map Reference.codecs
           (JObject [("fields", JNull)]) ∅ eq_refl).
Defined.

(** C9 as stated fails: the empty object has no "field_map" key, and
    [FieldMap::fromJSON] accepts it (as it accepts null). *)
Lemma fromJSON_accepts_empty_document :
  Json.count "field_map" (JObject []) = false
  /\ @FieldMap.fromJSON Reference.codecs (JObject []) Scenario.fields
     = (Ok (), ∅)
  /\ Json.count "field_map" JNull = false
  /\ @FieldMap.fromJSON Reference.codecs JNull Scenario.fields
     = (Ok (), ∅).
Proof. repeat split. Qed.

(** ** The savepoint vector *)

Section SavepointVectorFacts.
Import SavepointVector.

Lemma find_from_ge i sp sv : find_from i sp sv = -1 \/ i <= find_from i sp sv.
Proof.
  revert i. induction sv as [|x sv IH]; intros i; simpl; [by left|].
  case_bool_decide; [right; lia|].
  destruct (IH (i + 1)) as [->|?]; [by left|right; lia].
Qed.

Lemma find_from_notin i sp sv :
  0 <= i -> (find_from i sp sv = -1 <-> sp ∉ savepoints sv).
Proof.
  unfold savepoints. revert i. induction sv as [|x sv IH]; intros i Hi; simpl.
  - split; [intros _; apply not_elem_of_nil|done].
  - rewrite not_elem_of_cons. case_bool_decide as Hx.
    + split; [lia|]. intros [Hne _]. congruence.
    + rewrite IH by lia. split; [intros ?; split; [|done]; congruence|by intros [_ ?]].
Qed.

Lemma find_from_in i sp sv :
  sp ∈ savepoints sv ->
  exists n fields, find_from i sp sv = i + Z.of_nat n /\ sv !! n = Some (sp, fields).
Proof.
  unfold savepoints. revert i. induction sv as [|[sp' f] sv IH]; intros i Hin; simpl in *.
  - by apply elem_of_nil in Hin.
  - case_bool_decide as Hx.
    + subst. exists 0%nat, f. split; [lia|done].
    + apply elem_of_cons in Hin as [->|Hin]; [done|].
      destruct (IH (i + 1) Hin) as (n & fields & Hn & Hl).
      exists (S n), fields. split; [lia|done].
Qed.

(** [find] answers -1 exactly for the savepoints that are not in the
    vector. *)
Lemma find_notin sp sv : find sp sv = -1 <-> sp ∉ savepoints sv.
Proof. by apply find_from_notin. Qed.

(** Otherwise it answers the position of the savepoint. *)
Lemma find_in sp sv :
  sp ∈ savepoints sv ->
  exists n fields, find sp sv = Z.of_nat n /\ sv !! n = Some (sp, fields)
                   /\ fields_at (find sp sv) sv = fields.
Proof.
  intros Hin. destruct (find_from_in 0 sp sv Hin) as (n & fields & Hn & Hl).
  exists n, fields. unfold find. rewrite Hn. split; [lia|]. split; [done|].
  unfold fields_at. rewrite (proj2 (Z.ltb_ge _ _)) by lia.
  replace (Z.to_nat (0 + Z.of_nat n)) with n by lia. by rewrite Hl.
Qed.

(** A savepoint that has just been registered has no field yet. *)
Lemma insert_new_no_field sp sv name :
  find sp sv = -1 -> hasField (insert sp sv).1 name (insert sp sv).2 = false.
Proof.
  intros Hf. unfold insert. rewrite Hf. simpl.
  unfold hasField, fields_at. rewrite (proj2 (Z.ltb_ge _ _)) by lia.
  rewrite Nat2Z.id, lookup_app_r, Nat.sub_diag by done. simpl.
  by rewrite lookup_empty.
Qed.

Lemma addField_fresh idx fid sv :
  hasField idx (fid_name fid) sv = false -> (addField idx fid sv).1 = Ok ().
Proof. intros H. unfold addField. rewrite H. by destruct (idx <? 0). Qed.

End SavepointVectorFacts.

Section MoreSavepointVectorFacts.
Import SavepointVector.

Lemma find_from_alter i sp f n (sv : SavepointVector) :
  (forall e, (f e).1 = e.1) -> find_from i sp (alter f n sv) = find_from i sp sv.
Proof.
  intros Hf. revert i n. induction sv as [|x sv IH]; intros i n; [done|].
  destruct n as [|n].
  - simpl. by rewrite Hf.
  - change (alter f (S n) (x :: sv)) with (x :: alter f n sv). simpl.
    by rewrite IH.
Qed.

Lemma find_from_app_new i sp sv fields :
  find_from i sp sv = -1 -> 0 <= i ->
  find_from i sp (sv ++ [(sp, fields)]) = i + Z.of_nat (length sv).
Proof.
  revert i. induction sv as [|x sv IH]; intros i; simpl.
  - intros _ _. rewrite bool_decide_eq_true_2 by done. lia.
  - case_bool_decide; [lia|]. intros Hf Hi. rewrite IH by (done || lia).
    rewrite Nat2Z.inj_succ. lia.
Qed.

(** The index [write] works with: that of the savepoint, registered when
    it was not there. *)
Lemma locate_or_insert sp sv :
  let idx := if find sp sv =? -1 then (insert sp sv).1 else find sp sv in
  let sv1 := if find sp sv =? -1 then (insert sp sv).2 else sv in
  find sp sv1 = idx /\ 0 <= idx /\ (Z.to_nat idx < length sv1)%nat
  /\ sp ∈ savepoints sv1
  /\ (forall i e, sv !! i = Some e -> sv1 !! i = Some e).
Proof.
  simpl. destruct (find sp sv =? -1) eqn:Hf.
  - apply Z.eqb_eq in Hf. unfold insert. rewrite Hf. simpl.
    unfold find in *. rewrite find_from_app_new by done.
    unfold savepoints. rewrite length_app, fmap_app. simpl.
    split_and!; [lia|lia|lia| |].
    + apply elem_of_app. right. by apply list_elem_of_singleton.
    + intros i e Hi. by apply lookup_app_l_Some.
  - apply Z.eqb_neq in Hf.
    assert (sp ∈ savepoints sv) as Hin.
    { destruct (decide (sp ∈ savepoints sv)); [done|]. by apply find_notin in n. }
    destruct (find_in sp sv Hin) as (n & fields & Hn & Hl & _).
    split_and!; [done|lia| |done|done].
    rewrite Hn, Nat2Z.id. by eapply lookup_lt_Some.
Qed.

Lemma addField_Ok idx fid sv sv' :
  addField idx fid sv = (Ok (), sv') -> 0 <= idx -> (Z.to_nat idx < length sv)%nat ->
  fields_at idx sv' !! fid_name fid = Some fid
  /\ (forall sp, find sp sv' = find sp sv)
  /\ savepoints sv' = savepoints sv.
Proof.
  unfold addField. destruct (hasField idx (fid_name fid) sv); [done|].
  intros Hadd Hidx Hlen. rewrite (proj2 (Z.ltb_ge _ _)) in Hadd by lia.
  injection Hadd as <-. split_and!.
  - unfold fields_at. rewrite (proj2 (Z.ltb_ge _ _)) by lia.
    rewrite list_lookup_alter_eq.
    destruct (lookup_lt_is_Some_2 sv (Z.to_nat idx) Hlen) as [e He].
    rewrite He. simpl. apply lookup_insert_eq.
  - intros sp. unfold find. by apply find_from_alter.
  - unfold savepoints. apply list_eq. intros i. rewrite !list_lookup_fmap.
    destruct (decide (i = Z.to_nat idx)) as [->|Hne].
    + rewrite list_lookup_alter_eq. by destruct (sv !! Z.to_nat idx).
    + by rewrite list_lookup_alter_ne.
Qed.

(** [addField] keeps every savepoint at its index and every FieldID it
    had. *)
Lemma addField_keeps idx fid sv r sv' :
  addField idx fid sv = (r, sv') ->
  forall i sp fields, sv !! i = Some (sp, fields) ->
    exists fields', sv' !! i = Some (sp, fields') /\ fields ⊆ fields'.
Proof.
  unfold addField, hasField, fields_at.
  destruct (idx <? 0) eqn:Hneg.
  { rewrite lookup_empty. intros [= _ <-] i sp fields Hi. by exists fields. }
  destruct (from_option snd ∅ (sv !! Z.to_nat idx) !! fid_name fid) eqn:Hhas.
  { intros [= _ <-] i sp fields Hi. by exists fields. }
  intros [= _ <-] i sp fields Hi.
  destruct (decide (i = Z.to_nat idx)) as [->|Hne].
  - rewrite list_lookup_alter_eq, Hi. simpl. eexists. split; [done|].
    rewrite Hi in Hhas. simpl in Hhas. by apply insert_subseteq.
  - rewrite list_lookup_alter_ne by done. by exists fields.
Qed.

End MoreSavepointVectorFacts.

(** ** Reading and writing *)

Ltac exec_unfold :=
  unfold mbind, mret, Exec_bind, Exec_ret, get_this, throw, lift, modify_this,
    on_member in *; simpl in *.

Section ReadWriteFacts.
Context `{!FloatConversion, !Codecs, !ArchiveOps, !VersionInfo}.

(** The storage-view check only reads the field map. *)
Lemma checkStorageView_pure name view w r w' :
  checkStorageView name view w = (r, w') -> w' = w.
Proof.
  unfold checkStorageView. exec_unfold.
  destruct (fieldMap_ (this w) !! name) as [info|]; [|congruence].
  repeat case_match; congruence.
Qed.

Lemma checkStorageView_errors name view w e w' :
  checkStorageView name view w = (Err e, w') -> is_rejection e = true.
Proof.
  unfold checkStorageView. exec_unfold.
  destruct (fieldMap_ (this w) !! name) as [info|]; [|by intros [= <- _]].
  repeat case_match; intros [= <- _]; done.
Qed.

(** C7: [read] raises SerializerNotReadable when the mode is not Read;
    otherwise a failed storage-view check is raised as it is, and after a
    passed one [read] raises SavepointNotFound when the savepoint is not in
    the savepoint vector, raises FieldNotAtSavepoint when the savepoint is
    there with no FieldID recorded for the name, and otherwise is the
    archive read with the recorded FieldID. *)
Theorem read_contract (name : string) (sp : SavepointImpl) (view : StorageView)
    (w : World) :
  let sv := savepointVector_ (this w) in
  (mode_ (this w) <> Read ->
     read name sp view w = (Err (Exception SerializerNotReadable), w))
  /\ (mode_ (this w) = Read ->
      (forall e w', checkStorageView name view w = (Err e, w') ->
         read name sp view w = (Err e, w))
      /\ (checkStorageView name view w = (Ok (), w) ->
          (sp ∉ SavepointVector.savepoints sv ->
             read name sp view w = (Err (Exception SavepointNotFound), w))
          /\ (sp ∈ SavepointVector.savepoints sv ->
              exists n fields,
                SavepointVector.find sp sv = Z.of_nat n
                /\ sv !! n = Some (sp, fields)
                /\ (fields !! name = None ->
                      read name sp view w = (Err (Exception FieldNotAtSavepoint), w))
                /\ (forall fid, fields !! name = Some fid ->
                      read name sp view w = archive_read view fid w)))).
Proof.
  intros sv. split.
  - intros Hmode. unfold read. exec_unfold.
    by rewrite bool_decide_eq_false_2.
  - intros Hmode. split.
    + intros e w' Hc. pose proof (checkStorageView_pure _ _ _ _ _ Hc) as ->.
      unfold read. exec_unfold. rewrite bool_decide_eq_true_2 by done. simpl.
      by rewrite Hc.
    + intros Hc. split.
      * intros Hnotin. apply find_notin in Hnotin.
        unfold read. exec_unfold. rewrite bool_decide_eq_true_2 by done. simpl.
        rewrite Hc. fold sv. by rewrite Hnotin.
      * intros Hin. destruct (find_in sp sv Hin) as (n & fields & Hn & Hl & Hf).
        exists n, fields. split; [done|]. split; [done|].
        assert ((SavepointVector.find sp sv =? -1) = false) as Hne
          by (rewrite Hn; apply Z.eqb_neq; lia).
        split.
        -- intros Hnone. unfold read. exec_unfold.
           rewrite bool_decide_eq_true_2 by done. simpl.
           rewrite Hc. fold sv. rewrite Hne.
           unfold SavepointVector.getFieldID. by rewrite Hf, Hnone.
        -- intros fid Hsome. unfold read. exec_unfold.
           rewrite bool_decide_eq_true_2 by done. simpl.
           rewrite Hc. fold sv. rewrite Hne.
           unfold SavepointVector.getFieldID. by rewrite Hf, Hsome.
Qed.

(** A call into the archive changes [archive_] and the disk only, and
    raises archive errors only. *)
Lemma with_archive_this {A}
    (f : BinaryArchive -> FileSystem -> (string + A) * BinaryArchive * FileSystem)
    w r w' :
  with_archive f w = (r, w') ->
  (exists a, this w' = set_archive a (this w))
  /\ forall e, r = Err e -> is_rejection e = false.
Proof.
  unfold with_archive. destruct (archive_ (this w)) as [a|] eqn:E.
  - destruct (f a (disk w)) as [[r0 a'] fs']. intros [= <- <-]. split; [by eexists|].
    intros e. destruct r0; simpl; [by intros [= <-]|done].
  - intros [= <- <-]. split; [|by intros e [= <-]].
    exists None. destruct w as [[] ?]; simpl in *. by subst.
Qed.

Lemma updateMetaData_this w r w' :
  updateMetaData w = (r, w') ->
  (exists a, this w' = set_archive a (this w))
  /\ forall e, r = Err e -> is_rejection e = false.
Proof.
  unfold updateMetaData, overwrite_file, archive_updateMetaData. exec_unfold.
  destruct (Fs.open_trunc _ _) as [fs1|].
  - intros Hw. apply with_archive_this in Hw as [[a Ha] He]. simpl in *. eauto.
  - intros [= <- <-]. split; [|by intros e [= <-]].
    exists (archive_ (this w)). by destruct w as [[] ?].
Qed.

Lemma archive_write_name view name w fid w' :
  archive_names_field ->
  archive_write view name w = (Ok fid, w') -> fid_name fid = name.
Proof.
  intros Harch. unfold archive_write, with_archive.
  destruct (archive_ (this w)) as [a|]; [|done].
  destruct (Archive_write view name a (disk w)) as [[[msg|fid'] a'] fs'] eqn:E; [done|].
  simpl. intros [= <- _]. by eapply Harch.
Qed.

Lemma archive_write_answer view name w fid w2 :
  archive_write view name w = (Ok fid, w2) ->
  exists a a' fs',
    archive_ (this w) = Some a
    /\ Archive_write view name a (disk w) = (inr fid, a', fs')
    /\ w2 = {| this := set_archive (Some a') (this w); disk := fs' |}.
Proof.
  unfold archive_write, with_archive. destruct (archive_ (this w)) as [a|]; [|done].
  destruct (Archive_write view name a (disk w)) as [[[msg|fid'] a'] fs'] eqn:E; [done|].
  simpl. intros [= <- <-]. by exists a, a', fs'.
Qed.

Lemma write_tail_state name view idx w1 e w' :
  archive_names_field ->
  SavepointVector.hasField idx name (savepointVector_ (this w1)) = false ->
  0 <= idx -> (Z.to_nat idx < length (savepointVector_ (this w1)))%nat ->
  (let (r0, w'1) := archive_write view name w1 in
   match r0 with
   | Ok a0 =>
       let (r1, w'2) :=
         let '(r1, m) := SavepointVector.addField idx a0 (savepointVector_ (this w'1)) in
         (r1, {| this := set_savepointVector m (this w'1); disk := disk w'1 |}) in
       match r1 with
       | Ok _ => updateMetaData w'2
       | Err e0 => (Err e0, w'2)
       end
   | Err e0 => (Err e0, w'1)
   end) = (Err e, w') ->
  globalMetaInfo_ (this w') = globalMetaInfo_ (this w1)
  /\ fieldMap_ (this w') = fieldMap_ (this w1)
  /\ is_rejection e = false
  /\ match archive_write view name w1 with
     | (Err e0, w2) =>
         e = e0 /\ w' = w2 /\ savepointVector_ (this w') = savepointVector_ (this w1)
     | (Ok fid, w2) =>
         let sv2 := (SavepointVector.addField idx fid (savepointVector_ (this w1))).2 in
         updateMetaData {| this := set_savepointVector sv2 (this w2); disk := disk w2 |}
         = (Err e, w')
         /\ savepointVector_ (this w') = sv2
         /\ SavepointVector.getFieldID idx name sv2 = Ok fid
     end.
Proof.
  intros Harch Hhas Hidx Hlen.
  destruct (archive_write view name w1) as [[fid|e0] w2] eqn:Hw.
  - pose proof (archive_write_name _ _ _ _ _ Harch Hw) as Hname.
    apply with_archive_this in Hw as [[a Ha] _].
    assert (savepointVector_ (this w2) = savepointVector_ (this w1)) as Hsv by (by rewrite Ha).
    rewrite Hsv.
    pose proof (addField_fresh idx fid (savepointVector_ (this w1))) as Hok.
    rewrite Hname in Hok. specialize (Hok Hhas).
    destruct (SavepointVector.addField idx fid (savepointVector_ (this w1))) as [r1 m] eqn:Hadd.
    simpl in Hok. subst r1.
    destruct (addField_Ok _ _ _ _ Hadd Hidx Hlen) as (Hfield & _ & _).
    intros Hu. pose proof Hu as Hu'.
    apply updateMetaData_this in Hu as [[a' Ha'] He]. simpl in *.
    split_and!; [by rewrite Ha', Ha|by rewrite Ha', Ha|by apply He|done|by rewrite Ha'|].
    unfold SavepointVector.getFieldID. by rewrite <- Hname, Hfield.
  - intros [= <- <-]. apply with_archive_this in Hw as [[a Ha] He].
    rewrite Ha. simpl. split_and!; [done|done|by apply He|done|done|done].
Qed.

(** C1, as amended: a [write] that raises on the mode rejection, on a
    failed storage-view check or on a duplicate field at the savepoint
    leaves the object and the disk exactly as they were. A [write] that
    raises later (archive write, meta-data update) leaves the global
    meta-info and the field map as they were, but nothing is rolled back.
    When the archive write raises, the error is the archive's and the
    savepoint vector keeps the savepoint that was registered; when the
    meta-data update raises, the savepoint vector also keeps, under the name
    of the field, the FieldID the archive answered. *)
Theorem write_failure_state name sp view w e w' :
  archive_names_field ->
  write name sp view w = (Err e, w') ->
  let sv := savepointVector_ (this w) in
  let sv1 := if SavepointVector.find sp sv =? -1
             then (SavepointVector.insert sp sv).2 else sv in
  let idx := if SavepointVector.find sp sv =? -1
             then (SavepointVector.insert sp sv).1 else SavepointVector.find sp sv in
  let w1 := {| this := set_savepointVector sv1 (this w); disk := disk w |} in
  globalMetaInfo_ (this w') = globalMetaInfo_ (this w)
  /\ fieldMap_ (this w') = fieldMap_ (this w)
  /\ (is_rejection e = true -> w' = w)
  /\ (is_rejection e = false ->
        sp ∈ SavepointVector.savepoints sv1
        /\ match archive_write view name w1 with
           | (Err e0, w2) => e = e0 /\ w' = w2 /\ savepointVector_ (this w') = sv1
           | (Ok fid, w2) =>
               let sv2 := (SavepointVector.addField idx fid sv1).2 in
               updateMetaData {| this := set_savepointVector sv2 (this w2);
                                 disk := disk w2 |} = (Err e, w')
               /\ savepointVector_ (this w') = sv2
               /\ SavepointVector.getFieldID idx name sv2 = Ok fid
           end).
Proof.
  intros Harch.
  destruct (locate_or_insert sp (savepointVector_ (this w)))
    as (_ & Hidx & Hlen & Hin & _).
  assert ({| this := set_savepointVector (savepointVector_ (this w)) (this w);
             disk := disk w |} = w) as Heta by (by destruct w as [[] ?]).
  revert Hidx Hlen Hin.
  unfold write. exec_unfold.
  case_bool_decide as Hmode.
  { intros _ _ _ [= <- <-]. simpl. split_and!; done. }
  destruct (checkStorageView name view w) as [[[]|e0] w0] eqn:Hc.
  2: { intros _ _ _ [= <- <-]. pose proof (checkStorageView_pure _ _ _ _ _ Hc) as ->.
       apply checkStorageView_errors in Hc. rewrite Hc. split_and!; done. }
  pose proof (checkStorageView_pure _ _ _ _ _ Hc) as ->.
  destruct (SavepointVector.find sp (savepointVector_ (this w)) =? -1) eqn:Hf.
  - apply Z.eqb_eq in Hf.
    pose proof (insert_new_no_field sp (savepointVector_ (this w)) name Hf) as Hnew.
    destruct (SavepointVector.insert sp (savepointVector_ (this w))) as [idx sv1] eqn:Hins.
    simpl in *. rewrite Hnew.
    intros Hidx Hlen Hin Ht.
    apply write_tail_state in Ht as (Hg & Hfm & He & Hsv); [|done..].
    simpl in *. rewrite He. split_and!; done.
  - destruct (SavepointVector.hasField _ name (savepointVector_ (this w))) eqn:Hhas.
    + intros _ _ _ [= <- <-]. simpl. split_and!; done.
    + intros Hidx Hlen Hin Ht.
      apply write_tail_state in Ht as (Hg & Hfm & He & Hsv); [|done..].
      rewrite He, Heta. split_and!; done.
Qed.

(** C2, as amended: [updateMetaData] rewrites the meta-data file in
    place. The file itself is opened with truncation (it is empty until
    the document is written), the complete document [toJSON] is written
    into it, and the archive is then asked to update its own meta-data;
    when the file cannot be opened, "cannot open file" is raised and
    nothing has changed. No temporary file and no rename are involved. *)
Theorem updateMetaData_in_place (w : World) :
  let file := metaDataFile_ (this w) in
  let doc := FileJson (toJSON (this w)) in
  match Fs.open_trunc file (disk w) with
  | None => updateMetaData w = (Err (Exception CannotOpenFile), w)
  | Some fs1 =>
      file_data <$> fs_files fs1 !! file = Some (FileBytes [])
      /\ fs_log fs1 = (fs_log (disk w) ++ [OpOpenTrunc file])%list
      /\ file_data <$> fs_files (Fs.write file doc fs1) !! file = Some doc
      /\ fs_log (Fs.write file doc fs1)
         = (fs_log (disk w) ++ [OpOpenTrunc file; OpWrite file doc])%list
      /\ updateMetaData w
         = archive_updateMetaData {| this := this w; disk := Fs.write file doc fs1 |}
  end.
Proof.
  intros file doc. unfold updateMetaData, overwrite_file. exec_unfold.
  fold file. destruct (Fs.open_trunc file (disk w)) as [fs1|] eqn:Hopen; [|done].
  unfold Fs.open_trunc in Hopen. case_match; [done|]. injection Hopen as <-.
  unfold Fs.write, Fs.put. simpl. rewrite !lookup_insert_eq. simpl.
  split_and!; [done|done|done|by rewrite <- app_assoc|done].
Qed.

End ReadWriteFacts.

(** *** The contracts on the reference archive *)

Section ReadWriteScenarios.
Import Reference Scenario.

Lemma read_contract_witness :
  mode_ (this reading) = Read
  /\ checkStorageView "f" view12 reading = (Ok (), reading)
  /\ s1 ∈ SavepointVector.savepoints (savepointVector_ (this reading))
  /\ read "f" s1 view12 reading
     = archive_read view12 {| fid_name := "f"; fid_id := 0 |} reading.
Proof.
  assert (mode_ (this reading) = Read) as Hmode by reflexivity.
  assert (checkStorageView "f" view12 reading = (Ok (), reading)) as Hcheck
    by reflexivity.
  assert (s1 ∈ SavepointVector.savepoints (savepointVector_ (this reading))) as Hin
    by (apply elem_of_cons; by left).
  split_and!; [done..|].
  destruct (read_contract "f" s1 view12 reading) as [_ H].
  destruct (H Hmode) as [_ H2]. destruct (H2 Hcheck) as [_ H3].
  destruct (H3 Hin) as (n & fields & Hn & Hl & _ & Hread).
  apply Hread.
  assert (SavepointVector.find s1 (savepointVector_ (this reading)) = 0) as Hz
    by reflexivity.
  assert (n = 0%nat) as -> by lia.
  assert (savepointVector_ (this reading)
          = [(s1, {["f" := {| fid_name := "f"; fid_id := 0 |}]})]) as Hsv
    by (by vm_compute).
  rewrite Hsv in Hl. injection Hl as <-. reflexivity.
Defined.

Lemma reference_archive_names_field : archive_names_field.
Proof.
  intros view name a fs fid a' fs'. simpl. unfold BinaryArchive_write.
  repeat case_match; intros [= <- _ _]; done.
Qed.

(** C1 as stated fails: the meta-data file cannot be opened, [write]
    raises "cannot open file", and the savepoint vector and the archive's
    offset table keep the savepoint and the entry of the failed write. *)
Lemma write_failure_not_rolled_back :
  (write "f" s1 view12 appendingProtected).1 = Err (Exception CannotOpenFile)
  /\ savepointVector_ (this appendingProtected) = []
  /\ savepointVector_ (this (write "f" s1 view12 appendingProtected).2)
     = [(s1, {["f" := {| fid_name := "f"; fid_id := 0 |}]})]
  /\ fieldTable <$> archive_ (this appendingProtected) = Some ∅
  /\ fieldTable <$> archive_ (this (write "f" s1 view12 appendingProtected).2)
     = Some {["f" := [{| offset := 0; checksum := "0000803f00000040" |}]]}.
Proof. split_and!; by vm_compute. Qed.

Lemma write_failure_state_witness :
  archive_names_field
  /\ write "f" s1 view12 written = (Err (Exception FieldAlreadyAtSavepoint), written)
  /\ is_rejection (Exception FieldAlreadyAtSavepoint) = true
  /\ (write "f" s1 view12 written).2 = written
  /\ (write "f" s1 view12 appendingProtected).1 = Err (Exception CannotOpenFile)
  /\ is_rejection (Exception CannotOpenFile) = false
  /\ SavepointVector.getFieldID 0 "f"
       (savepointVector_ (this (write "f" s1 view12 appendingProtected).2))
     = Ok {| fid_name := "f"; fid_id := 0 |}.
Proof.
  assert (write "f" s1 view12 written
          = (Err (Exception FieldAlreadyAtSavepoint), (write "f" s1 view12 written).2))
    as Hw by (by vm_compute).
  destruct (write_failure_state "f" s1 view12 written _ _
              reference_archive_names_field Hw) as (_ & _ & Hsame & _).
  specialize (Hsame eq_refl).
  assert (write "f" s1 view12 appendingProtected
          = (Err (Exception CannotOpenFile), (write "f" s1 view12 appendingProtected).2))
    as Hw' by (by vm_compute).
  destruct (write_failure_state "f" s1 view12 appendingProtected _ _
              reference_archive_names_field Hw') as (_ & _ & _ & Hlate).
  destruct (Hlate eq_refl) as [_ Hkeep].
  split_and!; [exact reference_archive_names_field| |done|done|by rewrite Hw'|done|].
  - by rewrite Hw, Hsame.
  - destruct (archive_write view12 "f" _) as [[fid|e0] w2] eqn:Haw in Hkeep.
    + destruct Hkeep as (_ & Hsv & Hget). rewrite Hsv.
      assert (fid = {| fid_name := "f"; fid_id := 0 |}) as <-; [|exact Hget].
      apply (f_equal fst) in Haw. vm_compute in Haw. by injection Haw.
    + apply (f_equal fst) in Haw. vm_compute in Haw. done.
Defined.

(** C2 as stated fails: the meta-data update opens MetaData-p.json itself
    with truncation, which leaves it empty until the document is written,
    and never renames a file over it. *)
Lemma updateMetaData_not_atomic :
  (updateMetaData appending).1 = Ok ()
  /\ (file_data <$>
        (fs_files <$> Fs.open_trunc ("d", "MetaData-p.json") (disk appending))
          ≫= (.!! ("d", "MetaData-p.json")))
     = Some (FileBytes [])
  /\ take 2 (fs_log (disk (updateMetaData appending).2))
     = [OpOpenTrunc ("d", "MetaData-p.json");
        OpWrite ("d", "MetaData-p.json") (FileJson (toJSON (this appending)))]
  /\ ~ rewritten_by_rename ("d", "MetaData-p.json")
         (fs_log (disk (updateMetaData appending).2)).
Proof.
  split_and!; [by vm_compute..|].
  intros (_ & Hopen & _). apply Hopen.
  vm_compute. apply elem_of_cons. by left.
Qed.

(** The archive of the reference instantiation does follow the
    discipline for its own meta-data file. *)
Lemma archive_metadata_rewritten_by_rename :
  rewritten_by_rename ("d", "ArchiveMetaData-p.json")
    (fs_log (disk (updateMetaData appending).2)).
Proof.
  split_and!.
  - exists ("d", "ArchiveMetaData-p.json.tmp"). split_and!; [done|done|].
    vm_compute. do 4 (apply elem_of_cons; right). apply elem_of_cons. by left.
  - vm_compute. intros Hin.
    repeat (apply elem_of_cons in Hin as [Hin|Hin]; [discriminate Hin|]).
    by apply elem_of_nil in Hin.
  - intros d. vm_compute. intros Hin.
    repeat (apply elem_of_cons in Hin as [Hin|Hin]; [discriminate Hin|]).
    by apply elem_of_nil in Hin.
Qed.

End ReadWriteScenarios.

(** ** The meta-data document and the construction of a serializer *)

Section ConstructionFacts.
Context `{!FloatConversion, !Codecs, !ArchiveOps, !VersionInfo}.

#[local] Arguments Json.member : simpl never.
#[local] Arguments Json.eq_string : simpl never.
#[local] Arguments Json.count : simpl never.

Lemma at_key_count k j v : JsonAccess.at_key k j = Ok v -> Json.count k j = true.
Proof.
  unfold Json.count. destruct j; simpl; try done.
  by destruct (Json.obj_get k o).
Qed.

(** C5: the meta-data document holds serialbox_version, equal to
    100*major + 10*minor + patch, with the prefix, global_meta_info,
    savepoint_vector and field_map nodes; and parsing a stored document
    fails when it has no serialbox_version node, when its version does not
    satisfy [Version::match], and when its prefix is not the expected one.
    The serializer is left as it was in each of these cases. The version
    tested is the [int] the node converts to: for a double that an [int]
    cannot hold, whatever the platform makes of it. *)
Theorem metadata_document_checks (w : World) (jsonNode : json) :
  toJSON (this w)
  = JObject
      [("field_map", FieldMap.toJSON (fieldMap_ (this w)));
       ("global_meta_info", MetaInfoMap_toJSON (globalMetaInfo_ (this w)));
       ("prefix", JString (prefix_ (this w)));
       ("savepoint_vector", SavepointVector_toJSON (savepointVector_ (this w)));
       ("serialbox_version",
        JInt (100 * SERIALBOX_VERSION_MAJOR + 10 * SERIALBOX_VERSION_MINOR
              + SERIALBOX_VERSION_PATCH))]
  /\ (Fs.exists_file (metaDataFile_ (this w)) (disk w) = true ->
      Fs.parse (Fs.open_read (metaDataFile_ (this w)) (disk w)) = Some jsonNode ->
      (Json.count "serialbox_version" jsonNode = false ->
         constructMetaDataFromJson w
         = (Err (Exception (ErrorWhileParsing VersionNodeMissing)), w))
      /\ (forall v,
            JsonAccess.at_key "serialbox_version" jsonNode ≫= JsonAccess.to_int = Ok v ->
            Version_match v = false ->
            constructMetaDataFromJson w
            = (Err (Exception (ErrorWhileParsing VersionMismatch)), w))
      /\ (forall v,
            JsonAccess.at_key "serialbox_version" jsonNode ≫= JsonAccess.to_int = Ok v ->
            Version_match v = true ->
            Json.count "prefix" jsonNode = true ->
            Json.eq_string (Json.member "prefix" jsonNode) (prefix_ (this w)) = false ->
            constructMetaDataFromJson w
            = (Err (Exception (ErrorWhileParsing PrefixMismatch)), w))).
Proof.
  split; [reflexivity|].
  intros Hex Hparse.
  assert (forall v, JsonAccess.at_key "serialbox_version" jsonNode ≫= JsonAccess.to_int = Ok v ->
                    Json.count "serialbox_version" jsonNode = true) as Hcount.
  { intros v Hv. destruct (JsonAccess.at_key "serialbox_version" jsonNode) eqn:E; [|done].
    by eapply at_key_count. }
  unfold constructMetaDataFromJson. rewrite Hex, Hparse. simpl.
  unfold rethrow, parseMetaData. split_and!.
  - intros ->. by exec_unfold.
  - intros v Hv Hmatch. rewrite (Hcount v Hv). exec_unfold.
    by rewrite Hv, Hmatch.
  - intros v Hv Hmatch Hprefix Hne. rewrite (Hcount v Hv). exec_unfold.
    rewrite Hv, Hmatch, Hprefix. simpl. by rewrite Hne.
Qed.

(** The errors of a construction without upgrade. *)
Lemma rethrow_not_UpgradeReadOnly {A} (body : Exec A) w e w' :
  rethrow ErrorWhileParsing body w = (Err e, w') -> e <> Exception UpgradeReadOnly.
Proof.
  unfold rethrow. destruct (body w) as [[a|[k| | |]] w0]; intros [= <- _]; done.
Qed.

Lemma checkDirectory_pure w r w' : checkDirectory w = (r, w') -> w' = w.
Proof. unfold checkDirectory. by destruct (_ && _); intros [= _ <-]. Qed.

Lemma checkDirectory_not_UpgradeReadOnly w e w' :
  checkDirectory w = (Err e, w') -> e <> Exception UpgradeReadOnly.
Proof. unfold checkDirectory. by destruct (_ && _); intros [= <- _]. Qed.

Lemma constructMetaDataFromJson_not_UpgradeReadOnly w e w' :
  constructMetaDataFromJson w = (Err e, w') -> e <> Exception UpgradeReadOnly.
Proof.
  unfold constructMetaDataFromJson.
  destruct (negb (Fs.exists_file _ _)).
  - destruct (negb (bool_decide _)); intros [= <- _]; done.
  - destruct (Fs.parse _) as [jsonNode|]; [apply rethrow_not_UpgradeReadOnly|].
    intros [= <- _]; done.
Qed.

Lemma constructArchive_not_UpgradeReadOnly archiveName w e w' :
  constructArchive archiveName w = (Err e, w') -> e <> Exception UpgradeReadOnly.
Proof.
  unfold constructArchive.
  destruct (Archive_create _ _ _ _ _) as [[msg|a] fs']; simpl; intros [= <- _]; done.
Qed.

Lemma clearIfWriting_not_UpgradeReadOnly w e w' :
  clearIfWriting w = (Err e, w') -> e <> Exception UpgradeReadOnly.
Proof.
  unfold clearIfWriting, clear, archive_clear, with_archive. exec_unfold.
  destruct (bool_decide _); [|done]. simpl.
  destruct (archive_ (this w)) as [a|]; [|intros [= <- _]; done].
  by destruct (Archive_clear a (disk w)).
Qed.

(** C10: when the legacy document and the current meta-data file both
    exist and the legacy document was last written strictly earlier, the
    upgrade is skipped ([upgradeMetaData] answers false and changes
    nothing), the construction is the normal one from the current
    meta-data, and no "old serialbox archives cannot be opened in 'Write'
    or 'Append' mode" is raised, whatever the mode. *)
Theorem upgrade_skipped_when_metadata_newer (w : World) (archiveName : string) :
  Fs.exists_file (oldMetaDataFile (this w)) (disk w) = true ->
  Fs.exists_file (metaDataFile_ (this w)) (disk w) = true ->
  Fs.last_write_time (oldMetaDataFile (this w)) (disk w)
    < Fs.last_write_time (metaDataFile_ (this w)) (disk w) ->
  upgradeMetaData w = (Ok false, w)
  /\ construct archiveName w
     = (checkDirectory;; constructMetaDataFromJson;; constructArchive archiveName;;
        clearIfWriting) w
  /\ (construct archiveName w).1 <> Err (Exception UpgradeReadOnly).
Proof.
  intros Hold Hnew Hlt.
  assert (upgradeMetaData w = (Ok false, w)) as Hup.
  { unfold upgradeMetaData, upgradeNecessary. rewrite Hold, Hnew. simpl.
    by rewrite (proj2 (Z.ltb_lt _ _) Hlt). }
  assert (construct archiveName w
          = (checkDirectory;; constructMetaDataFromJson;; constructArchive archiveName;;
             clearIfWriting) w) as Hc.
  { unfold construct. exec_unfold.
    destruct (checkDirectory w) as [[[]|e] w0] eqn:Hd; [|done].
    apply checkDirectory_pure in Hd as ->. rewrite Hup. simpl.
    destruct (constructMetaDataFromJson w) as [[[]|e] w1]; [|done].
    by destruct (constructArchive archiveName w1) as [[[]|e] w2]. }
  split_and!; [done..|].
  rewrite Hc. exec_unfold.
  destruct (checkDirectory w) as [[[]|e] w0] eqn:Hd.
  2: { simpl. intros [= ->]. by eapply checkDirectory_not_UpgradeReadOnly. }
  apply checkDirectory_pure in Hd as ->.
  destruct (constructMetaDataFromJson w) as [[[]|e] w1] eqn:Hm.
  2: { simpl. intros [= ->]. by eapply constructMetaDataFromJson_not_UpgradeReadOnly. }
  destruct (constructArchive archiveName w1) as [[[]|e] w2] eqn:Ha.
  2: { simpl. intros [= ->]. by eapply constructArchive_not_UpgradeReadOnly. }
  destruct (clearIfWriting w2) as [[[]|e] w3] eqn:Hw; [done|].
  simpl. intros [= ->]. by eapply clearIfWriting_not_UpgradeReadOnly.
Qed.

(** C6: when a legacy document requires the upgrade, the upgrade runs only
    in Read mode: in Write and Append mode [upgradeMetaData], and with it
    the construction of the serializer, fails with "old serialbox archives
    cannot be opened in 'Write' or 'Append' mode" and changes nothing; and
    in Read mode, once the legacy document is upgraded, an exception of the
    final meta-data update is not raised: the upgrade answers true. *)
Theorem legacy_upgrade_read_only (w : World) :
  upgradeNecessary (this w) (disk w) = true ->
  (mode_ (this w) <> Read ->
     upgradeMetaData w = (Err (Exception UpgradeReadOnly), w)
     /\ forall archiveName,
          construct archiveName w = (Err (Exception UpgradeReadOnly), w))
  /\ (forall b w', upgradeMetaData w = (Ok b, w') -> b = true /\ mode_ (this w) = Read)
  /\ (mode_ (this w) = Read ->
      forall oldJson w1,
        Fs.open_read (oldMetaDataFile (this w)) (disk w) = Some (FileJson oldJson) ->
        upgradeFromJson oldJson w = (Ok (), w1) ->
        forall k w2, updateMetaData w1 = (Err (Exception k), w2) ->
                     upgradeMetaData w = (Ok true, w2)).
Proof.
  intros Hnec. split_and!.
  - intros Hmode.
    assert (upgradeMetaData w = (Err (Exception UpgradeReadOnly), w)) as Hup.
    { unfold upgradeMetaData. rewrite Hnec. simpl.
      by rewrite bool_decide_eq_false_2. }
    split; [done|]. intros archiveName. unfold construct, checkDirectory. exec_unfold.
    rewrite bool_decide_eq_false_2 by done. simpl. by rewrite Hup.
  - intros b w'. unfold upgradeMetaData. rewrite Hnec. simpl.
    case_bool_decide as Hmode; simpl; [|done].
    destruct (Fs.open_read _ _) as [[oldJson|bytes]|]; [|done..].
    exec_unfold.
    destruct (upgradeFromJson oldJson w) as [[[]|e] w1]; [|done].
    destruct (try_catch_log updateMetaData w1) as [[[]|e] w2]; [|done].
    by intros [= <- _].
  - intros Hmode oldJson w1 Hread Hup k w2 Hfail.
    unfold upgradeMetaData. rewrite Hnec. simpl.
    rewrite bool_decide_eq_true_2 by done. simpl. rewrite Hread. simpl.
    exec_unfold. rewrite Hup. unfold try_catch_log. by rewrite Hfail.
Qed.

End ConstructionFacts.

(** *** Construction on the reference archive *)

Section ConstructionScenarios.
Import Reference Scenario.

Lemma metadata_document_checks_witness :
  constructMetaDataFromJson (opening Read (metaDataDisk docNoVersion))
  = (Err (Exception (ErrorWhileParsing VersionNodeMissing)),
     opening Read (metaDataDisk docNoVersion))
  /\ Version_match 1 = false
  /\ constructMetaDataFromJson (opening Read (metaDataDisk docVersion1))
     = (Err (Exception (ErrorWhileParsing VersionMismatch)),
        opening Read (metaDataDisk docVersion1))
  /\ Json.eq_string (Json.member "prefix" docOtherPrefix) "p" = false
  /\ constructMetaDataFromJson (opening Read (metaDataDisk docOtherPrefix))
     = (Err (Exception (ErrorWhileParsing PrefixMismatch)),
        opening Read (metaDataDisk docOtherPrefix))
  /\ JsonAccess.at_key "serialbox_version" docVersionBeyondInt
       ≫= JsonAccess.to_int = Ok (- 2147483648)
  /\ constructMetaDataFromJson
       (opening Read (metaDataDisk docVersionBeyondInt))
     = (Err (Exception (ErrorWhileParsing VersionMismatch)),
        opening Read (metaDataDisk docVersionBeyondInt)).
Proof.
  split_and!.
  - destruct (metadata_document_checks
                (opening Read (metaDataDisk docNoVersion)) docNoVersion) as [_ Hc].
    destruct (Hc eq_refl eq_refl) as (Hv & _ & _). exact (Hv eq_refl).
  - reflexivity.
  - destruct (metadata_document_checks
                (opening Read (metaDataDisk docVersion1)) docVersion1) as [_ Hc].
    destruct (Hc eq_refl eq_refl) as (_ & Hm & _). exact (Hm 1 eq_refl eq_refl).
  - reflexivity.
  - destruct (metadata_document_checks
                (opening Read (metaDataDisk docOtherPrefix)) docOtherPrefix) as [_ Hc].
    destruct (Hc eq_refl eq_refl) as (_ & _ & Hp).
    exact (Hp 200 eq_refl eq_refl eq_refl eq_refl).
  - reflexivity.
  - destruct (metadata_document_checks
                (opening Read (metaDataDisk docVersionBeyondInt))
                docVersionBeyondInt) as [_ Hc].
    destruct (Hc eq_refl eq_refl) as (_ & Hm & _).
    exact (Hm (- 2147483648) eq_refl eq_refl).
Defined.

Lemma upgrade_skipped_when_metadata_newer_witness :
  Fs.exists_file ("d", "p.json") upgradedDisk = true
  /\ Fs.exists_file ("d", "MetaData-p.json") upgradedDisk = true
  /\ Fs.last_write_time ("d", "p.json") upgradedDisk
     < Fs.last_write_time ("d", "MetaData-p.json") upgradedDisk
  /\ upgradeMetaData (opening Append upgradedDisk) = (Ok false, opening Append upgradedDisk)
  /\ (construct "Binary" (opening Append upgradedDisk)).1 <> Err (Exception UpgradeReadOnly).
Proof.
  assert (Fs.last_write_time ("d", "p.json") upgradedDisk
          < Fs.last_write_time ("d", "MetaData-p.json") upgradedDisk) as Hlt
    by (by vm_compute).
  destruct (upgrade_skipped_when_metadata_newer (opening Append upgradedDisk) "Binary"
              eq_refl eq_refl Hlt) as (Hup & _ & Hne).
  split_and!; done.
Defined.

Lemma legacy_upgrade_read_only_witness :
  upgradeNecessary (this (opening Append (legacyDisk legacyDoc)))
    (disk (opening Append (legacyDisk legacyDoc))) = true
  /\ construct "Binary" (opening Append (legacyDisk legacyDoc))
     = (Err (Exception UpgradeReadOnly), opening Append (legacyDisk legacyDoc))
  /\ (updateMetaData (upgradeFromJson legacyDoc (opening Read legacyDiskProtected)).2).1
     = Err (Exception CannotOpenFile)
  /\ (upgradeMetaData (opening Read legacyDiskProtected)).1 = Ok true.
Proof.
  split_and!.
  - reflexivity.
  - destruct (legacy_upgrade_read_only (opening Append (legacyDisk legacyDoc)) eq_refl)
      as (Hmode & _ & _).
    assert (mode_ (this (opening Append (legacyDisk legacyDoc))) <> Read) as Hne by done.
    exact (proj2 (Hmode Hne) "Binary").
  - by vm_compute.
  - destruct (legacy_upgrade_read_only (opening Read legacyDiskProtected) eq_refl)
      as (_ & _ & Hpersist).
    set (w1 := (upgradeFromJson legacyDoc (opening Read legacyDiskProtected)).2).
    assert (upgradeFromJson legacyDoc (opening Read legacyDiskProtected) = (Ok (), w1))
      as Hup by (by vm_compute).
    assert (updateMetaData w1 = (Err (Exception CannotOpenFile), (updateMetaData w1).2))
      as Hfail by (by vm_compute).
    by rewrite (Hpersist eq_refl legacyDoc w1 eq_refl Hup _ _ Hfail).
Defined.

End ConstructionScenarios.

(** ** The legacy upgrade *)

Section UpgradeFacts.
Context `{!FloatConversion}.

Lemma deduceValue_float ty d : deduceValue ty (JFloat d) = Ok (float_value ty d).
Proof. unfold deduceValue, float_value. simpl. by case_bool_decide. Qed.

Lemma addMetaInfo_Ok key v m m' :
  addMetaInfo key v m = (Ok (), m') -> m !! key = None /\ m' = <[key := v]> m.
Proof.
  unfold addMetaInfo, MetaInfoMap.insert.
  destruct (m !! key); [done|]. by intros [= <-].
Qed.

Lemma upgradeMetaInfo_mono ty its m0 m :
  upgradeMetaInfo ty its m0 = (Ok (), m) -> m0 ⊆ m.
Proof.
  revert m0. induction its as [|[key value] its IH]; intros m0; simpl.
  - by intros [= <-].
  - destruct (negb (String.prefix "__" key)); [|apply IH].
    destruct (deduceValue ty value) as [v|e]; [|done].
    destruct (addMetaInfo key v m0) as [[[]|e] m1] eqn:Hadd; [|done].
    apply addMetaInfo_Ok in Hadd as [Hfresh ->].
    intros Hrest. etrans; [|by apply IH]. by apply insert_subseteq.
Qed.

(** Every member of a legacy meta-info object whose key does not start
    with "__" ends up in the map, typed by [deduceValue]. *)
Lemma upgradeMetaInfo_lookup ty its m0 m :
  upgradeMetaInfo ty its m0 = (Ok (), m) ->
  forall k value, (k, value) ∈ its -> String.prefix "__" k = false ->
    exists v, deduceValue ty value = Ok v /\ m !! k = Some v.
Proof.
  revert m0. induction its as [|[key value] its IH]; intros m0; simpl.
  - intros _ k v Hin. by apply elem_of_nil in Hin.
  - intros Hup k value' Hin Hk.
    apply elem_of_cons in Hin as [[= -> ->]|Hin].
    + rewrite Hk in Hup. simpl in Hup.
      destruct (deduceValue ty value) as [v|e]; [|done].
      destruct (addMetaInfo key v m0) as [[[]|e] m1] eqn:Hadd; [|done].
      apply addMetaInfo_Ok in Hadd as [Hfresh ->].
      exists v. split; [done|].
      eapply lookup_weaken; [|by eapply upgradeMetaInfo_mono].
      apply lookup_insert_eq.
    + destruct (negb (String.prefix "__" key)); [|by eapply IH].
      destruct (deduceValue ty value) as [v|e]; [|done].
      destruct (addMetaInfo key v m0) as [[[]|e] m1] eqn:Hadd; [|done].
      by eapply IH.
Qed.

Lemma upgradeFieldMetaInfo_mono ty its m0 m :
  upgradeFieldMetaInfo ty its m0 = Ok m -> m0 ⊆ m.
Proof.
  revert m0. induction its as [|[key value] its IH]; intros m0; simpl.
  - by intros [= <-].
  - destruct (deduceValue ty value) as [v|e]; [|done]. simpl.
    intros Hrest. apply IH in Hrest. etrans; [|exact Hrest].
    unfold MetaInfoMap.insert. destruct (m0 !! key) eqn:E; simpl; [done|].
    by apply insert_subseteq.
Qed.

(** Every member of an entry of the fields table ends up in the field's
    meta-info, reserved keys included. *)
Lemma upgradeFieldMetaInfo_lookup ty its m0 m :
  upgradeFieldMetaInfo ty its m0 = Ok m ->
  forall k value, m0 !! k = None -> Json.obj_get k its = Some value ->
    exists v, deduceValue ty value = Ok v /\ m !! k = Some v.
Proof.
  revert m0. induction its as [|[key value] its IH]; intros m0; simpl; [done|].
  destruct (deduceValue ty value) as [v|e] eqn:Hv; [|done]. simpl.
  intros Hrest k value' Hfresh.
  destruct (String.eqb_spec k key) as [->|Hne].
  - intros [= <-]. exists v. split; [done|].
    eapply lookup_weaken; [|by eapply upgradeFieldMetaInfo_mono].
    unfold MetaInfoMap.insert. rewrite Hfresh. simpl. apply lookup_insert_eq.
  - intros Hget. eapply IH; [exact Hrest| |exact Hget].
    unfold MetaInfoMap.insert. destruct (m0 !! key); simpl; [done|].
    by rewrite lookup_insert_ne.
Qed.

Lemma rbind_Ok {A B} (r : result A) (f : A -> result B) b :
  r ≫= f = Ok b -> exists a, r = Ok a /\ f a = Ok b.
Proof. destruct r as [a|e]; [|done]. intros Hf. by exists a. Qed.

Lemma to_string_Ok j s : JsonAccess.to_string j = Ok s -> j = JString s.
Proof. destruct j; try done. by intros [= ->]. Qed.

(** What the upgrade registers for an entry of the fields table: the name
    and element type of the entry, its sizes as dims, and every member of
    the entry as meta-info. *)
Lemma upgradeFieldInfo_Ok ty fieldInfo name info :
  upgradeFieldInfo ty fieldInfo = Ok (name, info) ->
  JsonAccess.at_key "__name" fieldInfo = Ok (JString name)
  /\ (exists elementtype,
        JsonAccess.at_key "__elementtype" fieldInfo = Ok (JString elementtype)
        /\ fmi_type info = translateElementType elementtype)
  /\ (exists isize jsize ksize,
        JsonAccess.at_key "__isize" fieldInfo ≫= JsonAccess.to_int = Ok isize
        /\ JsonAccess.at_key "__jsize" fieldInfo ≫= JsonAccess.to_int = Ok jsize
        /\ JsonAccess.at_key "__ksize" fieldInfo ≫= JsonAccess.to_int = Ok ksize
        /\ if Json.count "__lsize" fieldInfo then
             exists lsize,
               JsonAccess.at_key "__lsize" fieldInfo ≫= JsonAccess.to_int = Ok lsize
               /\ fmi_dims info = [isize; jsize; ksize; lsize]
           else fmi_dims info = [isize; jsize; ksize])
  /\ (forall k value, JsonAccess.at_key k fieldInfo = Ok value ->
        exists v, deduceValue ty value = Ok v /\ fmi_metaInfo info !! k = Some v).
Proof.
  unfold upgradeFieldInfo. intros Hup.
  apply rbind_Ok in Hup as (name' & Hname & Hup).
  apply rbind_Ok in Hup as (elementtype & Hel & Hup).
  apply rbind_Ok in Hup as (isize & Hi & Hup).
  apply rbind_Ok in Hup as (jsize & Hj & Hup).
  apply rbind_Ok in Hup as (ksize & Hk & Hup).
  apply rbind_Ok in Hup as (dims & Hdims & Hup).
  apply rbind_Ok in Hup as (its & Hits & Hup).
  apply rbind_Ok in Hup as (metaInfo & Hmeta & Hup).
  injection Hup as <- <-. simpl.
  apply rbind_Ok in Hname as (jn & Hjn & Hs). apply to_string_Ok in Hs as ->.
  apply rbind_Ok in Hel as (je & Hje & Hs). apply to_string_Ok in Hs as ->.
  split_and!; [done|by eauto| |].
  - exists isize, jsize, ksize. split_and!; [done..|].
    destruct (Json.count "__lsize" fieldInfo).
    + apply rbind_Ok in Hdims as (lsize & Hl & [= <-]). by exists lsize.
    + by injection Hdims as <-.
  - intros k value Hat. destruct fieldInfo; try done. simpl in *.
    injection Hits as <-.
    destruct (Json.obj_get k o) as [value'|] eqn:Hget; [|done].
    injection Hat as ->.
    eapply upgradeFieldMetaInfo_lookup; [exact Hmeta|apply lookup_empty|done].
Qed.

Lemma FieldMap_insert_lookup name info (fm : FieldMap) k x :
  (FieldMap.insert name info fm).2 !! k = Some x ->
  fm !! k = Some x \/ (k = name /\ x = info).
Proof.
  unfold FieldMap.insert. destruct (fm !! name) eqn:E; simpl; [by left|].
  destruct (decide (k = name)) as [->|Hne].
  - rewrite lookup_insert_eq. intros [= <-]. by right.
  - rewrite lookup_insert_ne by done. by left.
Qed.

(** A field in the map after the loop over the fields table was there
    before, or comes from an entry of the table. *)
Lemma upgradeFieldsTable_origin ty fieldsTable (fm fm' : FieldMap) :
  upgradeFieldsTable ty fieldsTable fm = (Ok (), fm') ->
  forall name info, fm' !! name = Some info ->
    fm !! name = Some info
    \/ exists fieldInfo, fieldInfo ∈ fieldsTable
                         /\ upgradeFieldInfo ty fieldInfo = Ok (name, info).
Proof.
  revert fm. induction fieldsTable as [|fieldInfo rest IH]; intros fm; simpl.
  - intros [= <-] name info Hl. by left.
  - destruct (upgradeFieldInfo ty fieldInfo) as [[name0 info0]|e] eqn:Hf; [|done].
    intros Hrest name info Hl.
    destruct (IH _ Hrest name info Hl) as [Hin|(fi & Hin & Hfi)].
    + apply FieldMap_insert_lookup in Hin as [Hin|[-> ->]]; [by left|].
      right. exists fieldInfo. split; [apply elem_of_cons; by left|done].
    + right. exists fi. split; [apply elem_of_cons; by right|done].
Qed.

Lemma addField_savepoints idx fid sv :
  SavepointVector.savepoints (SavepointVector.addField idx fid sv).2
  = SavepointVector.savepoints sv.
Proof.
  unfold SavepointVector.addField, SavepointVector.savepoints.
  destruct (SavepointVector.hasField _ _ _); [done|].
  destruct (idx <? 0); [done|]. simpl.
  apply list_eq. intros i. rewrite !list_lookup_fmap.
  destruct (decide (i = Z.to_nat idx)) as [->|Hne].
  - rewrite list_lookup_alter_eq. by destruct (sv !! Z.to_nat idx).
  - by rewrite list_lookup_alter_ne.
Qed.

Lemma upgradeOffsets_savepoints idx its st r st' :
  upgradeOffsets idx its st = (r, st') ->
  SavepointVector.savepoints st'.1 = SavepointVector.savepoints st.1.
Proof.
  revert st. induction its as [|[fieldname value] its IH]; intros st; simpl.
  - by intros [= _ <-].
  - destruct (_ ≫= _) as [[fieldID fieldTable']|e]; [|by intros [= _ <-]].
    pose proof (addField_savepoints idx fieldID st.1) as Hs.
    destruct (SavepointVector.addField idx fieldID st.1) as [[[]|e] sv'].
    + intros Hrest. apply IH in Hrest. by rewrite Hrest.
    + by intros [= _ <-].
Qed.

Lemma insert_savepoints sp sv x :
  x ∈ SavepointVector.savepoints (SavepointVector.insert sp sv).2 ->
  x ∈ SavepointVector.savepoints sv \/ x = sp.
Proof.
  unfold SavepointVector.insert, SavepointVector.savepoints.
  destruct (_ =? -1); simpl; [|by left].
  rewrite fmap_app, elem_of_app. simpl. rewrite list_elem_of_singleton. tauto.
Qed.

(** A savepoint in the vector after the loop over the offset table was
    there before, or is built from an entry of the table. *)
Lemma upgradeOffsetTable_origin ty offsetTable st r st' :
  upgradeOffsetTable ty offsetTable st = (r, st') ->
  forall sp, sp ∈ SavepointVector.savepoints st'.1 ->
    sp ∈ SavepointVector.savepoints st.1
    \/ exists entry, entry ∈ offsetTable /\ upgradeSavepoint ty entry = Ok sp.
Proof.
  revert st. induction offsetTable as [|entry rest IH]; intros st; simpl.
  - intros [= _ <-] sp Hin. by left.
  - destruct (upgradeSavepoint ty entry) as [savepoint|e] eqn:Hsp;
      [|intros [= _ <-] sp Hin; by left].
    pose proof (insert_savepoints savepoint st.1) as Hins.
    destruct (SavepointVector.insert savepoint st.1) as [savepointIdx sv] eqn:Hi.
    simpl in Hins.
    assert (forall sp, sp ∈ SavepointVector.savepoints sv ->
              sp ∈ SavepointVector.savepoints st.1
              \/ exists e, e ∈ entry :: rest /\ upgradeSavepoint ty e = Ok sp) as Hsv.
    { intros sp Hin. apply Hins in Hin as [Hin| ->]; [by left|].
      right. exists entry. split; [apply elem_of_cons; by left|done]. }
    destruct (savepointIdx =? -1); [intros [= _ <-]; exact Hsv|].
    destruct (_ ≫= _) as [its|e]; [|intros [= _ <-]; exact Hsv].
    destruct (upgradeOffsets savepointIdx its (sv, st.2)) as [r1 st1] eqn:Hoff.
    apply upgradeOffsets_savepoints in Hoff. simpl in Hoff.
    assert (forall sp, sp ∈ SavepointVector.savepoints st1.1 ->
              sp ∈ SavepointVector.savepoints st.1
              \/ exists e, e ∈ entry :: rest /\ upgradeSavepoint ty e = Ok sp) as Hst1
      by (by rewrite Hoff).
    destruct r1 as [[]|e]; [|intros [= _ <-]; exact Hst1].
    intros Hrest sp Hin.
    destruct (IH _ Hrest sp Hin) as [Hin1|(e & He & Hse)]; [by apply Hst1|].
    right. exists e. split; [apply elem_of_cons; by right|done].
Qed.

(** The savepoint built from an entry of the offset table. *)
Lemma upgradeSavepoint_Ok ty entry sp :
  upgradeSavepoint ty entry = Ok sp ->
  JsonAccess.at_key "__name" entry = Ok (JString (sp_name sp))
  /\ exists its, JsonAccess.items entry = Ok its
       /\ forall k value, (k, value) ∈ its -> String.prefix "__" k = false ->
            exists v, deduceValue ty value = Ok v /\ sp_metaInfo sp !! k = Some v.
Proof.
  unfold upgradeSavepoint. intros Hup.
  apply rbind_Ok in Hup as (name & Hname & Hup).
  apply rbind_Ok in Hup as (its & Hits & Hup).
  destruct (upgradeMetaInfo ty its ∅) as [[[]|e] m] eqn:Hm; [|done].
  injection Hup as <-. simpl.
  apply rbind_Ok in Hname as (jn & Hjn & Hs). apply to_string_Ok in Hs as ->.
  split; [done|]. exists its. split; [done|].
  by eapply upgradeMetaInfo_lookup.
Qed.

Lemma eq_string_true j s : Json.eq_string j s = true <-> j = JString s.
Proof.
  destruct j; simpl; try (split; [done|by intros [=]]).
  rewrite String.eqb_eq. split; [by intros ->|by intros [= ->]].
Qed.

Lemma member_assign_ne k k' v j :
  k <> k' -> Json.count k j = true ->
  Json.member k' (Json.assign k v j) = Json.member k' j
  /\ Json.count k' (Json.assign k v j) = Json.count k' j.
Proof.
  intros Hne Hc. destruct j; try done. simpl.
  by rewrite obj_get_set_ne.
Qed.

Lemma member_assign_eq k v j :
  Json.member k (Json.assign k v j) = v /\ Json.count k (Json.assign k v j) = true.
Proof.
  destruct j; simpl; rewrite ?String.eqb_refl, ?obj_get_set_eq; done.
Qed.

(** The float type is decided by the first entry of the fields table
    alone; the document is left as it was, up to the member
    "__elementtype" the look-up creates in that entry when it has none. *)
Lemma deduceFloatType_Ok oldJson ty oldJson' :
  deduceFloatType oldJson = Ok (ty, oldJson') ->
  (ty = Float32 <->
     exists entry rest,
       Json.member "FieldsTable" oldJson = JArray (entry :: rest)
       /\ Json.member "__elementtype" entry = JString "float")
  /\ (ty <> Float32 -> ty = Float64)
  /\ (forall k, k <> "FieldsTable" ->
        Json.member k oldJson' = Json.member k oldJson
        /\ Json.count k oldJson' = Json.count k oldJson)
  /\ (oldJson' = oldJson
      \/ exists entry entry' rest elementtype,
           Json.member "FieldsTable" oldJson = JArray (entry :: rest)
           /\ Json.member "FieldsTable" oldJson' = JArray (entry' :: rest)
           /\ Json.count "FieldsTable" oldJson' = true
           /\ JsonAccess.subscript_key "__elementtype" entry = Ok (elementtype, entry')).
Proof.
  unfold deduceFloatType.
  destruct (Json.count "FieldsTable" oldJson) eqn:Hcount; simpl.
  2: { intros [= <- <-]. split_and!; [|done|done|by left].
       split; [done|]. intros (entry & rest & Hm & _).
       destruct oldJson; try done. simpl in *.
       by destruct (Json.obj_get "FieldsTable" o). }
  destruct (0 <? Json.size (Json.member "FieldsTable" oldJson))%nat eqn:Hsize.
  2: { intros [= <- <-]. split_and!; [|done|done|by left].
       split; [done|]. intros (entry & rest & Hm & _). by rewrite Hm in Hsize. }
  destruct (Json.member "FieldsTable" oldJson) as [| | | | |[|entry rest]|] eqn:Hm;
    try done.
  intros Hs. apply rbind_Ok in Hs as ([elementtype entry'] & Hsub & [= <- <-]).
  split_and!.
  - split.
    + destruct (Json.eq_string elementtype "float") eqn:E; [|done]. intros _.
      apply eq_string_true in E as ->. exists entry, rest. split; [done|].
      destruct entry; try done. simpl in *.
      destruct (Json.obj_get "__elementtype" o); by simplify_eq.
    + intros (entry0 & rest0 & [= <- <-] & Hel).
      destruct entry; try done. simpl in *.
      destruct (Json.obj_get "__elementtype" o); [|done].
      simpl in *. injection Hsub as <- <-. by subst.
  - by destruct (Json.eq_string elementtype "float").
  - intros k Hk. by apply member_assign_ne.
  - right. exists entry, entry', rest, elementtype.
    destruct (member_assign_eq "FieldsTable" (JArray (entry' :: rest)) oldJson) as [-> ->].
    done.
Qed.

(** An entry that upgrades successfully has its "__elementtype", so the
    look-up of the float type did not change it. *)
Lemma subscript_key_upgradable ty entry entry' elementtype name info :
  JsonAccess.subscript_key "__elementtype" entry = Ok (elementtype, entry') ->
  upgradeFieldInfo ty entry' = Ok (name, info) ->
  entry' = entry.
Proof.
  intros Hsub Hup. apply upgradeFieldInfo_Ok in Hup as (Hname & (et & Het & _) & _).
  destruct entry; try done; simpl in *.
  - injection Hsub as <- <-. done.
  - destruct (Json.obj_get "__elementtype" o) eqn:E.
    + by injection Hsub as <- <-.
    + injection Hsub as <- <-. simpl in Het. by rewrite obj_get_set_eq in Het.
Qed.

Lemma upgradeGlobalMetaInfo_Ok ty oldJson w w' :
  upgradeGlobalMetaInfo ty oldJson w = (Ok (), w') ->
  fieldMap_ (this w') = fieldMap_ (this w)
  /\ savepointVector_ (this w') = savepointVector_ (this w)
  /\ forall its k value,
       JsonAccess.items (Json.member "GlobalMetainfo" oldJson) = Ok its ->
       (k, value) ∈ its -> String.prefix "__" k = false ->
       exists v, deduceValue ty value = Ok v /\ globalMetaInfo_ (this w') !! k = Some v.
Proof.
  unfold upgradeGlobalMetaInfo.
  destruct (Json.count "GlobalMetainfo" oldJson) eqn:Hc.
  - exec_unfold.
    destruct (JsonAccess.items (Json.member "GlobalMetainfo" oldJson)) as [its|e]; [|done].
    destruct (upgradeMetaInfo ty its (globalMetaInfo_ (this w))) as [[[]|e] m] eqn:Hm;
      intros [= <-]. simpl.
    split_and!; [done..|]. intros its' k value [= <-]. by eapply upgradeMetaInfo_lookup.
  - intros [= <-]. split_and!; [done..|]. intros its k value Hits Hin.
    assert (Json.member "GlobalMetainfo" oldJson = JNull) as Hnull.
    { destruct oldJson; try done. simpl in *.
      by destruct (Json.obj_get "GlobalMetainfo" o). }
    rewrite Hnull in Hits. injection Hits as <-. by apply elem_of_nil in Hin.
Qed.

Lemma upgradeFields_Ok ty oldJson w w' :
  upgradeFields ty oldJson w = (Ok (), w') ->
  globalMetaInfo_ (this w') = globalMetaInfo_ (this w)
  /\ savepointVector_ (this w') = savepointVector_ (this w)
  /\ forall name info, fieldMap_ (this w') !! name = Some info ->
       fieldMap_ (this w) !! name = Some info
       \/ exists fieldsTable fieldInfo,
            JsonAccess.elements (Json.member "FieldsTable" oldJson) = Ok fieldsTable
            /\ fieldInfo ∈ fieldsTable
            /\ upgradeFieldInfo ty fieldInfo = Ok (name, info).
Proof.
  unfold upgradeFields.
  destruct (Json.count "FieldsTable" oldJson) eqn:Hc.
  - exec_unfold.
    destruct (JsonAccess.elements (Json.member "FieldsTable" oldJson))
      as [fieldsTable|e]; [|done].
    destruct (upgradeFieldsTable ty fieldsTable (fieldMap_ (this w))) as [[[]|e] fm] eqn:Hf;
      intros [= <-]. simpl.
    split_and!; [done..|]. intros name info Hl.
    destruct (upgradeFieldsTable_origin _ _ _ _ Hf name info Hl) as [?|(fi & Hin & Hfi)];
      [by left|].
    right. by exists fieldsTable, fi.
  - intros [= <-]. split_and!; [done..|]. intros name info Hl. by left.
Qed.

Lemma upgradeSavepoints_Ok ty oldJson w r w' :
  upgradeSavepoints ty oldJson w = (r, w') ->
  globalMetaInfo_ (this w') = globalMetaInfo_ (this w)
  /\ fieldMap_ (this w') = fieldMap_ (this w)
  /\ forall sp, sp ∈ SavepointVector.savepoints (savepointVector_ (this w')) ->
       sp ∈ SavepointVector.savepoints (savepointVector_ (this w))
       \/ exists offsetTable entry,
            JsonAccess.elements (Json.member "OffsetTable" oldJson) = Ok offsetTable
            /\ entry ∈ offsetTable
            /\ upgradeSavepoint ty entry = Ok sp.
Proof.
  unfold upgradeSavepoints. exec_unfold.
  destruct (Json.count "OffsetTable" oldJson) eqn:Hc.
  - destruct (JsonAccess.elements (Json.member "OffsetTable" oldJson))
      as [offsetTable|e]; simpl.
    2: { intros [= _ <-]. simpl. split_and!; [done..|]. intros sp Hin. by left. }
    destruct (upgradeOffsetTable ty offsetTable _) as [r1 st] eqn:Ho.
    intros [= _ <-]. simpl. split_and!; [done..|]. intros sp Hin.
    destruct (upgradeOffsetTable_origin _ _ _ _ _ Ho sp Hin) as [?|(entry & He & Hsp)];
      [by left|].
    right. by exists offsetTable, entry.
  - intros [= _ <-]. simpl. split_and!; [done..|]. intros sp Hin. by left.
Qed.

(** C3, as amended: the float type of the upgrade is Float32 if and only
    if the fields table has a first entry and the "__elementtype" of that
    first entry is "float" (later entries are not looked at); otherwise it
    is Float64. After a successful upgrade every untagged JSON float of
    the global meta-info, of the entry of a registered field and of the
    entry of a registered savepoint carries that type. *)
Theorem upgrade_float_tag (oldJson : json) (w w' : World) :
  upgradeFromJson oldJson w = (Ok (), w') ->
  exists floatType,
    (floatType = Float32 <->
       exists entry rest,
         Json.member "FieldsTable" oldJson = JArray (entry :: rest)
         /\ Json.member "__elementtype" entry = JString "float")
    /\ (floatType <> Float32 -> floatType = Float64)
    /\ (forall its k d,
          JsonAccess.items (Json.member "GlobalMetainfo" oldJson) = Ok its ->
          (k, JFloat d) ∈ its -> String.prefix "__" k = false ->
          globalMetaInfo_ (this w') !! k = Some (float_value floatType d))
    /\ (forall name info, fieldMap_ (this w') !! name = Some info ->
          fieldMap_ (this w) !! name = Some info
          \/ exists fieldsTable fieldInfo,
               JsonAccess.elements (Json.member "FieldsTable" oldJson) = Ok fieldsTable
               /\ fieldInfo ∈ fieldsTable
               /\ JsonAccess.at_key "__name" fieldInfo = Ok (JString name)
               /\ forall k d, JsonAccess.at_key k fieldInfo = Ok (JFloat d) ->
                    fmi_metaInfo info !! k = Some (float_value floatType d))
    /\ (forall sp, sp ∈ SavepointVector.savepoints (savepointVector_ (this w')) ->
          sp ∈ SavepointVector.savepoints (savepointVector_ (this w))
          \/ exists offsetTable entry its,
               JsonAccess.elements (Json.member "OffsetTable" oldJson) = Ok offsetTable
               /\ entry ∈ offsetTable
               /\ JsonAccess.at_key "__name" entry = Ok (JString (sp_name sp))
               /\ JsonAccess.items entry = Ok its
               /\ forall k d, (k, JFloat d) ∈ its -> String.prefix "__" k = false ->
                    sp_metaInfo sp !! k = Some (float_value floatType d)).
Proof.
  unfold upgradeFromJson. exec_unfold.
  destruct (deduceFloatType oldJson) as [[ty oldJson']|e] eqn:Hd; [|done].
  destruct (upgradeGlobalMetaInfo ty oldJson' w) as [[[]|e] w1] eqn:Hg; [|done].
  destruct (upgradeFields ty oldJson' w1) as [[[]|e] w2] eqn:Hf; [|done].
  intros Hs.
  apply deduceFloatType_Ok in Hd as (Hty & Hty' & Hmem & Hdoc).
  apply upgradeGlobalMetaInfo_Ok in Hg as (Hg1 & Hg2 & Hg3).
  apply upgradeFields_Ok in Hf as (Hf1 & Hf2 & Hf3).
  apply upgradeSavepoints_Ok in Hs as (Hs1 & Hs2 & Hs3).
  exists ty. split_and!; [done|done|..].
  - intros its k d Hits Hin Hk. rewrite Hs1, Hf1.
    destruct (Hmem "GlobalMetainfo") as [Hm _]; [done|]. rewrite <- Hm in Hits.
    destruct (Hg3 its k (JFloat d) Hits Hin Hk) as (v & Hv & Hl).
    rewrite deduceValue_float in Hv. by injection Hv as <-.
  - intros name info Hl. rewrite Hs2 in Hl. rewrite <- Hg1.
    destruct (Hf3 name info Hl) as [?|(fieldsTable & fieldInfo & Hel & Hin & Hup)];
      [by left|right].
    pose proof (upgradeFieldInfo_Ok _ _ _ _ Hup) as (Hname & _ & _ & Hmeta).
    assert (forall k d, JsonAccess.at_key k fieldInfo = Ok (JFloat d) ->
                        fmi_metaInfo info !! k = Some (float_value ty d)) as Hfloat.
    { intros k d Hat. destruct (Hmeta k (JFloat d) Hat) as (v & Hv & Hlv).
      rewrite deduceValue_float in Hv. by injection Hv as <-. }
    destruct Hdoc as [->|(entry & entry' & rest & et & Hold & Hnew & _ & Hsub)].
    { by exists fieldsTable, fieldInfo. }
    rewrite Hnew in Hel. injection Hel as <-.
    exists (entry :: rest), fieldInfo. rewrite Hold. split_and!; [done| |done..].
    apply elem_of_cons in Hin as [->|Hin]; apply elem_of_cons; [left|by right].
    by eapply subscript_key_upgradable.
  - intros sp Hin. rewrite <- Hg2, <- Hf2.
    destruct (Hs3 sp Hin) as [?|(offsetTable & entry & Hel & He & Hup)]; [by left|right].
    destruct (Hmem "OffsetTable") as [Hm _]; [done|]. rewrite Hm in Hel.
    apply upgradeSavepoint_Ok in Hup as (Hname & its & Hits & Hmeta).
    exists offsetTable, entry, its. split_and!; [done..|].
    intros k d Hk Hpre. destruct (Hmeta k (JFloat d) Hk Hpre) as (v & Hv & Hlv).
    rewrite deduceValue_float in Hv. by injection Hv as <-.
Qed.

End UpgradeFacts.


(** *** The upgrade of the legacy scenarios *)

Section UpgradeScenarios.
Import Reference Scenario.

Lemma upgrade_float_tag_witness :
  upgradeFromJson legacyFloatDoc (opening Read (legacyDisk legacyFloatDoc))
  = (Ok (), (upgradeFromJson legacyFloatDoc (opening Read (legacyDisk legacyFloatDoc))).2)
  /\ globalMetaInfo_
       (this (upgradeFromJson legacyFloatDoc (opening Read (legacyDisk legacyFloatDoc))).2)
     !! "dt" = Some (VFloat32 (float_of_double half)).
Proof.
  assert (upgradeFromJson legacyFloatDoc (opening Read (legacyDisk legacyFloatDoc))
          = (Ok (), (upgradeFromJson legacyFloatDoc
                       (opening Read (legacyDisk legacyFloatDoc))).2)) as Hup
    by (by vm_compute).
  split; [exact Hup|].
  destruct (upgrade_float_tag _ _ _ Hup) as (ty & Hty & _ & Hglobal & _).
  assert (ty = Float32) as ->.
  { apply Hty. by exists (legacyField "v" "float"), []. }
  apply (Hglobal [("__format", JString "Ser"); ("dt", JFloat half)]); [done| |done].
  apply elem_of_cons. right. apply elem_of_cons. by left.
Defined.

(** C3 as stated fails: the second entry of the fields table has the
    element type "float", the first one has "double", and the float type
    is Float64: the untagged float of the global meta-info is upgraded as
    a Float64. *)
Lemma float_tag_ignores_later_entries :
  Json.member "FieldsTable" legacyMixedDoc
  = JArray [legacyField "u" "double"; legacyField "v" "float"]
  /\ Json.member "__elementtype" (legacyField "v" "float") = JString "float"
  /\ deduceFloatType legacyMixedDoc = Ok (Float64, legacyMixedDoc)
  /\ (upgradeMetaData (opening Read (legacyDisk legacyMixedDoc))).1 = Ok true
  /\ globalMetaInfo_ (this (upgradeMetaData (opening Read (legacyDisk legacyMixedDoc))).2)
     !! "dt" = Some (VFloat64 half).
Proof. split_and!; by vm_compute. Qed.


(** The legacy documents of the scenarios are documents as the parser
    builds them. *)
Lemma legacy_documents_well_formed :
  Json.well_formed legacyDoc = true
  /\ Json.well_formed legacyMixedDoc = true
  /\ Json.well_formed legacyFloatDoc = true.
Proof. split_and!; reflexivity. Qed.

End UpgradeScenarios.

(** ** More on reading and writing *)

Section MoreReadWriteFacts.
Context `{!FloatConversion, !Codecs, !ArchiveOps, !VersionInfo}.

Lemma dims_differ_false a b : dims_differ a b = false <-> a = b.
Proof.
  unfold dims_differ. rewrite orb_false_iff, !negb_false_iff, Nat.eqb_eq.
  split.
  - intros [Hlen Hall]. revert b Hlen Hall.
    induction a as [|x a IH]; intros [|y b]; simpl; try done.
    intros [= Hlen]. rewrite andb_true_iff, Z.eqb_eq. intros [-> Hall].
    f_equal. by apply IH.
  - intros <-. split; [done|]. induction a as [|x a IH]; [done|].
    simpl. by rewrite Z.eqb_refl.
Qed.

Lemma checkStorageView_accepts (name : string) (view : StorageView) (w : World) :
  checkStorageView name view w = (Ok (), w) <->
  exists info, fieldMap_ (this w) !! name = Some info
               /\ fmi_type info = view_type view
               /\ fmi_dims info = view_dims view.
Proof.
  unfold checkStorageView. exec_unfold.
  destruct (fieldMap_ (this w) !! name) as [info|] eqn:Hl.
  2: { split; [done|]. by intros (? & ? & _). }
  destruct (dims_differ (view_dims view) (fmi_dims info)) eqn:Hd.
  - assert (fmi_dims info <> view_dims view) as Hne.
    { intros Heq. symmetry in Heq. apply dims_differ_false in Heq. congruence. }
    case_bool_decide as Ht; simpl; (split; [done|]);
      intros (info' & [= <-] & ? & ?); done.
  - apply dims_differ_false in Hd.
    case_bool_decide as Ht; simpl.
    + split; [|done]. intros _. by exists info.
    + split; [done|]. intros (info' & [= <-] & ? & _). done.
Qed.

(** X1: the storage-view check accepts a view exactly when the field is
    registered with the type and the dims of the view; otherwise it raises,
    in this order of precedence, "not registered", the type mismatch and
    the dimension mismatch, and in no case changes anything. *)
Theorem checkStorageView_spec (name : string) (view : StorageView) (w : World) :
  (checkStorageView name view w = (Ok (), w) <->
     exists info, fieldMap_ (this w) !! name = Some info
                  /\ fmi_type info = view_type view
                  /\ fmi_dims info = view_dims view)
  /\ (fieldMap_ (this w) !! name = None ->
      checkStorageView name view w = (Err (Exception FieldNotRegistered), w))
  /\ (forall info, fieldMap_ (this w) !! name = Some info ->
        fmi_type info <> view_type view ->
        checkStorageView name view w = (Err (Exception TypeMismatch), w))
  /\ (forall info, fieldMap_ (this w) !! name = Some info ->
        fmi_type info = view_type view -> fmi_dims info <> view_dims view ->
        checkStorageView name view w = (Err (Exception ShapeMismatch), w)).
Proof.
  unfold checkStorageView. exec_unfold.
  destruct (fieldMap_ (this w) !! name) as [info|] eqn:Hl.
  2: { split_and!; [|done..]. split; [done|]. by intros (? & ? & _). }
  destruct (dims_differ (view_dims view) (fmi_dims info)) eqn:Hd.
  - assert (fmi_dims info <> view_dims view) as Hne.
    { intros Heq. symmetry in Heq. apply dims_differ_false in Heq. congruence. }
    case_bool_decide as Ht; simpl.
    + split_and!; [|done| |]; [|intros ? [= <-]; done..].
      split; [done|]. intros (info' & [= <-] & _ & ?). done.
    + split_and!; [|done| |]; [|intros ? [= <-]; done..].
      split; [done|]. intros (info' & [= <-] & ? & _). done.
  - apply dims_differ_false in Hd.
    case_bool_decide as Ht; simpl.
    + split_and!; [|done| |]; [|intros ? [= <-]; done..].
      split; [|done]. intros _. by exists info.
    + split_and!; [|done| |]; [|intros ? [= <-]; done..].
      split; [done|]. intros (info' & [= <-] & ? & _). done.
Qed.

Lemma write_tail_Ok name view idx w1 w' :
  archive_names_field ->
  (let (r0, w'1) := archive_write view name w1 in
   match r0 with
   | Ok a0 =>
       let (r1, w'2) :=
         let '(r1, m) := SavepointVector.addField idx a0 (savepointVector_ (this w'1)) in
         (r1, {| this := set_savepointVector m (this w'1); disk := disk w'1 |}) in
       match r1 with
       | Ok _ => updateMetaData w'2
       | Err e0 => (Err e0, w'2)
       end
   | Err e0 => (Err e0, w'1)
   end) = (Ok (), w') ->
  exists fid a,
    fid_name fid = name
    /\ SavepointVector.addField idx fid (savepointVector_ (this w1))
       = (Ok (), savepointVector_ (this w'))
    /\ this w' = set_archive a
                   (set_savepointVector (savepointVector_ (this w')) (this w1))
    /\ exists a0 a1 fs1,
         archive_ (this w1) = Some a0
         /\ Archive_write view name a0 (disk w1) = (inr fid, a1, fs1).
Proof.
  intros Harch.
  destruct (archive_write view name w1) as [[fid|e0] w2] eqn:Hw; [|done].
  pose proof (archive_write_name _ _ _ _ _ Harch Hw) as Hname.
  destruct (archive_write_answer _ _ _ _ _ Hw) as (a0 & a1 & fs1 & Ha0 & Haw & _).
  apply with_archive_this in Hw as [[a Ha] _].
  assert (savepointVector_ (this w2) = savepointVector_ (this w1)) as Hsv by (by rewrite Ha).
  rewrite Hsv.
  destruct (SavepointVector.addField idx fid (savepointVector_ (this w1))) as [r1 m] eqn:Hadd.
  destruct r1 as [[]|e1]; [|done].
  intros Hu. apply updateMetaData_this in Hu as [[a' Ha'] _]. simpl in *.
  exists fid, a'. rewrite Ha', Ha. simpl. split_and!; [done|done| |by exists a0, a1, fs1].
  by destruct (this w1).
Qed.

(** What a successful [write] has done. *)
Lemma write_Ok_inv name sp view w w' :
  archive_names_field ->
  write name sp view w = (Ok (), w') ->
  let sv := savepointVector_ (this w) in
  let idx := if SavepointVector.find sp sv =? -1
             then (SavepointVector.insert sp sv).1 else SavepointVector.find sp sv in
  let sv1 := if SavepointVector.find sp sv =? -1
             then (SavepointVector.insert sp sv).2 else sv in
  mode_ (this w) <> Read
  /\ checkStorageView name view w = (Ok (), w)
  /\ SavepointVector.hasField idx name sv1 = false
  /\ exists fid a,
       fid_name fid = name
       /\ SavepointVector.addField idx fid sv1 = (Ok (), savepointVector_ (this w'))
       /\ this w' = set_archive a (set_savepointVector (savepointVector_ (this w')) (this w))
       /\ exists a0 a1 fs1,
            archive_ (this w) = Some a0
            /\ Archive_write view name a0 (disk w) = (inr fid, a1, fs1).
Proof.
  intros Harch. unfold write. exec_unfold.
  case_bool_decide as Hmode; [done|].
  destruct (checkStorageView name view w) as [[[]|e0] w0] eqn:Hc; [|done].
  pose proof (checkStorageView_pure _ _ _ _ _ Hc) as ->.
  destruct (SavepointVector.find sp (savepointVector_ (this w)) =? -1) eqn:Hf.
  - apply Z.eqb_eq in Hf.
    pose proof (insert_new_no_field sp (savepointVector_ (this w)) name Hf) as Hnew.
    destruct (SavepointVector.insert sp (savepointVector_ (this w))) as [idx sv1] eqn:Hins.
    simpl in *. rewrite Hnew.
    intros Ht. apply write_tail_Ok in Ht as (fid & a & Hn & Hadd & Hthis & Haw); [|done].
    simpl in *. split_and!; [done..|]. exists fid, a. split_and!; [done..| |done].
    rewrite Hthis. by destruct (this w).
  - destruct (SavepointVector.hasField _ name (savepointVector_ (this w))) eqn:Hhas; [done|].
    intros Ht. apply write_tail_Ok in Ht as (fid & a & Hn & Hadd & Hthis & Haw); [|done].
    split_and!; [done..|]. by exists fid, a.
Qed.

(** X2: after a successful [write] the savepoint is in the savepoint
    vector and the FieldID that the archive answered to the write of the
    view under the name of the field (on the archive and the disk as they
    were before the call) is recorded for it, so that [getFieldID] finds
    it; the field was not recorded there before; and the mode, the field
    map and the global meta-info are what they were. *)
Theorem write_records_field (name : string) (sp : SavepointImpl) (view : StorageView)
    (w w' : World) :
  archive_names_field ->
  write name sp view w = (Ok (), w') ->
  let sv' := savepointVector_ (this w') in
  sp ∈ SavepointVector.savepoints sv'
  /\ (exists a fid a' fs',
        archive_ (this w) = Some a
        /\ Archive_write view name a (disk w) = (inr fid, a', fs')
        /\ fid_name fid = name
        /\ SavepointVector.getFieldID (SavepointVector.find sp sv') name sv' = Ok fid)
  /\ SavepointVector.hasField
       (SavepointVector.find sp (savepointVector_ (this w))) name
       (savepointVector_ (this w)) = false
  /\ mode_ (this w') = mode_ (this w)
  /\ fieldMap_ (this w') = fieldMap_ (this w)
  /\ globalMetaInfo_ (this w') = globalMetaInfo_ (this w).
Proof.
  intros Harch Hw sv'.
  destruct (write_Ok_inv _ _ _ _ _ Harch Hw)
    as (_ & _ & Hhas & fid & a & Hn & Hadd & Hthis & a0 & a1 & fs1 & Ha0 & Haw).
  destruct (locate_or_insert sp (savepointVector_ (this w)))
    as (Hfind & Hidx & Hlen & Hin & _).
  destruct (addField_Ok _ _ _ _ Hadd Hidx Hlen) as (Hfield & Hsame & Hsp).
  split_and!.
  - unfold sv'. by rewrite Hsp.
  - exists a0, fid, a1, fs1. split_and!; [done..|].
    unfold SavepointVector.getFieldID, sv'.
    by rewrite Hsame, Hfind, <- Hn, Hfield.
  - destruct (SavepointVector.find sp (savepointVector_ (this w)) =? -1) eqn:Hf;
      [|done].
    apply Z.eqb_eq in Hf. rewrite Hf. unfold SavepointVector.hasField,
      SavepointVector.fields_at. simpl. by rewrite lookup_empty.
  - by rewrite Hthis.
  - by rewrite Hthis.
  - by rewrite Hthis.
Qed.

(** X3: a field is written once at a savepoint: after a successful
    [write], a second [write] of the same field at the same savepoint, with
    a view of the same type and dims, raises "already saved at savepoint"
    and changes nothing, neither in the object nor on the disk. *)
Theorem write_twice_rejected (name : string) (sp : SavepointImpl)
    (view view2 : StorageView) (w w' : World) :
  archive_names_field ->
  write name sp view w = (Ok (), w') ->
  view_type view2 = view_type view -> view_dims view2 = view_dims view ->
  write name sp view2 w' = (Err (Exception FieldAlreadyAtSavepoint), w').
Proof.
  intros Harch Hw Hty Hdims.
  destruct (write_Ok_inv _ _ _ _ _ Harch Hw)
    as (Hmode & Hc & _ & fid & a & Hn & Hadd & Hthis & _).
  destruct (locate_or_insert sp (savepointVector_ (this w)))
    as (Hfind & Hidx & Hlen & Hin & _).
  destruct (addField_Ok _ _ _ _ Hadd Hidx Hlen) as (Hfield & Hsame & Hsp).
  assert (checkStorageView name view2 w' = (Ok (), w')) as Hc'.
  { apply (checkStorageView_accepts name view2 w').
    apply (checkStorageView_accepts name view w) in Hc as (info & Hl & ? & ?).
    exists info. rewrite Hthis. simpl. split_and!; congruence. }
  assert ((SavepointVector.find sp (savepointVector_ (this w')) =? -1) = false) as Hne.
  { apply Z.eqb_neq. rewrite Hsame, Hfind. lia. }
  unfold write. exec_unfold.
  rewrite bool_decide_eq_false_2 by (by rewrite Hthis).
  rewrite Hc', Hne.
  unfold SavepointVector.hasField. by rewrite Hsame, Hfind, <- Hn, Hfield.
Qed.

(** X4: whatever its outcome, [write] keeps every savepoint at its index
    and every FieldID recorded for it: savepoints and FieldIDs are only
    added. *)
Theorem write_keeps_savepoints (name : string) (sp : SavepointImpl) (view : StorageView)
    (w : World) :
  forall i sp0 fields0,
    savepointVector_ (this w) !! i = Some (sp0, fields0) ->
    exists fields1,
      savepointVector_ (this (write name sp view w).2) !! i = Some (sp0, fields1)
      /\ fields0 ⊆ fields1.
Proof.
  intros i sp0 fields0 Hi.
  assert (forall idx w1 r w2,
    savepointVector_ (this w1) !! i = Some (sp0, fields0) ->
    (let (r0, w'1) := archive_write view name w1 in
     match r0 with
     | Ok a0 =>
         let (r1, w'2) :=
           let '(r1, m) := SavepointVector.addField idx a0 (savepointVector_ (this w'1)) in
           (r1, {| this := set_savepointVector m (this w'1); disk := disk w'1 |}) in
         match r1 with
         | Ok _ => updateMetaData w'2
         | Err e0 => (Err e0, w'2)
         end
     | Err e0 => (Err e0, w'1)
     end) = (r, w2) ->
    exists fields1, savepointVector_ (this w2) !! i = Some (sp0, fields1)
                    /\ fields0 ⊆ fields1) as Htail.
  { intros idx w1 r w2 Hi1.
    destruct (archive_write view name w1) as [[fid|e0] w3] eqn:Hw.
    - apply with_archive_this in Hw as [[a Ha] _].
      assert (savepointVector_ (this w3) = savepointVector_ (this w1)) as Hsv
        by (by rewrite Ha).
      rewrite Hsv.
      destruct (SavepointVector.addField idx fid (savepointVector_ (this w1)))
        as [r1 m] eqn:Hadd.
      destruct (addField_keeps _ _ _ _ _ Hadd i sp0 fields0 Hi1) as (fields1 & Hl & Hsub).
      destruct r1 as [[]|e1].
      + intros Hu. apply updateMetaData_this in Hu as [[a' Ha'] _].
        exists fields1. by rewrite Ha'.
      + intros [= _ <-]. by exists fields1.
    - intros [= _ <-]. apply with_archive_this in Hw as [[a Ha] _].
      exists fields0. by rewrite Ha. }
  destruct (write name sp view w) as [r w'] eqn:Hw. simpl.
  revert Hw. unfold write. exec_unfold.
  case_bool_decide as Hmode; [intros [= _ <-]; by exists fields0|].
  destruct (checkStorageView name view w) as [[[]|e0] w0] eqn:Hc.
  2: { intros [= _ <-]. apply checkStorageView_pure in Hc as ->. by exists fields0. }
  apply checkStorageView_pure in Hc as ->.
  destruct (locate_or_insert sp (savepointVector_ (this w))) as (_ & _ & _ & _ & Hkeep).
  destruct (SavepointVector.find sp (savepointVector_ (this w)) =? -1) eqn:Hf.
  - destruct (SavepointVector.insert sp (savepointVector_ (this w))) as [idx sv1] eqn:Hins.
    simpl in *.
    destruct (SavepointVector.hasField idx name sv1).
    + intros [= _ <-]. simpl. exists fields0. split; [by apply Hkeep|done].
    + intros Ht. eapply Htail; [|exact Ht]. simpl. by apply Hkeep.
  - destruct (SavepointVector.hasField _ name (savepointVector_ (this w))).
    + intros [= _ <-]. by exists fields0.
    + intros Ht. eapply Htail; [|exact Ht]. done.
Qed.

(** X5: [read] never changes the serializer's meta-data: whatever its
    outcome, the mode, the savepoint vector, the field map and the global
    meta-info are what they were (only the archive it delegates to may
    have changed). *)
Theorem read_keeps_metadata (name : string) (sp : SavepointImpl) (view : StorageView)
    (w : World) :
  exists a, this (read name sp view w).2 = set_archive a (this w).
Proof.
  assert (exists a, this w = set_archive a (this w)) as Hsame
    by (exists (archive_ (this w)); by destruct (this w)).
  unfold read. exec_unfold.
  destruct (negb (bool_decide (mode_ (this w) = Read))); [done|].
  destruct (checkStorageView name view w) as [[[]|e0] w0] eqn:Hc.
  2: { apply checkStorageView_pure in Hc as ->. done. }
  apply checkStorageView_pure in Hc as ->.
  destruct (SavepointVector.find sp (savepointVector_ (this w)) =? -1); [done|].
  destruct (SavepointVector.getFieldID _ name _) as [fid|e]; [|done].
  destruct (archive_read view fid w) as [r w'] eqn:Hr.
  apply with_archive_this in Hr as [Ha _]. by destruct r.
Qed.

(** X6: [clear] on a constructed serializer does not raise and leaves no
    savepoint, no field and no global meta-info, so that every storage-view
    check afterwards answers "not registered"; the mode, the directory and
    the prefix stay. *)
Theorem clear_forgets_everything (w : World) (a : BinaryArchive) :
  archive_ (this w) = Some a ->
  exists w', clear w = (Ok (), w')
    /\ savepointVector_ (this w') = []
    /\ fieldMap_ (this w') = ∅
    /\ globalMetaInfo_ (this w') = ∅
    /\ mode_ (this w') = mode_ (this w)
    /\ directory_ (this w') = directory_ (this w)
    /\ prefix_ (this w') = prefix_ (this w)
    /\ forall name view,
         checkStorageView name view w' = (Err (Exception FieldNotRegistered), w').
Proof.
  intros Ha. unfold clear, archive_clear, with_archive. exec_unfold. rewrite Ha.
  destruct (Archive_clear a (disk w)) as [a' fs'] eqn:Hc. simpl.
  eexists. split; [done|]. simpl. split_and!; [done..|].
  intros name view. unfold checkStorageView. exec_unfold. by rewrite lookup_empty.
Qed.

End MoreReadWriteFacts.

(** ** More on the JSON form of the field map *)

Section MoreFieldMapFacts.
Context `{!Codecs}.

Lemma obj_get_notin k (o : list (string * json)) : k ∉ o.*1 -> Json.obj_get k o = None.
Proof.
  induction o as [|[k0 v0] o IH]; simpl; [done|].
  intros Hk. apply not_elem_of_cons in Hk as [Hne Hk].
  destruct (String.eqb_spec k k0); [done|]. by apply IH.
Qed.

Lemma fromJSON_loop_app pre rest acc :
  FieldMap.fromJSON_loop (pre ++ rest) acc
  = match FieldMap.fromJSON_loop pre acc with
    | (Ok _, m) => FieldMap.fromJSON_loop rest m
    | r => r
    end.
Proof.
  revert acc. induction pre as [|[k v] pre IH]; intros acc; simpl; [done|].
  destruct (FieldMap.insert_json k v acc) as [[[|]|[]] m]; try done.
Qed.

Lemma fromJSON_loop_Ok its (acc : FieldMap) :
  NoDup its.*1 ->
  (forall k, k ∈ its.*1 -> acc !! k = None) ->
  (forall k v, (k, v) ∈ its -> is_Some (decoded_member v)) ->
  exists m, FieldMap.fromJSON_loop its acc = (Ok (), m)
            /\ forall k, m !! k = match Json.obj_get k its with
                                  | Some v => decoded_member v
                                  | None => acc !! k
                                  end.
Proof.
  revert acc. induction its as [|[k0 v0] its IH]; intros acc Hnd Hfresh Hdec.
  - by exists acc.
  - simpl in *. inversion Hnd as [|? ? Hnotin Hnd']; subst.
    destruct (Hdec k0 v0) as [x0 Hx0]; [apply elem_of_cons; by left|].
    unfold decoded_member in Hx0.
    unfold FieldMap.insert_json, FieldMap.insert.
    destruct (FieldMetaInfo_fromJSON v0) as [x|e] eqn:Hv; [|done].
    injection Hx0 as ->. rewrite (Hfresh k0) by (apply elem_of_cons; by left).
    destruct (IH (<[k0 := x0]> acc)) as (m & Hm & Hl); [done| |..].
    + intros k Hk. rewrite lookup_insert_ne; [|by intros ->].
      apply Hfresh. apply elem_of_cons. by right.
    + intros k v Hin. apply (Hdec k v). apply elem_of_cons. by right.
    + exists m. split; [done|]. intros k. rewrite Hl.
      destruct (String.eqb_spec k k0) as [->|Hne].
      * rewrite obj_get_notin by done. rewrite lookup_insert_eq.
        unfold decoded_member. by rewrite Hv.
      * destruct (Json.obj_get k its); [done|]. by rewrite lookup_insert_ne.
Qed.

Lemma fromJSON_loop_no_node_exists its (acc : FieldMap) :
  NoDup its.*1 ->
  (forall k, k ∈ its.*1 -> acc !! k = None) ->
  (FieldMap.fromJSON_loop its acc).1 <> Err (Exception FieldMapNodeExists).
Proof.
  revert acc. induction its as [|[k0 v0] its IH]; intros acc Hnd Hfresh; [done|].
  simpl in *. inversion Hnd as [|? ? Hnotin Hnd']; subst.
  unfold FieldMap.insert_json, FieldMap.insert.
  destruct (FieldMetaInfo_fromJSON v0) as [x|[k| | |]] eqn:Hv; try done.
  rewrite (Hfresh k0) by (apply elem_of_cons; by left).
  apply IH; [done|]. intros k Hk. rewrite lookup_insert_ne; [|by intros ->].
  apply Hfresh. apply elem_of_cons. by right.
Qed.

Lemma fromJSON_at_field_map jsonNode o self :
  Json.count "field_map" jsonNode = true ->
  Json.member "field_map" jsonNode = JObject o ->
  FieldMap.fromJSON jsonNode self = FieldMap.fromJSON_loop o ∅.
Proof.
  intros Hc Hm. unfold FieldMap.fromJSON. rewrite Hc.
  destruct jsonNode as [| | | | | |members]; try done. simpl in *.
  destruct (Json.obj_get "field_map" members) as [v|] eqn:Hget; [|done].
  simpl in *. subst v. by destruct members.
Qed.

(** X7: on a document whose "field_map" node is an object with its members
    in key order and every member well-formed, [FieldMap::fromJSON]
    succeeds, and the field map it builds holds exactly the members of the
    node, each under its key, whatever the map held before. *)
Theorem fromJSON_builds_members (jsonNode : json) (o : list (string * json))
    (self : FieldMap) :
  Json.count "field_map" jsonNode = true ->
  Json.member "field_map" jsonNode = JObject o ->
  Json.sorted_keys o ->
  (forall k v, (k, v) ∈ o -> is_Some (decoded_member v)) ->
  exists m, FieldMap.fromJSON jsonNode self = (Ok (), m)
            /\ forall k, m !! k = Json.obj_get k o ≫= decoded_member.
Proof.
  intros Hc Hm Hsorted Hdec. rewrite (fromJSON_at_field_map _ _ _ Hc Hm).
  destruct (fromJSON_loop_Ok o ∅) as (m & Hm' & Hl);
    [by apply sorted_keys_NoDup|intros; apply lookup_empty|done|].
  exists m. split; [done|]. intros k. rewrite Hl.
  destruct (Json.obj_get k o); [done|apply lookup_empty].
Qed.

(** X8: the first member of "field_map" that is ill-formed stops
    [FieldMap::fromJSON] with "JSON node ill-formed", and the field map is
    left with the members before it: what was there before the call is
    gone, and what was parsed so far is not taken back. *)
Theorem fromJSON_ill_formed_member (jsonNode : json)
    (pre post : list (string * json)) (key : string) (node : json)
    (e : ExceptionKind) (self : FieldMap) :
  Json.count "field_map" jsonNode = true ->
  Json.member "field_map" jsonNode = JObject (pre ++ (key, node) :: post) ->
  Json.sorted_keys (pre ++ (key, node) :: post) ->
  (forall k v, (k, v) ∈ pre -> is_Some (decoded_member v)) ->
  FieldMetaInfo_fromJSON node = Err (Exception e) ->
  exists m, FieldMap.fromJSON jsonNode self = (Err (Exception FieldMapIllFormed), m)
            /\ forall k, m !! k = Json.obj_get k pre ≫= decoded_member.
Proof.
  intros Hc Hm Hsorted Hdec Hnode. rewrite (fromJSON_at_field_map _ _ _ Hc Hm).
  apply sorted_keys_NoDup in Hsorted. rewrite fmap_app in Hsorted.
  apply NoDup_app in Hsorted as (Hpre & _ & _).
  destruct (fromJSON_loop_Ok pre ∅) as (m & Hm' & Hl);
    [done|intros; apply lookup_empty|done|].
  exists m. split.
  - rewrite fromJSON_loop_app, Hm'. simpl.
    unfold FieldMap.insert_json. by rewrite Hnode.
  - intros k. rewrite Hl. destruct (Json.obj_get k pre); [done|apply lookup_empty].
Qed.

(** X9: [FieldMap::fromJSON] never raises "node already exists" on a
    document as the parser builds it (the members of "field_map" in key
    order, hence under distinct keys). *)
Theorem fromJSON_never_node_exists (jsonNode : json) (self : FieldMap) :
  (forall o, Json.member "field_map" jsonNode = JObject o -> Json.sorted_keys o) ->
  (FieldMap.fromJSON jsonNode self).1 <> Err (Exception FieldMapNodeExists).
Proof.
  intros Hsorted. unfold FieldMap.fromJSON.
  destruct (Json.is_null jsonNode || Json.empty jsonNode); [done|].
  destruct (Json.count "field_map" jsonNode) eqn:Hc; [|done]. simpl.
  destruct jsonNode as [| | | | | |members]; try done. simpl in *.
  destruct (Json.obj_get "field_map" members) as [v|] eqn:Hget; [|done]. simpl in *.
  destruct v as [| | | | |l|o]; try done.
  - by destruct l.
  - simpl. apply fromJSON_loop_no_node_exists; [|intros; apply lookup_empty].
    apply sorted_keys_NoDup. by apply Hsorted.
Qed.

End MoreFieldMapFacts.

(** ** More on the legacy upgrade *)

Section MoreUpgradeFacts.
Context `{!FloatConversion}.

Lemma findChecksum_Some i c t j :
  findChecksum i c t = Some j ->
  i <= j /\ exists e, t !! Z.to_nat (j - i) = Some e /\ checksum e = c.
Proof.
  revert i. induction t as [|e t IH]; intros i; simpl; [done|].
  destruct (String.eqb_spec c (checksum e)) as [->|Hne].
  - intros [= <-]. split; [lia|]. exists e. by rewrite Z.sub_diag.
  - intros Hf. apply IH in Hf as (Hle & e' & Hl & Hc). split; [lia|].
    exists e'. split; [|done].
    replace (Z.to_nat (j - i)) with (S (Z.to_nat (j - (i + 1)))) by lia. done.
Qed.

Lemma findChecksum_None i c t :
  findChecksum i c t = None <-> c ∉ checksum <$> t.
Proof.
  revert i. induction t as [|e t IH]; intros i; simpl.
  - split; [intros _; apply not_elem_of_nil|done].
  - rewrite not_elem_of_cons.
    destruct (String.eqb_spec c (checksum e)) as [->|Hne].
    + split; [done|]. by intros [? _].
    + rewrite IH. tauto.
Qed.

Lemma upgradeOffset_Ok_inv (fieldname : string) (fileOffset : FileOffsetType)
    (t t' : FieldTable) (fid : FieldID) :
  upgradeOffset fieldname fileOffset t = Ok (fid, t') ->
  fid_name fid = fieldname
  /\ 0 <= fid_id fid
  /\ (exists offsets, t' !! fieldname = Some offsets
                      /\ (Z.to_nat (fid_id fid) < length offsets)%nat)
  /\ (forall name offsets, t !! name = Some offsets ->
        exists offsets', t' !! name = Some offsets' /\ offsets `prefix_of` offsets')
  /\ (unique_checksums t -> unique_checksums t').
Proof.
  unfold upgradeOffset.
  destruct (t !! fieldname) as [offsets|] eqn:Ht.
  - destruct (findChecksum 0 (checksum fileOffset) offsets) as [i|] eqn:Hf.
    + intros [= <- <-]. apply findChecksum_Some in Hf as (Hi & e & He & Hc).
      simpl. rewrite Z.sub_0_r in He. split_and!; [done|done| | |done].
      * exists offsets. split; [done|]. by eapply lookup_lt_Some.
      * intros name offsets0 Hn. by exists offsets0.
    + destruct (offset fileOffset =? 0); [done|]. intros [= <- <-]. simpl.
      apply findChecksum_None in Hf. split_and!; [done|lia|..].
      * exists (offsets ++ [fileOffset])%list. rewrite lookup_insert_eq.
        split; [done|]. rewrite Nat2Z.id, length_app. simpl. lia.
      * intros name offsets0 Hn. destruct (decide (name = fieldname)) as [->|Hne].
        -- rewrite lookup_insert_eq. eexists. split; [done|].
           rewrite Ht in Hn. injection Hn as <-. by apply prefix_app_r.
        -- rewrite lookup_insert_ne by done. by exists offsets0.
      * intros Hu name offsets0. destruct (decide (name = fieldname)) as [->|Hne].
        -- rewrite lookup_insert_eq. intros [= <-]. rewrite fmap_app.
           apply NoDup_app. split_and!; [by eapply Hu| |apply NoDup_singleton].
           intros c Hc Hc'. apply list_elem_of_singleton in Hc'. by subst.
        -- rewrite lookup_insert_ne by done. apply Hu.
  - destruct (negb (offset fileOffset =? 0)); [done|]. intros [= <- <-]. simpl.
    split_and!; [done|done|..].
    + exists [fileOffset]. rewrite lookup_insert_eq. split; [done|]. simpl. lia.
    + intros name offsets0 Hn. rewrite lookup_insert_ne by congruence.
      by exists offsets0.
    + intros Hu name offsets0. destruct (decide (name = fieldname)) as [->|Hne].
      * rewrite lookup_insert_eq. intros [= <-]. apply NoDup_singleton.
      * rewrite lookup_insert_ne by done. apply Hu.
Qed.

(** X10: the entry of a legacy offset goes into the field table as the
    binary archive would have written it. The FieldID carries the name of
    the field and indexes an entry with the checksum of the offset; the
    tables are only appended to; a checksum already in the table of the
    field is reused and the table stays as it is; and the checksums of a
    table stay pairwise distinct. *)
Theorem upgradeOffset_dedup (fieldname : string) (fileOffset : FileOffsetType)
    (t t' : FieldTable) (fid : FieldID) :
  upgradeOffset fieldname fileOffset t = Ok (fid, t') ->
  fid_name fid = fieldname
  /\ 0 <= fid_id fid
  /\ (exists offsets e,
        t' !! fieldname = Some offsets
        /\ offsets !! Z.to_nat (fid_id fid) = Some e
        /\ checksum e = checksum fileOffset)
  /\ (forall name offsets, t !! name = Some offsets ->
        exists offsets', t' !! name = Some offsets' /\ offsets `prefix_of` offsets')
  /\ ((exists offsets, t !! fieldname = Some offsets
                       /\ checksum fileOffset ∈ checksum <$> offsets) -> t' = t)
  /\ (unique_checksums t -> unique_checksums t').
Proof.
  unfold upgradeOffset.
  destruct (t !! fieldname) as [offsets|] eqn:Ht.
  - destruct (findChecksum 0 (checksum fileOffset) offsets) as [i|] eqn:Hf.
    + intros [= <- <-]. apply findChecksum_Some in Hf as (Hi & e & He & Hc).
      simpl. rewrite Z.sub_0_r in He. split_and!; [done|done| | |done|done].
      * by exists offsets, e.
      * intros name offsets0 Hn. by exists offsets0.
    + destruct (offset fileOffset =? 0); [done|]. intros [= <- <-]. simpl.
      apply findChecksum_None in Hf. split_and!; [done|lia|..].
      * exists (offsets ++ [fileOffset])%list, fileOffset. rewrite lookup_insert_eq.
        split_and!; [done| |done].
        rewrite Nat2Z.id. by rewrite lookup_app_r, Nat.sub_diag.
      * intros name offsets0 Hn. destruct (decide (name = fieldname)) as [->|Hne].
        -- rewrite lookup_insert_eq. eexists. split; [done|].
           rewrite Ht in Hn. injection Hn as <-. by apply prefix_app_r.
        -- rewrite lookup_insert_ne by done. by exists offsets0.
      * intros (offsets0 & [= <-] & Hin). done.
      * intros Hu name offsets0. destruct (decide (name = fieldname)) as [->|Hne].
        -- rewrite lookup_insert_eq. intros [= <-]. rewrite fmap_app.
           apply NoDup_app. split_and!; [by eapply Hu| |apply NoDup_singleton].
           intros c Hc Hc'. apply list_elem_of_singleton in Hc'. by subst.
        -- rewrite lookup_insert_ne by done. apply Hu.
  - destruct (negb (offset fileOffset =? 0)); [done|]. intros [= <- <-]. simpl.
    split_and!; [done|done|..].
    + exists [fileOffset], fileOffset. by rewrite lookup_insert_eq.
    + intros name offsets0 Hn. rewrite lookup_insert_ne by congruence.
      by exists offsets0.
    + intros (offsets0 & ? & _). congruence.
    + intros Hu name offsets0. destruct (decide (name = fieldname)) as [->|Hne].
      * rewrite lookup_insert_eq. intros [= <-]. apply NoDup_singleton.
      * rewrite lookup_insert_ne by done. apply Hu.
Qed.

(** X11: the two checks of the offset upgrade. It stops (CHECK_EQ,
    CHECK_NE) exactly when the first offset recorded for a field is not 0,
    or when a payload that is not in the table of its field yet is
    recorded at offset 0. *)
Theorem upgradeOffset_checks (fieldname : string) (fileOffset : FileOffsetType)
    (t : FieldTable) (e : Error) :
  upgradeOffset fieldname fileOffset t = Err e <->
  e = CheckFailed
  /\ ((t !! fieldname = None /\ offset fileOffset <> 0)
      \/ (exists offsets, t !! fieldname = Some offsets
                          /\ (checksum fileOffset ∉ checksum <$> offsets)
                          /\ offset fileOffset = 0)).
Proof.
  unfold upgradeOffset.
  destruct (t !! fieldname) as [offsets|] eqn:Ht.
  - destruct (findChecksum 0 (checksum fileOffset) offsets) as [i|] eqn:Hf.
    + split; [done|]. intros (_ & [[? _]|(offsets0 & [= <-] & Hnotin & _)]); [done|].
      apply (findChecksum_None 0) in Hnotin. congruence.
    + apply findChecksum_None in Hf.
      destruct (Z.eqb_spec (offset fileOffset) 0) as [Hz|Hz].
      * split; [intros [= <-]; split; [done|]; right; by exists offsets|].
        by intros [-> _].
      * split; [done|]. intros (_ & [[? _]|(offsets0 & _ & _ & ?)]); done.
  - destruct (Z.eqb_spec (offset fileOffset) 0) as [Hz|Hz]; simpl.
    + split; [done|]. intros (_ & [[_ ?]|(offsets0 & ? & _)]); done.
    + split; [intros [= <-]; split; [done|]; by left|]. by intros [-> _].
Qed.

Lemma field_ids_resolve_mono sv (t t' : FieldTable) :
  field_ids_resolve sv t ->
  (forall name offsets, t !! name = Some offsets ->
     exists offsets', t' !! name = Some offsets' /\ offsets `prefix_of` offsets') ->
  field_ids_resolve sv t'.
Proof.
  intros Hr Hext sp fields name fid Hin Hl.
  destruct (Hr sp fields name fid Hin Hl) as (Hn & Hid & offsets & Ht & Hlen).
  destruct (Hext name offsets Ht) as (offsets' & Ht' & Hpre).
  split_and!; [done..|]. exists offsets'. split; [done|].
  apply prefix_length in Hpre. lia.
Qed.

Lemma addField_resolve idx fid sv r sv' (t : FieldTable) :
  SavepointVector.addField idx fid sv = (r, sv') ->
  field_ids_resolve sv t ->
  0 <= fid_id fid ->
  (exists offsets, t !! fid_name fid = Some offsets
                   /\ (Z.to_nat (fid_id fid) < length offsets)%nat) ->
  field_ids_resolve sv' t.
Proof.
  unfold SavepointVector.addField.
  destruct (SavepointVector.hasField idx (fid_name fid) sv); [by intros [= _ <-]|].
  destruct (idx <? 0); [by intros [= _ <-]|].
  intros [= _ <-] Hr Hid Hres sp fields name fid' Hin Hl.
  apply list_elem_of_lookup in Hin as [i Hi].
  destruct (decide (i = Z.to_nat idx)) as [->|Hne].
  - rewrite list_lookup_alter_eq in Hi.
    destruct (sv !! Z.to_nat idx) as [[sp0 fields0]|] eqn:He; [|done].
    simpl in Hi. injection Hi as <- <-.
    destruct (decide (name = fid_name fid)) as [->|Hname].
    + rewrite lookup_insert_eq in Hl. injection Hl as <-. done.
    + rewrite lookup_insert_ne in Hl by done.
      eapply Hr; [|exact Hl]. apply list_elem_of_lookup. eauto.
  - rewrite list_lookup_alter_ne in Hi by done.
    eapply Hr; [|exact Hl]. apply list_elem_of_lookup. eauto.
Qed.

Lemma upgradeOffsets_inv idx its st r st' :
  upgradeOffsets idx its st = (r, st') ->
  field_ids_resolve st.1 st.2 -> unique_checksums st.2 ->
  field_ids_resolve st'.1 st'.2 /\ unique_checksums st'.2
  /\ (forall name offsets, st.2 !! name = Some offsets ->
        exists offsets', st'.2 !! name = Some offsets' /\ offsets `prefix_of` offsets').
Proof.
  revert st. induction its as [|[fieldname value] its IH]; intros st; simpl.
  - intros [= _ <-] Hr Hu. split_and!; [done..|]. intros name offsets Hn. by exists offsets.
  - destruct (JsonAccess.at_index 0 value ≫= JsonAccess.to_int64) as [off|e]; simpl.
    2: { intros [= _ <-] Hr Hu. split_and!; [done..|]. intros name offsets Hn.
         by exists offsets. }
    destruct (JsonAccess.at_index 1 value ≫= JsonAccess.to_string) as [chk|e]; simpl.
    2: { intros [= _ <-] Hr Hu. split_and!; [done..|]. intros name offsets Hn.
         by exists offsets. }
    destruct (upgradeOffset fieldname {| offset := off; checksum := chk |} st.2)
      as [[fieldID fieldTable']|e] eqn:Hoff.
    2: { intros [= _ <-] Hr Hu. split_and!; [done..|]. intros name offsets Hn.
         by exists offsets. }
    apply upgradeOffset_Ok_inv in Hoff
      as (Hname & Hid & (offsets0 & Ht0 & He0) & Hext & Huniq).
    intros Hrun Hr Hu.
    assert (field_ids_resolve (SavepointVector.addField idx fieldID st.1).2 fieldTable')
      as Hr'.
    { destruct (SavepointVector.addField idx fieldID st.1) as [r1 sv1] eqn:Hadd.
      eapply addField_resolve; [exact Hadd| |done|].
      - by eapply field_ids_resolve_mono.
      - exists offsets0. rewrite Hname. by split. }
    destruct (SavepointVector.addField idx fieldID st.1) as [[[]|e] sv1] eqn:Hadd.
    + apply IH in Hrun as (Hr2 & Hu2 & Hext2); [|done|by apply Huniq].
      split_and!; [done..|]. intros name offsets Hn.
      destruct (Hext name offsets Hn) as (o1 & Ho1 & Hp1).
      destruct (Hext2 name o1 Ho1) as (o2 & Ho2 & Hp2).
      exists o2. split; [done|]. by etrans.
    + injection Hrun as _ <-. simpl. split_and!; [done|by apply Huniq|done].
Qed.

Lemma insert_resolve sp sv (t : FieldTable) :
  field_ids_resolve sv t -> field_ids_resolve (SavepointVector.insert sp sv).2 t.
Proof.
  unfold SavepointVector.insert. destruct (_ =? -1); simpl; [|done].
  intros Hr sp0 fields name fid Hin Hl.
  apply elem_of_app in Hin as [Hin|Hin]; [by eapply Hr|].
  apply list_elem_of_singleton in Hin. injection Hin as _ ->.
  by rewrite lookup_empty in Hl.
Qed.

Lemma upgradeOffsetTable_inv ty offsetTable st r st' :
  upgradeOffsetTable ty offsetTable st = (r, st') ->
  field_ids_resolve st.1 st.2 -> unique_checksums st.2 ->
  field_ids_resolve st'.1 st'.2 /\ unique_checksums st'.2.
Proof.
  revert st. induction offsetTable as [|entry rest IH]; intros st; simpl.
  - by intros [= _ <-].
  - destruct (upgradeSavepoint ty entry) as [savepoint|e]; [|by intros [= _ <-]].
    pose proof (insert_resolve savepoint st.1 st.2) as Hins.
    destruct (SavepointVector.insert savepoint st.1) as [savepointIdx sv] eqn:Hi.
    simpl in Hins.
    destruct (savepointIdx =? -1); [intros [= _ <-] Hr Hu; split; [by apply Hins|done]|].
    destruct (_ ≫= _) as [its|e];
      [|intros [= _ <-] Hr Hu; split; [by apply Hins|done]].
    destruct (upgradeOffsets savepointIdx its (sv, st.2)) as [r1 st1] eqn:Hoff.
    intros Hrun Hr Hu.
    apply upgradeOffsets_inv in Hoff as (Hr1 & Hu1 & _); [|by apply Hins|done].
    destruct r1 as [[]|e]; [by eapply IH|]. by injection Hrun as _ <-.
Qed.

(** The parts of the upgrade leave the disk, the mode, the directory and
    the prefix alone. *)
Lemma upgradeGlobalMetaInfo_frame ty oldJson w r w' :
  upgradeGlobalMetaInfo ty oldJson w = (r, w') ->
  disk w' = disk w /\ mode_ (this w') = mode_ (this w)
  /\ directory_ (this w') = directory_ (this w) /\ prefix_ (this w') = prefix_ (this w)
  /\ savepointVector_ (this w') = savepointVector_ (this w)
  /\ archive_ (this w') = archive_ (this w).
Proof.
  unfold upgradeGlobalMetaInfo. destruct (Json.count _ _); [|by intros [= _ <-]].
  exec_unfold. destruct (JsonAccess.items _) as [its|e]; [|by intros [= _ <-]].
  destruct (upgradeMetaInfo ty its _) as [r1 m]. by intros [= _ <-].
Qed.

Lemma upgradeFields_frame ty oldJson w r w' :
  upgradeFields ty oldJson w = (r, w') ->
  disk w' = disk w /\ mode_ (this w') = mode_ (this w)
  /\ directory_ (this w') = directory_ (this w) /\ prefix_ (this w') = prefix_ (this w)
  /\ savepointVector_ (this w') = savepointVector_ (this w)
  /\ globalMetaInfo_ (this w') = globalMetaInfo_ (this w)
  /\ archive_ (this w') = archive_ (this w).
Proof.
  unfold upgradeFields. destruct (Json.count _ _); [|by intros [= _ <-]].
  exec_unfold. destruct (JsonAccess.elements _) as [l|e]; [|by intros [= _ <-]].
  destruct (upgradeFieldsTable ty l _) as [r1 m]. by intros [= _ <-].
Qed.

Lemma upgradeSavepoints_archive ty oldJson w w' :
  upgradeSavepoints ty oldJson w = (Ok (), w') ->
  savepointVector_ (this w) = [] ->
  disk w' = disk w
  /\ exists a, archive_ (this w') = Some a
       /\ ba_mode a = mode_ (this w)
       /\ ba_directory a = directory_ (this w)
       /\ ba_prefix a = prefix_ (this w)
       /\ field_ids_resolve (savepointVector_ (this w')) (fieldTable a)
       /\ unique_checksums (fieldTable a).
Proof.
  unfold upgradeSavepoints. exec_unfold. intros Hrun Hsv.
  assert (field_ids_resolve [] (∅ : FieldTable)) as Hr0.
  { intros sp fields name fid Hin. by apply elem_of_nil in Hin. }
  assert (unique_checksums (∅ : FieldTable)) as Hu0.
  { intros name offsets Hl. by rewrite lookup_empty in Hl. }
  destruct (Json.count "OffsetTable" oldJson).
  - destruct (JsonAccess.elements _) as [offsetTable|e]; [|done]. simpl in Hrun.
    rewrite Hsv in Hrun.
    destruct (upgradeOffsetTable ty offsetTable ([], ∅)) as [r1 st] eqn:Ho.
    injection Hrun as -> <-. simpl.
    apply upgradeOffsetTable_inv in Ho as (Hr & Hu); [|done..].
    split; [done|]. eexists. split; [done|]. simpl. done.
  - injection Hrun as <-. simpl. split; [done|]. eexists. split; [done|]. simpl.
    rewrite Hsv. done.
Qed.

(** X12: the upgrade of a legacy document into a fresh serializer does not
    touch the disk, and leaves a binary archive of the serializer's mode,
    directory and prefix in which every FieldID recorded in the savepoint
    vector is filed under its own name and indexes an entry of the offset
    table of its field, and no offset table holds a checksum twice. *)
Theorem upgrade_field_ids_resolve (oldJson : json) (w w' : World) :
  upgradeFromJson oldJson w = (Ok (), w') ->
  savepointVector_ (this w) = [] ->
  disk w' = disk w
  /\ exists a, archive_ (this w') = Some a
       /\ ba_mode a = mode_ (this w)
       /\ ba_directory a = directory_ (this w)
       /\ ba_prefix a = prefix_ (this w)
       /\ field_ids_resolve (savepointVector_ (this w')) (fieldTable a)
       /\ unique_checksums (fieldTable a).
Proof.
  unfold upgradeFromJson. exec_unfold.
  destruct (deduceFloatType oldJson) as [[ty oldJson']|e] eqn:Hd; [|done].
  destruct (upgradeGlobalMetaInfo ty oldJson' w) as [[[]|e] w1] eqn:Hg; [|done].
  destruct (upgradeFields ty oldJson' w1) as [[[]|e] w2] eqn:Hf; [|done].
  intros Hs Hsv.
  apply upgradeGlobalMetaInfo_frame in Hg as (Hg1 & Hg2 & Hg3 & Hg4 & Hg5 & _).
  apply upgradeFields_frame in Hf as (Hf1 & Hf2 & Hf3 & Hf4 & Hf5 & _).
  apply upgradeSavepoints_archive in Hs as (Hdisk & a & Ha & Hm & Hdir & Hp & Hr & Hu);
    [|congruence].
  split; [congruence|]. exists a. split_and!; first [done|congruence].
Qed.

Lemma deduceValue_typed ty value v :
  deduceValue ty value = Ok v <-> typed_legacy_value ty value = Some v.
Proof.
  unfold deduceValue, typed_legacy_value, float_value.
  destruct value; simpl; try (split; [done|by intros [=]]);
    try case_bool_decide; split; by intros [= <-].
Qed.

Lemma deduceValue_untyped ty value :
  typed_legacy_value ty value = None ->
  deduceValue ty value = Err (Exception UpgradeTypeInferenceFailure).
Proof. by destruct value. Qed.

Lemma upgradeMetaInfo_only ty its m0 m :
  upgradeMetaInfo ty its m0 = (Ok (), m) ->
  forall k v, m !! k = Some v ->
    m0 !! k = Some v
    \/ (String.prefix "__" k = false
        /\ exists value, (k, value) ∈ its /\ deduceValue ty value = Ok v).
Proof.
  revert m0. induction its as [|[key value] its IH]; intros m0; simpl.
  - intros [= <-] k v Hl. by left.
  - destruct (String.prefix "__" key) eqn:Hp; simpl.
    + intros Hrest k v Hl. destruct (IH _ Hrest k v Hl) as [?|(? & value' & Hin & ?)];
        [by left|right]. split; [done|]. exists value'. split; [|done].
      apply elem_of_cons. by right.
    + destruct (deduceValue ty value) as [v0|e] eqn:Hv; [|done].
      destruct (addMetaInfo key v0 m0) as [[[]|e] m1] eqn:Hadd; [|done].
      apply addMetaInfo_Ok in Hadd as [Hfresh ->].
      intros Hrest k v Hl. destruct (IH _ Hrest k v Hl) as [Hk|(? & value' & Hin & ?)].
      * destruct (decide (k = key)) as [->|Hne].
        -- rewrite lookup_insert_eq in Hk. injection Hk as <-. right.
           split; [done|]. exists value. split; [apply elem_of_cons; by left|done].
        -- rewrite lookup_insert_ne in Hk by done. by left.
      * right. split; [done|]. exists value'. split; [|done].
        apply elem_of_cons. by right.
Qed.

Lemma count_false_member k j : Json.count k j = false -> Json.member k j = JNull.
Proof.
  destruct j; try done. simpl. by destruct (Json.obj_get k o).
Qed.

(** X13: the global meta-info after the upgrade of a legacy document into a
    fresh serializer holds exactly the members of "GlobalMetainfo" whose
    key does not start with "__", each typed by the kind of its JSON
    value: a string as String, a boolean as Boolean, an integer as Int32
    (wrapped to 32 bits), a float by the float type deduced from the
    document, which is Float32 exactly when the first entry of the fields
    table has the "__elementtype" "float", and Float64 otherwise. *)
Theorem upgrade_global_metainfo (oldJson : json) (w w' : World) :
  upgradeFromJson oldJson w = (Ok (), w') ->
  globalMetaInfo_ (this w) = ∅ ->
  exists floatType oldJson' its,
    deduceFloatType oldJson = Ok (floatType, oldJson')
    /\ (floatType = Float32 <->
          exists entry rest,
            Json.member "FieldsTable" oldJson = JArray (entry :: rest)
            /\ Json.member "__elementtype" entry = JString "float")
    /\ (floatType <> Float32 -> floatType = Float64)
    /\ JsonAccess.items (Json.member "GlobalMetainfo" oldJson) = Ok its
    /\ forall k v,
         globalMetaInfo_ (this w') !! k = Some v <->
         String.prefix "__" k = false
         /\ exists value, (k, value) ∈ its
                          /\ typed_legacy_value floatType value = Some v.
Proof.
  unfold upgradeFromJson. exec_unfold.
  destruct (deduceFloatType oldJson) as [[ty oldJson']|e] eqn:Hd; [|done].
  destruct (upgradeGlobalMetaInfo ty oldJson' w) as [[[]|e] w1] eqn:Hg; [|done].
  destruct (upgradeFields ty oldJson' w1) as [[[]|e] w2] eqn:Hf; [|done].
  intros Hs Hempty.
  apply deduceFloatType_Ok in Hd as (Hty' & Hty & Hmem & _).
  destruct (Hmem "GlobalMetainfo") as [Hm Hc]; [done|].
  apply upgradeFields_Ok in Hf as (Hf1 & _).
  apply upgradeSavepoints_Ok in Hs as (Hs1 & _).
  exists ty, oldJson'. rewrite Hs1, Hf1. clear Hs1 Hf1 w2 w'.
  revert Hg. unfold upgradeGlobalMetaInfo. rewrite Hc, Hm.
  destruct (Json.count "GlobalMetainfo" oldJson) eqn:Hcount.
  - exec_unfold.
    destruct (JsonAccess.items (Json.member "GlobalMetainfo" oldJson)) as [its|e]; [|done].
    rewrite Hempty.
    destruct (upgradeMetaInfo ty its ∅) as [[[]|e] m] eqn:Hup; intros [= <-].
    exists its. split_and!; [done..|]. simpl. intros k v. split.
    + intros Hl. destruct (upgradeMetaInfo_only _ _ _ _ Hup k v Hl)
        as [Hk|(Hp & value & Hin & Hv)]; [by rewrite lookup_empty in Hk|].
      split; [done|]. exists value. split; [done|]. by apply deduceValue_typed.
    + intros (Hp & value & Hin & Hv).
      destruct (upgradeMetaInfo_lookup _ _ _ _ Hup k value Hin Hp) as (v' & Hv' & Hl).
      apply deduceValue_typed in Hv'. congruence.
  - intros [= <-]. rewrite (count_false_member _ _ Hcount). exists [].
    split_and!; [done..|]. intros k v. rewrite Hempty, lookup_empty. split; [done|].
    intros (_ & value & Hin & _). by apply elem_of_nil in Hin.
Qed.

Lemma upgradeMetaInfo_untyped ty its (m0 : MetaInfoMap) k value :
  NoDup its.*1 -> (forall k, k ∈ its.*1 -> m0 !! k = None) ->
  (k, value) ∈ its -> String.prefix "__" k = false ->
  typed_legacy_value ty value = None ->
  (upgradeMetaInfo ty its m0).1 = Err (Exception UpgradeTypeInferenceFailure).
Proof.
  revert m0. induction its as [|[key0 value0] its IH]; intros m0 Hnd Hfresh Hin Hp Hun.
  - by apply elem_of_nil in Hin.
  - simpl in *. inversion Hnd as [|? ? Hnotin Hnd']; subst.
    assert (forall m1, (forall k, k ∈ its.*1 -> m1 !! k = None) ->
              (k, value) ∈ its ->
              (upgradeMetaInfo ty its m1).1 = Err (Exception UpgradeTypeInferenceFailure))
      as Hrest by (intros m1 H1 H2; by apply IH).
    destruct (String.prefix "__" key0) eqn:Hp0; simpl.
    + apply elem_of_cons in Hin as [[= -> ->]|Hin]; [congruence|].
      apply Hrest; [|done]. intros k' Hk'. apply Hfresh. apply elem_of_cons. by right.
    + destruct (typed_legacy_value ty value0) as [v0|] eqn:Hv0.
      * apply deduceValue_typed in Hv0. rewrite Hv0.
        unfold addMetaInfo, MetaInfoMap.insert.
        rewrite (Hfresh key0) by (apply elem_of_cons; by left).
        apply elem_of_cons in Hin as [[= -> ->]|Hin].
        { apply deduceValue_typed in Hv0. congruence. }
        apply Hrest; [|done]. intros k' Hk'. rewrite lookup_insert_ne; [|by intros ->].
        apply Hfresh. apply elem_of_cons. by right.
      * by rewrite (deduceValue_untyped _ _ Hv0).
Qed.

(** X14: a member of "GlobalMetainfo" that is null, an array or an object
    stops the upgrade of a fresh serializer with "cannot deduce type",
    unless its key starts with "__". *)
Theorem upgrade_rejects_untyped_global (oldJson oldJson' : json) (floatType : TypeID)
    (w : World) (its : list (string * json)) (k : string) (value : json) :
  globalMetaInfo_ (this w) = ∅ ->
  deduceFloatType oldJson = Ok (floatType, oldJson') ->
  Json.member "GlobalMetainfo" oldJson = JObject its ->
  Json.sorted_keys its ->
  (k, value) ∈ its -> String.prefix "__" k = false ->
  typed_legacy_value floatType value = None ->
  (upgradeFromJson oldJson w).1 = Err (Exception UpgradeTypeInferenceFailure).
Proof.
  intros Hempty Hd Hm Hsorted Hin Hp Hun.
  unfold upgradeFromJson. exec_unfold. rewrite Hd.
  apply deduceFloatType_Ok in Hd as (_ & _ & Hmem & _).
  destruct (Hmem "GlobalMetainfo") as [Hm' Hc]; [done|].
  assert (Json.count "GlobalMetainfo" oldJson = true) as Hcount.
  { destruct (Json.count "GlobalMetainfo" oldJson) eqn:E; [done|].
    apply count_false_member in E. congruence. }
  unfold upgradeGlobalMetaInfo. rewrite Hc, Hcount, Hm', Hm. exec_unfold.
  rewrite Hempty.
  pose proof (upgradeMetaInfo_untyped floatType its ∅ k value
                (sorted_keys_NoDup _ Hsorted) (fun _ _ => lookup_empty _) Hin Hp Hun) as Hfail.
  destruct (upgradeMetaInfo floatType its ∅) as [[[]|e] m]; simpl in *; congruence.
Qed.

Lemma FieldMap_insert_keeps name info (fm : FieldMap) :
  fm ⊆ (FieldMap.insert name info fm).2
  /\ is_Some ((FieldMap.insert name info fm).2 !! name).
Proof.
  unfold FieldMap.insert. destruct (fm !! name) as [info'|] eqn:E; simpl.
  - split; [done|]. by rewrite E.
  - split; [by apply insert_subseteq|]. by rewrite lookup_insert_eq.
Qed.

Lemma upgradeFieldsTable_all ty fieldsTable (fm fm' : FieldMap) :
  upgradeFieldsTable ty fieldsTable fm = (Ok (), fm') ->
  fm ⊆ fm'
  /\ forall fieldInfo, fieldInfo ∈ fieldsTable ->
       exists name info, upgradeFieldInfo ty fieldInfo = Ok (name, info)
                         /\ is_Some (fm' !! name).
Proof.
  revert fm. induction fieldsTable as [|fieldInfo rest IH]; intros fm; simpl.
  - intros [= <-]. split; [done|]. intros fi Hin. by apply elem_of_nil in Hin.
  - destruct (upgradeFieldInfo ty fieldInfo) as [[name0 info0]|e] eqn:Hf; [|done].
    intros Hrest. destruct (IH _ Hrest) as [Hsub Hall].
    destruct (FieldMap_insert_keeps name0 info0 fm) as [Hk [x Hx]].
    split; [by etrans|]. intros fi Hin.
    apply elem_of_cons in Hin as [->|Hin]; [|by apply Hall].
    exists name0, info0. split; [done|]. exists x. by eapply lookup_weaken.
Qed.

(** X15: the upgrade registers the fields of the fields table. Every entry
    has its "__name" registered, and every field registered by the upgrade
    comes from an entry of that name, with the element type its
    "__elementtype" translates to ("int" to Int32, "float" to Float32,
    anything else to Float64) and with the dims "__isize", "__jsize",
    "__ksize", followed by "__lsize" when the entry has one, each as the
    [int] its node converts to (for a double that an [int] cannot hold,
    whatever the platform makes of it). Fields that were registered before
    stay. *)
Theorem upgrade_registers_fields (oldJson : json) (w w' : World) :
  upgradeFromJson oldJson w = (Ok (), w') ->
  exists fieldsTable,
    JsonAccess.elements (Json.member "FieldsTable" oldJson) = Ok fieldsTable
    /\ fieldMap_ (this w) ⊆ fieldMap_ (this w')
    /\ (forall fieldInfo, fieldInfo ∈ fieldsTable ->
          exists name, JsonAccess.at_key "__name" fieldInfo = Ok (JString name)
                       /\ is_Some (fieldMap_ (this w') !! name))
    /\ (forall name info, fieldMap_ (this w') !! name = Some info ->
          fieldMap_ (this w) !! name = Some info
          \/ exists fieldInfo elementtype isize jsize ksize,
               fieldInfo ∈ fieldsTable
               /\ JsonAccess.at_key "__name" fieldInfo = Ok (JString name)
               /\ JsonAccess.at_key "__elementtype" fieldInfo = Ok (JString elementtype)
               /\ fmi_type info
                  = (if String.eqb elementtype "int" then Int32
                     else if String.eqb elementtype "float" then Float32
                     else Float64)
               /\ JsonAccess.at_key "__isize" fieldInfo ≫= JsonAccess.to_int = Ok isize
               /\ JsonAccess.at_key "__jsize" fieldInfo ≫= JsonAccess.to_int = Ok jsize
               /\ JsonAccess.at_key "__ksize" fieldInfo ≫= JsonAccess.to_int = Ok ksize
               /\ if Json.count "__lsize" fieldInfo then
                    exists lsize,
                      JsonAccess.at_key "__lsize" fieldInfo ≫= JsonAccess.to_int = Ok lsize
                      /\ fmi_dims info = [isize; jsize; ksize; lsize]
                  else fmi_dims info = [isize; jsize; ksize]).
Proof.
  unfold upgradeFromJson. exec_unfold.
  destruct (deduceFloatType oldJson) as [[ty oldJson']|e] eqn:Hd; [|done].
  destruct (upgradeGlobalMetaInfo ty oldJson' w) as [[[]|e] w1] eqn:Hg; [|done].
  destruct (upgradeFields ty oldJson' w1) as [[[]|e] w2] eqn:Hf; [|done].
  intros Hs.
  apply deduceFloatType_Ok in Hd as (_ & _ & _ & Hdoc).
  apply upgradeGlobalMetaInfo_Ok in Hg as (Hg1 & _).
  apply upgradeSavepoints_Ok in Hs as (_ & Hs2 & _).
  rewrite Hs2, <- Hg1. clear Hs2 Hg1 w'.
  (* the fields table the loop ran on is that of the document *)
  assert (exists fieldsTable,
            JsonAccess.elements (Json.member "FieldsTable" oldJson) = Ok fieldsTable
            /\ upgradeFieldsTable ty fieldsTable (fieldMap_ (this w1))
               = (Ok (), fieldMap_ (this w2))) as (fieldsTable & Hel & Hup).
  { revert Hf. unfold upgradeFields.
    destruct (Json.count "FieldsTable" oldJson') eqn:Hc.
    - exec_unfold.
      destruct (JsonAccess.elements (Json.member "FieldsTable" oldJson'))
        as [fieldsTable'|e] eqn:Hel'; [|done].
      destruct (upgradeFieldsTable ty fieldsTable' (fieldMap_ (this w1)))
        as [[[]|e] fm] eqn:Hup; intros [= <-]. simpl.
      destruct Hdoc as [->|(entry & entry' & rest & et & Hold & Hnew & _ & Hsub)];
        [by exists fieldsTable'|].
      rewrite Hnew in Hel'. injection Hel' as <-.
      destruct (upgradeFieldsTable_all _ _ _ _ Hup) as [_ Hall].
      destruct (Hall entry') as (name & info & Hentry & _); [apply elem_of_cons; by left|].
      rewrite (subscript_key_upgradable _ _ _ _ _ _ Hsub Hentry) in Hup.
      exists (entry :: rest). by rewrite Hold.
    - intros [= <-]. exists [].
      destruct Hdoc as [->|(? & ? & ? & ? & _ & _ & Hc' & _)]; [|congruence].
      by rewrite (count_false_member _ _ Hc). }
  exists fieldsTable. destruct (upgradeFieldsTable_all _ _ _ _ Hup) as [Hsub Hall].
  split_and!; [done|done|..].
  - intros fieldInfo Hin. destruct (Hall fieldInfo Hin) as (name & info & Hfi & Hsome).
    exists name. split; [|done]. by apply upgradeFieldInfo_Ok in Hfi as (? & _).
  - intros name info Hl.
    destruct (upgradeFieldsTable_origin _ _ _ _ Hup name info Hl)
      as [?|(fieldInfo & Hin & Hfi)]; [by left|right].
    apply upgradeFieldInfo_Ok in Hfi
      as (Hname & (et & Het & Htype) & (isize & jsize & ksize & Hi & Hj & Hk & Hdims) & _).
    exists fieldInfo, et, isize, jsize, ksize. split_and!; [done..| |done|done|done|done].
    rewrite Htype. unfold translateElementType.
    by repeat destruct (String.eqb _ _).
Qed.

End MoreUpgradeFacts.

(** ** More on the construction of a serializer *)

Section MoreConstructionFacts.
Context `{!FloatConversion, !Codecs, !ArchiveOps, !VersionInfo}.

#[local] Arguments Json.member : simpl never.
#[local] Arguments Json.eq_string : simpl never.
#[local] Arguments Json.count : simpl never.

(** Parsing the meta-data changes the three members it fills, and nothing
    else. *)
Lemma constructMetaDataFromJson_frame w r w' :
  constructMetaDataFromJson w = (r, w') ->
  disk w' = disk w /\ mode_ (this w') = mode_ (this w)
  /\ directory_ (this w') = directory_ (this w) /\ prefix_ (this w') = prefix_ (this w)
  /\ metaDataFile_ (this w') = metaDataFile_ (this w)
  /\ archive_ (this w') = archive_ (this w).
Proof.
  unfold constructMetaDataFromJson.
  destruct (negb (Fs.exists_file _ _)).
  { destruct (negb (bool_decide _)); by intros [= _ <-]. }
  destruct (Fs.parse _) as [jsonNode|]; [|by intros [= _ <-]].
  unfold rethrow.
  destruct (parseMetaData jsonNode w) as [r0 w0] eqn:Hp.
  assert (disk w0 = disk w /\ mode_ (this w0) = mode_ (this w)
          /\ directory_ (this w0) = directory_ (this w)
          /\ prefix_ (this w0) = prefix_ (this w)
          /\ metaDataFile_ (this w0) = metaDataFile_ (this w)
          /\ archive_ (this w0) = archive_ (this w)) as Hframe.
  { revert Hp. unfold parseMetaData. exec_unfold.
    intros Hp. repeat case_match; simplify_eq; done. }
  destruct r0 as [a|[k| | |]]; by intros [= _ <-].
Qed.

(** X16: a serializer opened in Write mode starts empty. Whatever meta-data
    the directory held, a successful construction in Write mode leaves no
    savepoint, no field and no global meta-info; and it has not run the
    legacy upgrade. *)
Theorem construct_write_mode_empty (archiveName : string) (w w' : World) :
  mode_ (this w) = Write ->
  construct archiveName w = (Ok (), w') ->
  mode_ (this w') = Write
  /\ savepointVector_ (this w') = []
  /\ fieldMap_ (this w') = ∅
  /\ globalMetaInfo_ (this w') = ∅
  /\ upgradeMetaData w = (Ok false, w).
Proof.
  intros Hmode. unfold construct. exec_unfold.
  destruct (checkDirectory w) as [[[]|e] w0] eqn:Hd; [|done].
  apply checkDirectory_pure in Hd as ->.
  assert (upgradeMetaData w = (Ok false, w)
          \/ exists e, upgradeMetaData w = (Err e, w)) as Hup.
  { unfold upgradeMetaData. destruct (negb (upgradeNecessary _ _)); [by left|].
    right. rewrite bool_decide_eq_false_2 by (by rewrite Hmode). simpl. eauto. }
  destruct Hup as [Hup|[e Hup]]; rewrite Hup; [|done]. simpl.
  destruct (constructMetaDataFromJson w) as [[[]|e] w1] eqn:Hm; [|done].
  apply constructMetaDataFromJson_frame in Hm as (_ & Hm1 & _).
  destruct (constructArchive archiveName w1) as [[[]|e] w2] eqn:Ha; [|done].
  assert (mode_ (this w2) = Write) as Hm2.
  { revert Ha. unfold constructArchive.
    destruct (Archive_create _ _ _ _ _) as [[msg|a] fs']; simpl; [done|].
    intros [= <-]. simpl. congruence. }
  unfold clearIfWriting, clear, archive_clear, with_archive. exec_unfold.
  rewrite bool_decide_eq_true_2 by done. simpl.
  destruct (archive_ (this w2)) as [a|]; [|done].
  destruct (Archive_clear a (disk w2)) as [a' fs']. simpl.
  intros [= <-]. simpl. done.
Qed.

(** X17: opening without any meta-data. With neither a legacy document nor
    a meta-data file in the directory, the construction in Read mode fails,
    on a missing directory with "directory does not exist" and otherwise
    with "MetaData not found", and changes nothing; in Write and Append
    mode it goes on to the construction of the archive, which creates what
    is missing, with the serializer as it was. *)
Theorem construct_without_metadata (archiveName : string) (w : World) :
  Fs.exists_file (oldMetaDataFile (this w)) (disk w) = false ->
  Fs.exists_file (metaDataFile_ (this w)) (disk w) = false ->
  (mode_ (this w) = Read ->
     construct archiveName w
     = (Err (Exception (if Fs.exists_dir (directory_ (this w)) (disk w)
                        then MetadataNotFound else DirectoryMissing)), w))
  /\ (mode_ (this w) <> Read ->
      construct archiveName w = (constructArchive archiveName;; clearIfWriting) w).
Proof.
  intros Hold Hnew.
  assert (upgradeMetaData w = (Ok false, w)) as Hup
    by (unfold upgradeMetaData, upgradeNecessary; by rewrite Hold).
  split; intros Hmode; unfold construct, checkDirectory; exec_unfold.
  - rewrite bool_decide_eq_true_2 by done. simpl.
    destruct (Fs.exists_dir _ _); simpl; [|done].
    rewrite Hup. simpl. unfold constructMetaDataFromJson.
    rewrite Hnew. simpl. by rewrite bool_decide_eq_true_2.
  - rewrite bool_decide_eq_false_2 by done. simpl. rewrite Hup. simpl.
    unfold constructMetaDataFromJson. rewrite Hnew. simpl.
    by rewrite bool_decide_eq_false_2.
Qed.

Lemma FieldMap_fromJSON_toJSON (fm self : FieldMap) :
  (forall k x, fm !! k = Some x ->
     FieldMetaInfo_fromJSON (FieldMetaInfo_toJSON x) = Ok x) ->
  FieldMap.fromJSON (FieldMap.toJSON fm) self = (Ok (), fm).
Proof.
  intros Hrt. destruct (decide (fm = ∅)) as [->|Hne].
  { by rewrite toJSON_empty. }
  rewrite toJSON_nonempty by done.
  set (o := FieldMap.members_of (map_to_list fm) []).
  assert (Json.sorted_keys o) as Hsorted by (apply members_of_sorted; constructor).
  unfold FieldMap.fromJSON. simpl.
  destruct (fromJSON_loop_decodes fm o ∅) as (m & Hm & Hsub & _ & Hdom).
  - by apply sorted_keys_NoDup.
  - intros k v Hin. split; [apply lookup_empty|].
    apply obj_get_elem_of in Hin; [|by apply sorted_keys_NoDup].
    unfold o in Hin. rewrite members_of_lookup in Hin.
    destruct (fm !! k) as [x|] eqn:E; [|done].
    simpl in Hin. injection Hin as <-. exists x. split; [by eapply Hrt|done].
  - apply map_empty_subseteq.
  - unfold Json.count, JsonAccess.at_key. simpl.
    rewrite Hm. f_equal. apply map_eq. intros k.
    destruct (fm !! k) as [x|] eqn:E.
    + destruct (Hdom k) as [y Hy].
      { apply list_elem_of_fmap. exists (k, FieldMetaInfo_toJSON x). split; [done|].
        apply obj_get_Some_elem_of. unfold o. by rewrite members_of_lookup, E. }
      rewrite Hy. f_equal. pose proof (lookup_weaken _ _ _ _ Hy Hsub). congruence.
    + destruct (m !! k) as [y|] eqn:Ey; [|done].
      pose proof (lookup_weaken _ _ _ _ Ey Hsub). congruence.
Qed.

(** X18: the meta-data document round-trips. When the meta-data file holds
    the document [toJSON] of a serializer, the prefix is the expected one,
    the library accepts its own version, and the JSON forms of the global
    meta-info, of the savepoint vector and of the fields are read back by
    their own [fromJSON], then [constructMetaDataFromJson] succeeds and
    rebuilds the global meta-info, the savepoint vector and the field map
    of that serializer. *)
Theorem metadata_document_roundtrip (s : SerializerImpl) (w : World) :
  Fs.exists_file (metaDataFile_ (this w)) (disk w) = true ->
  Fs.parse (Fs.open_read (metaDataFile_ (this w)) (disk w)) = Some (toJSON s) ->
  prefix_ (this w) = prefix_ s ->
  Version_match
    (wrap_int32 (100 * SERIALBOX_VERSION_MAJOR + 10 * SERIALBOX_VERSION_MINOR
                 + SERIALBOX_VERSION_PATCH)) = true ->
  (forall self, MetaInfoMap_fromJSON (MetaInfoMap_toJSON (globalMetaInfo_ s)) self
                = (Ok (), globalMetaInfo_ s)) ->
  (forall self, SavepointVector_fromJSON (SavepointVector_toJSON (savepointVector_ s)) self
                = (Ok (), savepointVector_ s)) ->
  (forall k x, fieldMap_ s !! k = Some x ->
     FieldMetaInfo_fromJSON (FieldMetaInfo_toJSON x) = Ok x) ->
  constructMetaDataFromJson w
  = (Ok (),
     {| this := set_fieldMap (fieldMap_ s)
                  (set_savepointVector (savepointVector_ s)
                     (set_globalMetaInfo (globalMetaInfo_ s) (this w)));
        disk := disk w |}).
Proof.
  intros Hex Hparse Hprefix Hversion Hglobal Hsv Hfields.
  unfold constructMetaDataFromJson. rewrite Hex, Hparse. simpl.
  unfold rethrow, parseMetaData, toJSON.
  unfold Json.count, Json.member, Json.eq_string. simpl.
  exec_unfold. rewrite Hversion. simpl.
  rewrite Hprefix, String.eqb_refl. simpl.
  rewrite Hglobal. simpl. rewrite Hsv. simpl.
  by rewrite (FieldMap_fromJSON_toJSON _ _ Hfields).
Qed.

End MoreConstructionFacts.

(** ** The names of the fields and the printing of dims *)

Section NamesFacts.

Lemma foldl_snoc_fst {A B} (l : list (A * B)) (acc : list A) :
  foldl (fun fields it => (fields ++ [it.1])%list) acc l = (acc ++ l.*1)%list.
Proof.
  revert acc. induction l as [|x l IH]; intros acc; simpl.
  - by rewrite app_nil_r.
  - rewrite IH. by rewrite <- app_assoc.
Qed.

(** X19: [fieldnames] lists the registered fields, each of them once: a name
    is in the list exactly when the field map has it (that is, when the
    storage-view check does not answer "not registered"), and the list is
    as long as the field map is large. *)
Theorem fieldnames_registered (s : SerializerImpl) :
  (forall name, name ∈ fieldnames s <-> is_Some (fieldMap_ s !! name))
  /\ NoDup (fieldnames s)
  /\ length (fieldnames s) = size (fieldMap_ s).
Proof.
  unfold fieldnames. rewrite foldl_snoc_fst. simpl. split_and!.
  - intros name. rewrite list_elem_of_fmap. split.
    + intros ([k x] & -> & Hin). apply elem_of_map_to_list in Hin. by exists x.
    + intros [x Hx]. exists (name, x). split; [done|]. by apply elem_of_map_to_list.
  - apply NoDup_fst_map_to_list.
  - by rewrite length_fmap, length_map_to_list.
Qed.

Lemma append_cons (x : ascii) (a b : string) : String x a +:+ b = String x (a +:+ b).
Proof. reflexivity. Qed.

Lemma append_assoc (a b c : string) : (a +:+ b) +:+ c = a +:+ b +:+ c.
Proof. induction a as [|x a IH]; [done|]. by rewrite !append_cons, IH. Qed.

Lemma append_empty_r (a : string) : a +:+ "" = a.
Proof. induction a as [|x a IH]; [done|]. by rewrite append_cons, IH. Qed.

Lemma concat_sep_snoc (l : list string) (x : string) :
  String.concat ", " (l ++ [x])%list = foldr (fun y acc => y +:+ ", " +:+ acc) x l.
Proof.
  induction l as [|y l IH]; [done|].
  change (String.concat ", " ((y :: l) ++ [x])%list)
    with (String.concat ", " (y :: (l ++ [x])%list)).
  simpl foldr. rewrite <- IH.
  destruct (l ++ [x])%list as [|z l'] eqn:E; [by destruct l|done].
Qed.

Lemma foldr_sep_append (l : list string) (x : string) :
  foldr (fun y acc => y +:+ ", " +:+ acc) "" l +:+ x
  = foldr (fun y acc => y +:+ ", " +:+ acc) x l.
Proof.
  induction l as [|y l IH]; [done|].
  simpl foldr. by rewrite !append_assoc, IH.
Qed.

Lemma vecToString_loop (l rest : list Z) (ss : string) :
  foldl (fun ss i => ss +:+ pretty (default 0 ((l ++ rest)%list !! i)) +:+ ", ")
        ss (seq 0 (length l))
  = ss +:+ foldr (fun y acc => y +:+ ", " +:+ acc) "" (pretty <$> l).
Proof.
  revert ss rest. induction l as [|x l IH] using rev_ind; intros ss rest.
  - simpl. by rewrite append_empty_r.
  - rewrite length_app. simpl. rewrite Nat.add_1_r, seq_S, foldl_app. simpl.
    rewrite <- app_assoc, IH.
    rewrite lookup_app_r, Nat.sub_diag by done. simpl.
    rewrite fmap_app, foldr_app. simpl.
    by rewrite append_assoc, foldr_sep_append.
Qed.

(** X20: [vecToString] prints the elements in decimal, separated by ", ",
    with no separator after the last one; an empty vector prints as the
    empty string (the loop bound [size() - 1] is never taken on it). *)
Theorem vecToString_concat (vec : list Z) :
  internal.vecToString vec = String.concat ", " (pretty <$> vec).
Proof.
  unfold internal.vecToString. case_bool_decide as Hnil; simpl; [by subst|].
  destruct (exists_last Hnil) as (l & x & ->).
  rewrite last_snoc, length_app. simpl.
  replace (length l + 1 - 1)%nat with (length l) by lia.
  rewrite vecToString_loop, fmap_app.
  change (pretty <$> [x]) with [pretty x].
  rewrite concat_sep_snoc, <- (foldr_sep_append _ (pretty x)). reflexivity.
Qed.

End NamesFacts.

(** ** The further properties on the scenarios *)

Section MoreScenariosFacts.
Import Reference Scenario MoreScenarios.

Lemma checkStorageView_spec_witness :
  checkStorageView "f" view12 appending = (Ok (), appending)
  /\ fieldMap_ (this appending) !! "g" = None
  /\ checkStorageView "g" view12 appending
     = (Err (Exception FieldNotRegistered), appending)
  /\ fmi_dims f_info <> view_dims view3
  /\ checkStorageView "f" view3 appending = (Err (Exception ShapeMismatch), appending).
Proof.
  destruct (checkStorageView_spec "f" view12 appending) as (Hok & _).
  destruct (checkStorageView_spec "g" view12 appending) as (_ & Hnone & _).
  destruct (checkStorageView_spec "f" view3 appending) as (_ & _ & _ & Hshape).
  assert (fmi_dims f_info <> view_dims view3) as Hne by done.
  split_and!; [|done| |done|].
  - apply Hok. by exists f_info.
  - by apply Hnone.
  - by apply (Hshape f_info).
Defined.

Lemma write_records_field_witness :
  archive_names_field
  /\ write "f" s1 view12 appending = (Ok (), written)
  /\ s1 ∈ SavepointVector.savepoints (savepointVector_ (this written))
  /\ (Archive_write view12 "f" (BinaryArchive_new Append "d" "p") emptyDisk).1.1
     = inr {| fid_name := "f"; fid_id := 0 |}
  /\ SavepointVector.getFieldID 0 "f" (savepointVector_ (this written))
     = Ok {| fid_name := "f"; fid_id := 0 |}
  /\ mode_ (this written) = Append.
Proof.
  assert (write "f" s1 view12 appending = (Ok (), written)) as Hw by (by vm_compute).
  destruct (write_records_field "f" s1 view12 appending written
              reference_archive_names_field Hw)
    as (Hin & (a & fid & a' & fs' & Ha & Haw & _ & Hget) & _ & Hmode & _).
  injection Ha as <-.
  change (disk appending) with emptyDisk in Haw.
  split_and!; [exact reference_archive_names_field|done|done| | |by rewrite Hmode].
  - by vm_compute.
  - assert (fid = {| fid_name := "f"; fid_id := 0 |}) as <-; [|exact Hget].
    assert ((Archive_write view12 "f" (BinaryArchive_new Append "d" "p") emptyDisk).1.1
            = inr {| fid_name := "f"; fid_id := 0 |}) as Hans by (by vm_compute).
    rewrite Haw in Hans. by injection Hans.
Defined.

Lemma write_twice_rejected_witness :
  archive_names_field
  /\ write "f" s1 view12 appending = (Ok (), written)
  /\ write "f" s1 view12 written = (Err (Exception FieldAlreadyAtSavepoint), written).
Proof.
  assert (write "f" s1 view12 appending = (Ok (), written)) as Hw by (by vm_compute).
  split_and!; [exact reference_archive_names_field|done|].
  exact (write_twice_rejected "f" s1 view12 view12 appending written
           reference_archive_names_field Hw eq_refl eq_refl).
Defined.

Lemma write_keeps_savepoints_witness :
  savepointVector_ (this written) !! 0%nat
  = Some (s1, {["f" := {| fid_name := "f"; fid_id := 0 |}]})
  /\ exists fields1,
       savepointVector_ (this (write "f" s2 view12 written).2) !! 0%nat
       = Some (s1, fields1)
       /\ {["f" := {| fid_name := "f"; fid_id := 0 |}]} ⊆ fields1.
Proof.
  assert (savepointVector_ (this written) !! 0%nat
          = Some (s1, {["f" := {| fid_name := "f"; fid_id := 0 |}]})) as Hl
    by (by vm_compute).
  split; [done|].
  exact (write_keeps_savepoints "f" s2 view12 written 0%nat s1 _ Hl).
Defined.

Lemma clear_forgets_everything_witness :
  archive_ (this written) = Some (set_fieldTable
             {["f" := [{| offset := 0; checksum := "0000803f00000040" |}]]}
             (BinaryArchive_new Append "d" "p"))
  /\ exists w', clear written = (Ok (), w')
       /\ savepointVector_ (this w') = []
       /\ fieldMap_ (this w') = ∅
       /\ checkStorageView "f" view12 w' = (Err (Exception FieldNotRegistered), w').
Proof.
  assert (archive_ (this written)
          = Some (set_fieldTable
                    {["f" := [{| offset := 0; checksum := "0000803f00000040" |}]]}
                    (BinaryArchive_new Append "d" "p")))
    as Ha by (by vm_compute).
  split; [done|].
  destruct (clear_forgets_everything written _ Ha)
    as (w' & Hc & Hsv & Hfm & _ & _ & _ & _ & Hcheck).
  exists w'. split_and!; [done..|]. apply Hcheck.
Defined.

Lemma illFormedFields_sorted : Json.sorted_keys illFormedFields.
Proof. repeat constructor. Qed.

Lemma fromJSON_builds_members_witness :
  Json.sorted_keys [("f", fieldMetaInfo_toJSON f_info)]
  /\ exists m,
       FieldMap.fromJSON (JObject [("field_map", JObject [("f", fieldMetaInfo_toJSON f_info)])])
         ∅ = (Ok (), m)
       /\ m !! "f" = Some f_info.
Proof.
  assert (Json.sorted_keys [("f", fieldMetaInfo_toJSON f_info)]) as Hs
    by repeat constructor.
  split; [done|].
  destruct (fromJSON_builds_members
              (JObject [("field_map", JObject [("f", fieldMetaInfo_toJSON f_info)])])
              [("f", fieldMetaInfo_toJSON f_info)] ∅ eq_refl eq_refl Hs)
    as (m & Hm & Hl).
  { intros k v Hin. apply list_elem_of_singleton in Hin. injection Hin as -> ->.
    by exists f_info. }
  exists m. split; [done|]. by rewrite Hl.
Defined.

Lemma fromJSON_ill_formed_member_witness :
  Json.sorted_keys illFormedFields
  /\ FieldMetaInfo_fromJSON JNull = Err (Exception CodecError)
  /\ exists m,
       FieldMap.fromJSON illFormedDoc ∅ = (Err (Exception FieldMapIllFormed), m)
       /\ m !! "f" = Some f_info.
Proof.
  split; [exact illFormedFields_sorted|]. split; [done|].
  destruct (fromJSON_ill_formed_member illFormedDoc
              [("f", fieldMetaInfo_toJSON f_info)] [] "g" JNull CodecError ∅
              eq_refl eq_refl illFormedFields_sorted)
    as (m & Hm & Hl); [|done|].
  { intros k v Hin. apply list_elem_of_singleton in Hin. injection Hin as -> ->.
    by exists f_info. }
  exists m. split; [done|]. by rewrite Hl.
Defined.

Lemma fromJSON_never_node_exists_witness :
  (forall o, Json.member "field_map" illFormedDoc = JObject o -> Json.sorted_keys o)
  /\ (FieldMap.fromJSON illFormedDoc ∅).1 <> Err (Exception FieldMapNodeExists).
Proof.
  assert (forall o, Json.member "field_map" illFormedDoc = JObject o ->
                    Json.sorted_keys o) as Hs.
  { intros o [= <-]. exact illFormedFields_sorted. }
  split; [done|]. exact (fromJSON_never_node_exists illFormedDoc ∅ Hs).
Defined.

Lemma upgradeOffset_dedup_witness :
  upgradeOffset "u" secondPayload tableOfU
  = Ok ({| fid_name := "u"; fid_id := 1 |},
        {["u" := [{| offset := 0; checksum := "h" |}; secondPayload]]})
  /\ upgradeOffset "u" firstPayloadAgain tableOfU
     = Ok ({| fid_name := "u"; fid_id := 0 |}, tableOfU)
  /\ exists offsets e,
       ({["u" := [{| offset := 0; checksum := "h" |}; secondPayload]]} : FieldTable)
         !! "u" = Some offsets
       /\ offsets !! 1%nat = Some e /\ checksum e = "k".
Proof.
  assert (upgradeOffset "u" secondPayload tableOfU
          = Ok ({| fid_name := "u"; fid_id := 1 |},
                {["u" := [{| offset := 0; checksum := "h" |}; secondPayload]]})) as H1
    by (by vm_compute).
  split_and!; [done|by vm_compute|].
  exact (proj1 (proj2 (proj2 (upgradeOffset_dedup _ _ _ _ _ H1)))).
Defined.

Lemma upgradeOffset_checks_witness :
  (∅ : FieldTable) !! "u" = None
  /\ offset secondPayload <> 0
  /\ upgradeOffset "u" secondPayload ∅ = Err CheckFailed.
Proof.
  assert (offset secondPayload <> 0) as Hne by done.
  split_and!; [done|done|].
  apply (proj2 (upgradeOffset_checks "u" secondPayload ∅ CheckFailed)).
  split; [done|]. left. by split.
Defined.

Lemma upgrade_field_ids_resolve_witness :
  (upgradeFromJson legacyDoc (opening Read (legacyDisk legacyDoc))).1 = Ok ()
  /\ savepointVector_ (this (opening Read (legacyDisk legacyDoc))) = []
  /\ exists a,
       archive_ (this (upgradeFromJson legacyDoc (opening Read (legacyDisk legacyDoc))).2)
       = Some a
       /\ field_ids_resolve
            (savepointVector_
               (this (upgradeFromJson legacyDoc (opening Read (legacyDisk legacyDoc))).2))
            (fieldTable a).
Proof.
  assert (upgradeFromJson legacyDoc (opening Read (legacyDisk legacyDoc))
          = (Ok (), (upgradeFromJson legacyDoc (opening Read (legacyDisk legacyDoc))).2))
    as Hup by (by vm_compute).
  split; [by rewrite Hup|]. split; [done|].
  destruct (upgrade_field_ids_resolve _ _ _ Hup eq_refl)
    as (_ & a & Ha & _ & _ & _ & Hr & _).
  by exists a.
Defined.

Lemma upgrade_global_metainfo_witness :
  (upgradeFromJson legacyFloatDoc (opening Read (legacyDisk legacyFloatDoc))).1 = Ok ()
  /\ globalMetaInfo_ (this (opening Read (legacyDisk legacyFloatDoc))) = ∅
  /\ globalMetaInfo_
       (this (upgradeFromJson legacyFloatDoc
                (opening Read (legacyDisk legacyFloatDoc))).2)
     !! "__format" = None
  /\ globalMetaInfo_
       (this (upgradeFromJson legacyFloatDoc
                (opening Read (legacyDisk legacyFloatDoc))).2)
     !! "dt" = Some (VFloat32 (float_of_double half)).
Proof.
  assert (upgradeFromJson legacyFloatDoc (opening Read (legacyDisk legacyFloatDoc))
          = (Ok (), (upgradeFromJson legacyFloatDoc
                       (opening Read (legacyDisk legacyFloatDoc))).2))
    as Hup by (by vm_compute).
  split; [by rewrite Hup|]. split; [done|].
  destruct (upgrade_global_metainfo _ _ _ Hup eq_refl)
    as (ty & oldJson' & its & _ & Hty & _ & Hits & Hiff).
  assert (ty = Float32) as ->.
  { apply Hty. by exists (legacyField "v" "float"), []. }
  injection Hits as <-. split.
  - destruct (globalMetaInfo_ _ !! "__format") as [v|] eqn:E; [|done].
    by apply Hiff in E as [? _].
  - apply Hiff. split; [done|]. exists (JFloat half). split; [|done].
    apply elem_of_cons. right. apply elem_of_cons. by left.
Defined.

Lemma upgrade_rejects_untyped_global_witness :
  deduceFloatType legacyUntypedDoc = Ok (Float64, legacyUntypedDoc)
  /\ typed_legacy_value Float64 (JArray [JInt 1; JInt 2]) = None
  /\ (upgradeFromJson legacyUntypedDoc (opening Read (legacyDisk legacyUntypedDoc))).1
     = Err (Exception UpgradeTypeInferenceFailure).
Proof.
  split; [done|]. split; [done|].
  eapply (upgrade_rejects_untyped_global legacyUntypedDoc legacyUntypedDoc Float64
            (opening Read (legacyDisk legacyUntypedDoc))
            [("__format", JString "Ser"); ("dt", JFloat half);
             ("grid", JArray [JInt 1; JInt 2])] "grid" (JArray [JInt 1; JInt 2]));
    [done|done|done|repeat constructor| |done|done].
  do 2 (apply elem_of_cons; right). apply elem_of_cons. by left.
Defined.

Lemma upgrade_registers_fields_witness :
  (upgradeFromJson legacyDoc (opening Read (legacyDisk legacyDoc))).1 = Ok ()
  /\ is_Some
       (fieldMap_ (this (upgradeFromJson legacyDoc (opening Read (legacyDisk legacyDoc))).2)
        !! "u")
  /\ (upgradeFromJson legacyBeyondIntDoc
        (opening Read (legacyDisk legacyBeyondIntDoc))).1 = Ok ()
  /\ fmi_dims <$>
       fieldMap_ (this (upgradeFromJson legacyBeyondIntDoc
                          (opening Read (legacyDisk legacyBeyondIntDoc))).2) !! "u"
     = Some [- 2147483648; - 2147483648; - 2147483648].
Proof.
  assert (upgradeFromJson legacyDoc (opening Read (legacyDisk legacyDoc))
          = (Ok (), (upgradeFromJson legacyDoc (opening Read (legacyDisk legacyDoc))).2))
    as Hup by (by vm_compute).
  assert (upgradeFromJson legacyBeyondIntDoc (opening Read (legacyDisk legacyBeyondIntDoc))
          = (Ok (), (upgradeFromJson legacyBeyondIntDoc
                       (opening Read (legacyDisk legacyBeyondIntDoc))).2))
    as Hup' by (by vm_compute).
  split; [by rewrite Hup|]. split; [|split; [by rewrite Hup'|]].
  - destruct (upgrade_registers_fields _ _ _ Hup) as (fieldsTable & Hel & _ & Hall & _).
    injection Hel as <-.
    destruct (Hall (legacyField "u" "double")) as (name & Hname & Hsome);
      [apply elem_of_cons; by left|].
    by injection Hname as <-.
  - destruct (upgrade_registers_fields _ _ _ Hup')
      as (fieldsTable & Hel & _ & Hall & Horigin).
    injection Hel as <-.
    destruct (Hall (JObject [("__elementtype", JString "double");
                             ("__isize", JFloat tenBillion);
                             ("__jsize", JFloat minusTenBillion);
                             ("__ksize", JFloat beyondInt);
                             ("__name", JString "u")]))
      as (name & Hname & [info Hl]); [apply elem_of_cons; by left|].
    injection Hname as <-. rewrite Hl. simpl. f_equal.
    destruct (Horigin "u" info Hl)
      as [Hold|(fieldInfo & ty & isize & jsize & ksize & Hin & _ & _ & _
                & Hi & Hj & Hk & Hdims)]; [done|].
    apply list_elem_of_singleton in Hin. subst fieldInfo.
    injection Hi as <-. injection Hj as <-. injection Hk as <-. exact Hdims.
Defined.

Lemma construct_write_mode_empty_witness :
  mode_ (this (opening Write (disk written))) = Write
  /\ (construct "Binary" (opening Write (disk written))).1 = Ok ()
  /\ fieldMap_ (this (construct "Binary" (opening Write (disk written))).2) = ∅
  /\ savepointVector_ (this (construct "Binary" (opening Write (disk written))).2) = [].
Proof.
  assert (construct "Binary" (opening Write (disk written))
          = (Ok (), (construct "Binary" (opening Write (disk written))).2)) as Hc
    by (by vm_compute).
  destruct (construct_write_mode_empty "Binary" (opening Write (disk written)) _
              eq_refl Hc) as (_ & Hsv & Hfm & _).
  split_and!; [done|by rewrite Hc|done|done].
Defined.

Lemma construct_without_metadata_witness :
  Fs.exists_file (oldMetaDataFile (this (opening Read emptyDisk))) emptyDisk = false
  /\ Fs.exists_file (metaDataFile_ (this (opening Read emptyDisk))) emptyDisk = false
  /\ construct "Binary" (opening Read emptyDisk)
     = (Err (Exception MetadataNotFound), opening Read emptyDisk)
  /\ construct "Binary" (opening Append emptyDisk)
     = (constructArchive "Binary";; clearIfWriting) (opening Append emptyDisk).
Proof.
  split; [done|]. split; [done|]. split.
  - exact (proj1 (construct_without_metadata "Binary" (opening Read emptyDisk)
                    eq_refl eq_refl) eq_refl).
  - apply (proj2 (construct_without_metadata "Binary" (opening Append emptyDisk)
                    eq_refl eq_refl)). done.
Defined.

Lemma metadata_document_roundtrip_witness :
  Fs.parse (Fs.open_read ("d", "MetaData-p.json") (disk written))
  = Some (toJSON (this written))
  /\ constructMetaDataFromJson (opening Read (disk written))
     = (Ok (),
        {| this := set_fieldMap (fieldMap_ (this written))
                     (set_savepointVector (savepointVector_ (this written))
                        (set_globalMetaInfo (globalMetaInfo_ (this written))
                           (initial Read "d" "p")));
           disk := disk written |}).
Proof.
  assert (Fs.parse (Fs.open_read ("d", "MetaData-p.json") (disk written))
          = Some (toJSON (this written))) as Hparse by (by vm_compute).
  split; [done|].
  apply (metadata_document_roundtrip (this written) (opening Read (disk written)));
    [by vm_compute|done|done|done|by vm_compute|by vm_compute|].
  intros k x Hk.
  assert (fieldMap_ (this written) = fields) as Hfm by (by vm_compute).
  rewrite Hfm in Hk. unfold fields in Hk.
  apply lookup_singleton_Some in Hk as [_ <-]. reflexivity.
Defined.

Lemma fieldnames_registered_witness :
  is_Some (fieldMap_ (opened Append) !! "f") /\ "f" ∈ fieldnames (opened Append).
Proof.
  assert (is_Some (fieldMap_ (opened Append) !! "f")) as Hs by (by exists f_info).
  split; [done|].
  by apply (proj1 (fieldnames_registered (opened Append)) "f").
Defined.

End MoreScenariosFacts.
